(** * MiniShell evaluator core: a shallow embedding of [Evaluation.c]

    The development follows the layout of the source file: helpers
    ([STATUS], [hash_cmd]), the job table, signal handling, the reaper,
    the pipeline and redirection layers, sequences, built-ins, the command
    launcher, the recursive expression handler and the entry point.  The
    argument lists of [Shell.c] come last.

    The shell is modelled as a state-and-exit monad over a record [shell]
    holding the globals of [Evaluation.c] together with the part of the
    operating system the evaluator talks to (descriptor table, files,
    a trace of externally visible actions).  What the rest of the system
    answers (the pid given by [fork], what [waitpid] reports, a call that
    fails for an outside reason) is read from an oracle [kernel] indexed by
    the number of system calls made so far. *)

From Stdlib Require Import ZArith Lia String Ascii List Bool.
From Stdlib Require Import DecimalString HexadecimalString.
From stdpp Require Import base numbers option list gmap strings.

Local Open Scope Z_scope.

(** ** C integers and characters *)

Definition INT_MAX : Z := 2147483647.

(** Two's complement wrap-around of a 32-bit [int]. *)
Definition wrap_int (z : Z) : Z := (z + 2 ^ 31) mod 2 ^ 32 - 2 ^ 31.

(** Value of a plain [char] read into an [int]; plain [char] is signed on
    the platforms the shell is built for. *)
Definition char_val (c : ascii) : Z :=
  let n := Z.of_N (N_of_ascii c) in if n <? 128 then n else n - 256.

(** [printf ("%d", z)] and [printf ("%x", z)] (the latter reads its
    argument as an [unsigned int]). *)
Definition fmt_d (z : Z) : string :=
  DecimalString.NilZero.string_of_int (Z.to_int z).
Definition fmt_x (z : Z) : string :=
  HexadecimalString.NilZero.string_of_uint (N.to_hex_uint (Z.to_N (z mod 2 ^ 32))).

(** ** Helpers *)

Definition INTERNSTATUS : Z := -128.

(** The [STATUS] macro, as the value its argument holds afterwards.  For a
    negative [int] the subtraction of [INTERNSTATUS] cannot overflow. *)
Definition STATUS (_status_ : Z) : Z :=
  if _status_ <? 0 then _status_ - INTERNSTATUS else _status_.

Definition CD : Z := 0x15d9.
Definition CBG : Z := 0x1665.
Definition CFG : Z := 0x1681.
Definition HASH : Z := 0x47ee6.
Definition HELP : Z := 0x4c151.
Definition ECHO : Z := 0x4b21d.
Definition EXIT : Z := 0x4e65e.
Definition JOBS : Z := 0x4d206.
Definition ECHO_STATUS : Z := 0xd0b.

(** The loop of [hash_cmd]: [str] is what is left of the C string, the
    terminating NUL being the end of the Rocq string (a NUL inside it ends
    the C string as well). *)
Fixpoint hash_loop (str : string) (hash i : Z) : Z :=
  match str with
  | EmptyString => hash
  | String ch rest =>
      let c := char_val ch in
      if c =? 0 then hash
      else hash_loop rest
             (Z.rem (wrap_int (hash + wrap_int (c * i))) INT_MAX)
             (wrap_int (i * 7))
  end.

Definition hash_cmd (str : string) : Z := hash_loop str 0 7.

(** ** Job control: data *)

Definition WHANG : Z := 0.
Definition JFG : Z := 0.
Definition JBG : Z := 1.
Definition MAXJOBS : nat := 32.
Definition CMDBUFSZ : nat := 16.

Inductive state_t := JDONE | JRUNNING | JSTOPPED.

#[global] Instance state_t_eq_dec : EqDecision state_t.
Proof. solve_decision. Defined.

(** [struct job].  [cmd] is the [CMDBUFSZ]-byte array; a pointer
    [job_t*] into [job_list] is the index of the slot. *)
Record job := mk_job {
  jid : Z;
  pid : Z;
  pgid : Z;
  background : Z;
  state : state_t;
  status : Z;
  termsig : Z;
  cmd : list ascii
}.

(** A slot after [memset (job_list, 0, sizeof job_list)]: [JDONE] is the
    enumerator with value zero. *)
Definition job_zero : job :=
  mk_job 0 0 0 0 JDONE 0 0 (replicate CMDBUFSZ zero).

Definition set_jid (v : Z) (j : job) : job :=
  mk_job v (pid j) (pgid j) (background j) (state j) (status j) (termsig j) (cmd j).
Definition set_pid (v : Z) (j : job) : job :=
  mk_job (jid j) v (pgid j) (background j) (state j) (status j) (termsig j) (cmd j).
Definition set_pgid (v : Z) (j : job) : job :=
  mk_job (jid j) (pid j) v (background j) (state j) (status j) (termsig j) (cmd j).
Definition set_background (v : Z) (j : job) : job :=
  mk_job (jid j) (pid j) (pgid j) v (state j) (status j) (termsig j) (cmd j).
Definition set_state (v : state_t) (j : job) : job :=
  mk_job (jid j) (pid j) (pgid j) (background j) v (status j) (termsig j) (cmd j).
Definition set_status (v : Z) (j : job) : job :=
  mk_job (jid j) (pid j) (pgid j) (background j) (state j) v (termsig j) (cmd j).
Definition set_termsig (v : Z) (j : job) : job :=
  mk_job (jid j) (pid j) (pgid j) (background j) (state j) (status j) v (cmd j).
Definition set_cmd (v : list ascii) (j : job) : job :=
  mk_job (jid j) (pid j) (pgid j) (background j) (state j) (status j) (termsig j) v.

(** The text [printf ("%s", job->cmd)] and [strcmp] read from the buffer:
    the bytes before the first NUL.  [None] when the sixteen bytes hold no
    NUL, in which case the C code reads past the array. *)
Fixpoint cstring_of (buf : list ascii) : option string :=
  match buf with
  | [] => None
  | c :: rest =>
      if decide (c = zero) then Some EmptyString
      else String c <$> cstring_of rest
  end.

(** What is shown for a buffer: its C string, or the sixteen bytes when
    they are not terminated (what follows them in memory is left out). *)
Definition cmd_text (j : job) : string :=
  match cstring_of (cmd j) with
  | Some t => t
  | None => string_of_list_ascii (cmd j)
  end.

(** ** Expressions *)

(** Modelled from the spec: [Shell.h], which declares [expr_t] and
    [Expression], is not among the sources.  The enumerators are taken in
    the order in which [Shell.c] and the data model list them, the five
    redirections last, so that [e->type >= REDIRECTION_I] holds exactly of
    the redirections. *)
Inductive expr_t :=
  | VIDE | SIMPLE | SEQUENCE | SEQUENCE_ET | SEQUENCE_OU | BG | PIPE
  | REDIRECTION_I | REDIRECTION_O | REDIRECTION_A | REDIRECTION_E
  | REDIRECTION_EO.

#[global] Instance expr_t_eq_dec : EqDecision expr_t.
Proof. solve_decision. Defined.

Definition expr_rank (t : expr_t) : Z :=
  match t with
  | VIDE => 0 | SIMPLE => 1 | SEQUENCE => 2 | SEQUENCE_ET => 3
  | SEQUENCE_OU => 4 | BG => 5 | PIPE => 6 | REDIRECTION_I => 7
  | REDIRECTION_O => 8 | REDIRECTION_A => 9 | REDIRECTION_E => 10
  | REDIRECTION_EO => 11
  end.

(** An [Expression*]: [Null] is the null pointer; [arguments] is the
    NULL-terminated array, so that [*e->arguments] is [head arguments]. *)
Inductive Expression :=
  | Null
  | Node (type : expr_t) (gauche droite : Expression) (arguments : list string).

(** ** The operating system *)

Inductive errno_t :=
  | E_OK | ENOENT | EBADF | EMFILE | ESRCH | ECHILD | EINTR | EPERM
  | EAGAIN | EIO | EFAULT | EACCES.

Definition strerror (e : errno_t) : string :=
  match e with
  | E_OK => "Success"
  | ENOENT => "No such file or directory"
  | EBADF => "Bad file descriptor"
  | EMFILE => "Too many open files"
  | ESRCH => "No such process"
  | ECHILD => "No child processes"
  | EINTR => "Interrupted system call"
  | EPERM => "Operation not permitted"
  | EAGAIN => "Resource temporarily unavailable"
  | EIO => "Input/output error"
  | EFAULT => "Bad address"
  | EACCES => "Permission denied"
  end.

(** What a forked child goes on to do. *)
Inductive child_task :=
  | ChildExec (name : option string) (argv : list string)
  | ChildSequence (e : Expression) (notify : Z).

(** Externally visible actions, oldest first. *)
Inductive event :=
  | Stdout (text : string)
  | Stderr (text : string)
  | Kill (target sig : Z)
  | Fork (ret : Z) (task : child_task)
  | Setpgid (p g : Z)
  | Tcsetpgrp (fd g : Z)
  | Chdir (dir : string).

(** Answers of the rest of the system, by the number of system calls made
    before.  [k_fault n] makes call [n] fail for an outside reason;
    [k_pid] is the id of the process that is followed;
    [k_fork n] is what [fork] returns in the process that is followed (zero
    in a child); [k_waitpid n p o] is the return value of [waitpid (p, &w,
    o)] and the wait status it stores. *)
Record kernel := mk_kernel {
  k_pid : Z;
  k_fault : nat -> option errno_t;
  k_fork : nat -> Z;
  k_waitpid : nat -> Z -> Z -> Z * Z
}.

Inductive handler_t := SIG_DFL | SIG_HANDLER.

(** The globals of [Evaluation.c], then the system state the process
    sees: descriptor table (descriptor to open file description), the next
    unused description, the descriptor limit, the existing files. *)
Record shell := mk_shell {
  shpid : Z;
  init_flag : Z;
  interactive : Z;
  job_list : list job;
  last_job : option nat;
  fg_job : option nat;
  laststatus : Z;
  handlers : gmap Z handler_t;
  fdt : gmap Z nat;
  next_desc : nat;
  fd_limit : nat;
  files : list string;
  clock : nat;
  errno : errno_t;
  trace : list event;
  kern : kernel
}.

Definition set_shpid (v : Z) (s : shell) : shell :=
  mk_shell v (init_flag s) (interactive s) (job_list s) (last_job s) (fg_job s)
    (laststatus s) (handlers s) (fdt s) (next_desc s) (fd_limit s) (files s)
    (clock s) (errno s) (trace s) (kern s).
Definition set_init_flag (v : Z) (s : shell) : shell :=
  mk_shell (shpid s) v (interactive s) (job_list s) (last_job s) (fg_job s)
    (laststatus s) (handlers s) (fdt s) (next_desc s) (fd_limit s) (files s)
    (clock s) (errno s) (trace s) (kern s).
Definition set_interactive (v : Z) (s : shell) : shell :=
  mk_shell (shpid s) (init_flag s) v (job_list s) (last_job s) (fg_job s)
    (laststatus s) (handlers s) (fdt s) (next_desc s) (fd_limit s) (files s)
    (clock s) (errno s) (trace s) (kern s).
Definition set_job_list (v : list job) (s : shell) : shell :=
  mk_shell (shpid s) (init_flag s) (interactive s) v (last_job s) (fg_job s)
    (laststatus s) (handlers s) (fdt s) (next_desc s) (fd_limit s) (files s)
    (clock s) (errno s) (trace s) (kern s).
Definition set_last_job (v : option nat) (s : shell) : shell :=
  mk_shell (shpid s) (init_flag s) (interactive s) (job_list s) v (fg_job s)
    (laststatus s) (handlers s) (fdt s) (next_desc s) (fd_limit s) (files s)
    (clock s) (errno s) (trace s) (kern s).
Definition set_fg_job (v : option nat) (s : shell) : shell :=
  mk_shell (shpid s) (init_flag s) (interactive s) (job_list s) (last_job s) v
    (laststatus s) (handlers s) (fdt s) (next_desc s) (fd_limit s) (files s)
    (clock s) (errno s) (trace s) (kern s).
Definition set_laststatus (v : Z) (s : shell) : shell :=
  mk_shell (shpid s) (init_flag s) (interactive s) (job_list s) (last_job s)
    (fg_job s) v (handlers s) (fdt s) (next_desc s) (fd_limit s) (files s)
    (clock s) (errno s) (trace s) (kern s).
Definition set_handlers (v : gmap Z handler_t) (s : shell) : shell :=
  mk_shell (shpid s) (init_flag s) (interactive s) (job_list s) (last_job s)
    (fg_job s) (laststatus s) v (fdt s) (next_desc s) (fd_limit s) (files s)
    (clock s) (errno s) (trace s) (kern s).
Definition set_fdt (v : gmap Z nat) (s : shell) : shell :=
  mk_shell (shpid s) (init_flag s) (interactive s) (job_list s) (last_job s)
    (fg_job s) (laststatus s) (handlers s) v (next_desc s) (fd_limit s) (files s)
    (clock s) (errno s) (trace s) (kern s).
Definition set_next_desc (v : nat) (s : shell) : shell :=
  mk_shell (shpid s) (init_flag s) (interactive s) (job_list s) (last_job s)
    (fg_job s) (laststatus s) (handlers s) (fdt s) v (fd_limit s) (files s)
    (clock s) (errno s) (trace s) (kern s).
Definition set_files (v : list string) (s : shell) : shell :=
  mk_shell (shpid s) (init_flag s) (interactive s) (job_list s) (last_job s)
    (fg_job s) (laststatus s) (handlers s) (fdt s) (next_desc s) (fd_limit s) v
    (clock s) (errno s) (trace s) (kern s).
Definition set_clock (v : nat) (s : shell) : shell :=
  mk_shell (shpid s) (init_flag s) (interactive s) (job_list s) (last_job s)
    (fg_job s) (laststatus s) (handlers s) (fdt s) (next_desc s) (fd_limit s)
    (files s) v (errno s) (trace s) (kern s).
Definition set_errno (v : errno_t) (s : shell) : shell :=
  mk_shell (shpid s) (init_flag s) (interactive s) (job_list s) (last_job s)
    (fg_job s) (laststatus s) (handlers s) (fdt s) (next_desc s) (fd_limit s)
    (files s) (clock s) v (trace s) (kern s).
Definition set_trace (v : list event) (s : shell) : shell :=
  mk_shell (shpid s) (init_flag s) (interactive s) (job_list s) (last_job s)
    (fg_job s) (laststatus s) (handlers s) (fdt s) (next_desc s) (fd_limit s)
    (files s) (clock s) (errno s) v (kern s).

(** ** The monad: state, and the ways a process stops running this code *)

Inductive halt :=
  | HExit (code : Z)                              (* [exit (code)] *)
  | HExec (name : string) (argv : list string)    (* a successful [execvp] *)
  | HCrash.                                       (* null dereference *)

Inductive outcome (A : Type) :=
  | Val (a : A)
  | Stop (h : halt).
Arguments Val {A} a.
Arguments Stop {A} h.

Definition M (A : Type) : Type := shell -> outcome A * shell.

#[global] Instance M_ret : MRet M := fun A a s => (Val a, s).
#[global] Instance M_bind : MBind M := fun A B k m s =>
  match m s with
  | (Val a, s') => k a s'
  | (Stop h, s') => (Stop h, s')
  end.

Definition halt_with {A} (h : halt) : M A := fun s => (Stop h, s).
Definition get : M shell := fun s => (Val s, s).
Definition modify (f : shell -> shell) : M unit := fun s => (Val tt, f s).
Definition emit (e : event) : M unit :=
  modify (fun s => set_trace (trace s ++ [e]) s).
Definition tick : M nat :=
  fun s => (Val (clock s), set_clock (S (clock s)) s).

Definition nl : string := String (ascii_of_nat 10) EmptyString.
Definition tab : string := String (ascii_of_nat 9) EmptyString.

(** [fprintf (stdout, ...)], [fprintf (stderr, ...)] and [perror]. *)
Definition print_out (text : string) : M unit := emit (Stdout text).
Definition print_err (text : string) : M unit := emit (Stderr text).
Definition perror (msg : string) : M unit :=
  s ← get; print_err (msg +:+ ": " +:+ strerror (errno s) +:+ nl).

(** A failing call: [errno] is set and [r] returned. *)
Definition fail {A} (e : errno_t) (r : A) : M A :=
  modify (set_errno e);; mret r.

(** *** Descriptors *)

Definition STDIN_FILENO : Z := 0.
Definition STDOUT_FILENO : Z := 1.
Definition STDERR_FILENO : Z := 2.

Definition O_RDONLY : Z := 0.
Definition O_WRONLY : Z := 1.
Definition O_CREAT : Z := 64.
Definition O_TRUNC : Z := 512.
Definition O_APPEND : Z := 1024.
Definition O_CLOEXEC : Z := 524288.

Definition has_flag (flags f : Z) : bool := negb (Z.land flags f =? 0).

(** The lowest descriptor not in use, below the limit. *)
Definition lowest_free (t : gmap Z nat) (limit : nat) : option Z :=
  List.find (fun fd => bool_decide (t !! fd = None)) (seqZ 0 (Z.of_nat limit)).

Definition sys_dup (oldfd : Z) : M Z :=
  n ← tick; s ← get;
  match k_fault (kern s) n with
  | Some e => fail e (-1)
  | None =>
      match fdt s !! oldfd with
      | None => fail EBADF (-1)
      | Some d =>
          match lowest_free (fdt s) (fd_limit s) with
          | None => fail EMFILE (-1)
          | Some fd => modify (set_fdt (<[fd := d]> (fdt s)));; mret fd
          end
      end
  end.

Definition sys_dup2 (oldfd newfd : Z) : M Z :=
  n ← tick; s ← get;
  match k_fault (kern s) n with
  | Some e => fail e (-1)
  | None =>
      match fdt s !! oldfd with
      | None => fail EBADF (-1)
      | Some d =>
          if (0 <=? newfd) && (newfd <? Z.of_nat (fd_limit s))
          then modify (set_fdt (<[newfd := d]> (fdt s)));; mret newfd
          else fail EBADF (-1)
      end
  end.

(** A [close] that reports an outside error has released the descriptor
    all the same (as Linux does). *)
Definition sys_close (fd : Z) : M Z :=
  n ← tick; s ← get;
  match k_fault (kern s) n with
  | Some e => modify (set_fdt (delete fd (fdt s)));; fail e (-1)
  | None =>
      match fdt s !! fd with
      | None => fail EBADF (-1)
      | Some _ => modify (set_fdt (delete fd (fdt s)));; mret 0
      end
  end.

(** [open]: without [O_CREAT] the file must exist; with it the file is
    created when missing.  The new descriptor refers to a new description. *)
Definition sys_open (path : option string) (flags mode : Z) : M Z :=
  n ← tick; s ← get;
  match k_fault (kern s) n with
  | Some e => fail e (-1)
  | None =>
      match path with
      | None => fail EFAULT (-1)
      | Some p =>
          if has_flag flags O_CREAT || bool_decide (p ∈ files s) then
            match lowest_free (fdt s) (fd_limit s) with
            | None => fail EMFILE (-1)
            | Some fd =>
                modify (fun s =>
                  set_files (if bool_decide (p ∈ files s) then files s
                             else files s ++ [p])
                    (set_next_desc (S (next_desc s))
                       (set_fdt (<[fd := next_desc s]> (fdt s)) s)));;
                mret fd
            end
          else fail ENOENT (-1)
      end
  end.

(** [pipe2]: [None] is the return value -1, [Some (r, w)] the two ends
    stored in [pipefd[0]] and [pipefd[1]]. *)
Definition sys_pipe2 (flags : Z) : M (option (Z * Z)) :=
  n ← tick; s ← get;
  match k_fault (kern s) n with
  | Some e => fail e None
  | None =>
      match lowest_free (fdt s) (fd_limit s) with
      | None => fail EMFILE None
      | Some r =>
          let t := <[r := next_desc s]> (fdt s) in
          match lowest_free t (fd_limit s) with
          | None => fail EMFILE None
          | Some w =>
              modify (fun s => set_next_desc (S (S (next_desc s)))
                                 (set_fdt (<[w := S (next_desc s)]> t) s));;
              mret (Some (r, w))
          end
      end
  end.

(** *** Processes, signals, terminal *)

Definition SIGINT : Z := 2.
Definition SIGKILL : Z := 9.
Definition SIGSEGV : Z := 11.
Definition SIGTERM : Z := 15.
Definition SIGCHLD : Z := 17.
Definition SIGCONT : Z := 18.
Definition SIGTSTP : Z := 20.
Definition SIGTTIN : Z := 21.
Definition SIGTTOU : Z := 22.

Definition WNOHANG : Z := 1.
Definition WUNTRACED : Z := 2.
Definition WCONTINUED : Z := 8.

(** The macros of [<sys/wait.h>]. *)
Definition WEXITSTATUS (w : Z) : Z := Z.shiftr (Z.land w 0xff00) 8.
Definition WTERMSIG (w : Z) : Z := Z.land w 0x7f.
Definition WIFEXITED (w : Z) : bool := WTERMSIG w =? 0.
Definition WIFSTOPPED (w : Z) : bool := Z.land w 0xff =? 0x7f.
Definition WIFSIGNALED (w : Z) : bool :=
  let v := Z.land w 0x7f + 1 in
  let sc := if v <? 128 then v else v - 256 in
  0 <? Z.shiftr sc 1.

(** Whom [kill (target, sig)] addresses. *)
Inductive addressee :=
  | Process (p : Z)
  | OwnGroup
  | Everyone
  | Group (g : Z).

Definition kill_addressee (target : Z) : addressee :=
  if 0 <? target then Process target
  else if target =? 0 then OwnGroup
  else if target =? -1 then Everyone
  else Group (- target).

Definition sys_fork (task : child_task) : M Z :=
  n ← tick; s ← get;
  let p := k_fork (kern s) n in
  emit (Fork p task);;
  if p <? 0 then fail EAGAIN p else mret p.

Definition sys_waitpid (p options : Z) : M (Z * Z) :=
  n ← tick; s ← get;
  let r := k_waitpid (kern s) n p options in
  if r.1 <? 0 then fail ECHILD r else mret r.

(** The calls below are recorded in the trace when they succeed. *)
Definition sys_kill (target sig : Z) : M Z :=
  n ← tick; s ← get;
  match k_fault (kern s) n with
  | Some e => fail e (-1)
  | None => emit (Kill target sig);; mret 0
  end.

Definition sys_setpgid (p g : Z) : M Z :=
  n ← tick; s ← get;
  match k_fault (kern s) n with
  | Some e => fail e (-1)
  | None => emit (Setpgid p g);; mret 0
  end.

Definition sys_tcsetpgrp (fd g : Z) : M Z :=
  n ← tick; s ← get;
  match k_fault (kern s) n with
  | Some e => fail e (-1)
  | None => emit (Tcsetpgrp fd g);; mret 0
  end.

Definition sys_chdir (dir : string) : M Z :=
  n ← tick; s ← get;
  match k_fault (kern s) n with
  | Some e => fail e (-1)
  | None => emit (Chdir dir);; mret 0
  end.

Definition sys_sigaction (sig : Z) (h : handler_t) : M Z :=
  n ← tick; s ← get;
  match k_fault (kern s) n with
  | Some e => fail e (-1)
  | None => modify (set_handlers (<[sig := h]> (handlers s)));; mret 0
  end.

Definition sys_getpid : M Z :=
  s ← get; mret (k_pid (kern s)).

(** [execvp] returns only when it fails. *)
Definition sys_execvp (name : option string) (argv : list string) : M Z :=
  n ← tick; s ← get;
  match k_fault (kern s) n, name with
  | Some e, _ => fail e (-1)
  | None, None => fail EFAULT (-1)
  | None, Some f => halt_with (HExec f argv)
  end.

(** ** Job control: operations *)

(** [job_list[i]], and an assignment through a pointer to slot [i]. *)
Definition job_at (s : shell) (i : nat) : job :=
  default job_zero (job_list s !! i).

Definition update_job (i : nat) (f : job -> job) : M unit :=
  modify (fun s => set_job_list (alter f i (job_list s)) s).

Definition SIGREGISTERED : list Z := [SIGCHLD; SIGINT; SIGTSTP; SIGTTIN; SIGTTOU].

(** [register_signals]: the first [sigaction] that fails ends the loop
    with a message. *)
Fixpoint register_signals_from (sigs : list Z) (h : handler_t) : M unit :=
  match sigs with
  | [] => mret tt
  | sg :: rest =>
      r ← sys_sigaction sg h;
      if negb (r =? 0) then perror "Unable to register signals"
      else register_signals_from rest h
  end.

Definition register_signals (h : handler_t) : M unit :=
  register_signals_from SIGREGISTERED h.

(** First slot [i], [i0 <= i < i0 + n], whose job satisfies [P]. *)
Fixpoint scan_slots (P : job -> bool) (l : list job) (n i0 : nat) : option nat :=
  match n with
  | O => None
  | S n' =>
      if P (default job_zero (l !! i0)) then Some i0
      else scan_slots P l n' (S i0)
  end.

(** The copy loop of [register_job], from index [j] on: [fuel] is
    [CMDBUFSZ - j], [src] what is left of the string at [cmd + j]. *)
Fixpoint copy_cmd (fuel j : nat) (src : string) (buf : list ascii) : list ascii :=
  match fuel with
  | O => buf
  | S fuel' =>
      match src with
      | EmptyString => <[j := zero]> buf
      | String c rest =>
          if decide (c = zero) then <[j := zero]> buf
          else copy_cmd fuel' (S j) rest (<[j := c]> buf)
      end
  end.

Definition store_cmd (name : option string) (buf : list ascii) : list ascii :=
  match name with
  | Some c => copy_cmd CMDBUFSZ 0 c buf
  | None => buf
  end.

(** [register_job]: [None] is the null pointer. *)
Definition register_job (p g bg : Z) (name : option string) : M (option nat) :=
  s ← get;
  match scan_slots (fun j => pid j =? 0) (job_list s) MAXJOBS 0 with
  | Some i =>
      update_job i (fun j =>
        set_cmd (store_cmd name (cmd j))
          (set_state JRUNNING
             (set_background bg
                (set_pgid g (set_pid p (set_jid (Z.of_nat i) j))))));;
      mret (Some i)
  | None => mret None
  end.

Definition unregister_job (i : nat) : M unit :=
  update_job i (fun j =>
    set_termsig 0 (set_status 0 (set_jid 0 (set_pid 0 j)))).

Definition find_job (p : Z) : M (option nat) :=
  s ← get; mret (scan_slots (fun j => pid j =? p) (job_list s) MAXJOBS 0).

Definition display_job (i : nat) : M unit :=
  s ← get;
  let j := job_at s i in
  let strstate :=
    match state j with
    | JDONE => "Done"
    | JSTOPPED => "Suspended"
    | JRUNNING => "Running"
    end in
  print_out ("[" +:+ fmt_d (jid j) +:+ "]+ " +:+ strstate +:+ tab
             +:+ cmd_text j +:+ tab +:+ "PID: " +:+ fmt_d (pid j));;
  match state j with
  | JDONE =>
      if negb (termsig j =? 0)
      then print_out (tab +:+ "Terminated with signal " +:+ fmt_d (termsig j) +:+ nl)
      else print_out (tab +:+ "Exit " +:+ fmt_d (status j) +:+ nl)
  | _ => print_out nl
  end.

(** [body] for the slots [i0], ..., [i0 + n - 1] in turn. *)
Fixpoint for_slots (n i0 : nat) (body : nat -> M unit) : M unit :=
  match n with
  | O => mret tt
  | S n' => body i0;; for_slots n' (S i0) body
  end.

Definition remove_old_jobs (notify : Z) : M unit :=
  for_slots MAXJOBS 0 (fun i =>
    s ← get;
    let j := job_at s i in
    if negb (pid j =? 0) && bool_decide (state j = JDONE) then
      (if negb (notify =? 0) && (background j =? JBG)
       then display_job i else mret tt);;
      unregister_job i
    else mret tt).

Definition suspend_job (i : nat) : M unit :=
  s ← get;
  r ← sys_kill (pid (job_at s i)) SIGTSTP;
  (if r <? 0 then perror "Unable to send TSTP" else mret tt);;
  update_job i (set_state JSTOPPED);;
  update_job i (set_background JBG);;
  modify (set_last_job (Some i)).

Definition set_status_job (i : nat) (wstatus : Z) : M unit :=
  if WIFEXITED wstatus then
    update_job i (set_status (WEXITSTATUS wstatus));;
    update_job i (set_state JDONE)
  else if WIFSTOPPED wstatus then
    update_job i (set_status 0);;
    update_job i (set_state JSTOPPED)
  else if WIFSIGNALED wstatus then
    update_job i (set_state JDONE);;
    update_job i (set_termsig (WTERMSIG wstatus))
  else mret tt.

(** The [SIGCONT] sent by both [send_to_foreground] and
    [send_to_background] to a job in state [JSTOPPED]. *)
Definition continue_if_stopped (i : nat) : M unit :=
  s ← get;
  let j := job_at s i in
  if bool_decide (state j = JSTOPPED) then
    r ← sys_kill (pid j) SIGCONT;
    if r <? 0 then
      s' ← get;
      print_err ("Unable to send continue to job " +:+ fmt_d (jid j) +:+ ": "
                 +:+ strerror (errno s') +:+ nl)
    else mret tt
  else mret tt.

Definition send_to_foreground (i : nat) : M unit :=
  register_signals SIG_DFL;;
  s ← get;
  (if negb (interactive s =? 0)
   then sys_tcsetpgrp 0 (pid (job_at s i));; mret tt else mret tt);;
  modify (set_fg_job (Some i));;
  continue_if_stopped i;;
  s ← get;
  r ← sys_waitpid (pid (job_at s i)) WUNTRACED;
  (if r.1 <? 0 then perror "Wait foregroud job"
   else if 0 <? r.1 then update_job i (set_status r.2) else mret tt);;
  s ← get;
  set_status_job i (status (job_at s i));;
  register_signals SIG_HANDLER;;
  s ← get;
  (if negb (interactive s =? 0)
   then sys_tcsetpgrp 0 (shpid s);; mret tt else mret tt).

Definition send_to_background (i : nat) : M unit :=
  continue_if_stopped i;;
  update_job i (set_state JRUNNING);;
  modify (set_last_job (Some i)).

Definition launch_job (i : nat) (notify : Z) : M unit :=
  update_job i (set_state JSTOPPED);;
  s ← get;
  sys_setpgid (pid (job_at s i)) (pid (job_at s i));;
  s ← get;
  if background (job_at s i) =? JFG then send_to_foreground i
  else
    send_to_background i;;
    if negb (notify =? 0) then
      s ← get;
      print_out ("[" +:+ fmt_d (jid (job_at s i)) +:+ "] "
                 +:+ fmt_d (pid (job_at s i)) +:+ nl)
    else mret tt.

(** ** Signal handling *)

Definition ESRCH_seen (s : shell) : bool :=
  match errno s with ESRCH => true | _ => false end.

Definition grim_reaper : M unit :=
  for_slots MAXJOBS 0 (fun i =>
    s ← get;
    let j := job_at s i in
    if 0 <? pid j then
      r ← sys_waitpid (pid j) (Z.lor (Z.lor WUNTRACED WCONTINUED) WNOHANG);
      if 0 <? r.1 then set_status_job i r.2
      else
        k ← sys_kill (pid j) 0;
        s' ← get;
        if (k =? -1) && ESRCH_seen s' then unregister_job i else mret tt
    else mret tt).

Definition sig_handler (signo : Z) : M unit :=
  s ← get;
  if signo =? SIGCHLD then grim_reaper
  else if signo =? SIGINT then
    match fg_job s with
    | None => mret tt
    | Some i =>
        r ← sys_kill (pid (job_at s i)) SIGINT;
        if r <? 0 then perror "Unable to send SIGINT to foreground process"
        else mret tt
    end
  else if signo =? SIGTSTP then
    match fg_job s with
    | Some i => suspend_job i
    | None => mret tt
    end
  else if (signo =? SIGTTIN) || (signo =? SIGTTOU) then
    sys_tcsetpgrp 0 (shpid s);; mret tt
  else mret tt.

(** ** Pipelines and redirections *)

Definition O_OUT : Z := Z.lor (Z.lor (Z.lor O_WRONLY O_CREAT) O_CLOEXEC) O_TRUNC.
Definition O_IN : Z := Z.lor O_RDONLY O_CLOEXEC.
Definition S_MODE : Z := 438.

(** The label [err] of [lay_pipeline]. *)
Definition pipeline_err : M Z :=
  perror "Unable to set pipe";; mret (-1).

(** [lay_pipeline]; [eval_gauche] and [eval_droite] stand for
    [expression_handler (e->gauche, ., .)] and
    [expression_handler (e->droite, ., .)]. *)
Definition lay_pipeline (eval_gauche eval_droite : Z -> Z -> M Z)
    (options : Z) : M Z :=
  pp ← sys_pipe2 O_CLOEXEC;
  match pp with
  | None => pipeline_err
  | Some (p0, p1) =>
      out ← sys_dup STDOUT_FILENO;
      in_ ← sys_dup STDIN_FILENO;
      if (out =? -1) || (in_ =? -1) then pipeline_err else
      r ← sys_dup2 p0 STDIN_FILENO;
      if r =? -1 then pipeline_err else
      r ← sys_close p0;
      if r =? -1 then pipeline_err else
      _ ← eval_droite JBG 0;
      r ← sys_dup2 in_ STDIN_FILENO;
      if r =? -1 then pipeline_err else
      r ← sys_dup2 p1 STDOUT_FILENO;
      if r =? -1 then pipeline_err else
      r ← sys_close p1;
      if r =? -1 then pipeline_err else
      wstatus ← eval_gauche options 0;
      r ← sys_dup2 out STDOUT_FILENO;
      if r =? -1 then pipeline_err else
      r ← sys_close out;
      if r <? 0 then pipeline_err else
      r ← sys_close in_;
      if r <? 0 then pipeline_err else
      mret wstatus
  end.

(** The labels [err], [err2], [err3], [err4] of [lay_redirection]; a null
    file name is printed the way the C library prints it. *)
Definition redirection_err (name : option string) : M Z :=
  s ← get;
  print_err (default "(null)" name +:+ ": " +:+ strerror (errno s) +:+ nl);;
  mret (-1).

Definition redirection_err2 (fd : Z) (name : option string) : M Z :=
  sys_close fd;; redirection_err name.

Definition redirection_err3 (in_ fd : Z) (name : option string) : M Z :=
  sys_close in_;; redirection_err2 fd name.

Definition redirection_err4 (out in_ fd : Z) (name : option string) : M Z :=
  sys_close out;; redirection_err3 in_ fd name.

Definition redirection_flags (type : expr_t) : Z :=
  let flags := O_OUT in
  let flags :=
    if decide (type = REDIRECTION_A)
    then Z.lor (Z.land flags (Z.lnot O_TRUNC)) O_APPEND else flags in
  if decide (type = REDIRECTION_I) then O_IN else flags.

(** The [switch] that installs the redirection: [false] is [goto err2]. *)
Definition redirection_install (type : expr_t) (fd : Z) : M bool :=
  match type with
  | REDIRECTION_I =>
      r ← sys_dup2 fd STDIN_FILENO; mret (negb (r =? -1))
  | REDIRECTION_E =>
      r ← sys_dup2 fd STDERR_FILENO; mret (negb (r =? -1))
  | REDIRECTION_EO =>
      r ← sys_dup2 fd STDERR_FILENO;
      if r =? -1 then mret false else
      r ← sys_dup2 fd STDOUT_FILENO; mret (negb (r =? -1))
  | REDIRECTION_A | REDIRECTION_O =>
      r ← sys_dup2 fd STDOUT_FILENO; mret (negb (r =? -1))
  | _ => mret true
  end.

(** [lay_redirection]; [name] is [*e->arguments], [eval_gauche] stands for
    [expression_handler (e->gauche, ., .)]. *)
Definition lay_redirection (type : expr_t) (name : option string)
    (eval_gauche : Z -> Z -> M Z) (options : Z) : M Z :=
  out ← sys_dup STDOUT_FILENO;
  in_ ← sys_dup STDIN_FILENO;
  err ← sys_dup STDERR_FILENO;
  if (out =? -1) || (in_ =? -1) || (err =? -1) then redirection_err name else
  fd ← sys_open name (redirection_flags type) S_MODE;
  if fd =? -1 then redirection_err name else
  ok ← redirection_install type fd;
  if negb ok then redirection_err2 fd name else
  wstatus ← eval_gauche options 0;
  r ← sys_dup2 in_ STDIN_FILENO;
  if r =? -1 then redirection_err2 fd name else
  r ← sys_close in_;
  if r =? -1 then redirection_err2 fd name else
  r ← sys_dup2 out STDOUT_FILENO;
  if r =? -1 then redirection_err3 in_ fd name else
  r ← sys_close out;
  if r =? -1 then redirection_err3 in_ fd name else
  r ← sys_dup2 err STDERR_FILENO;
  if r =? -1 then redirection_err4 out in_ fd name else
  r ← sys_close err;
  if r =? -1 then redirection_err4 out in_ fd name else
  r ← sys_close fd;
  if r =? -1 then redirection_err name else
  mret wstatus.

(** ** Command handling *)

Definition job_table_full : M Z :=
  print_err ("Unable to register a new job, terminate some jobs first (max: "
             +:+ fmt_d (Z.of_nat MAXJOBS) +:+ ")" +:+ nl);;
  mret (INTERNSTATUS + 1).

(** The part of [start_sequence] after the background branch. *)
Definition sequence_foreground (type : expr_t)
    (eval_gauche eval_droite : Z -> Z -> M Z) (options : Z) : M Z :=
  wstatus ← eval_gauche options 0;
  let wstatus := STATUS wstatus in
  wstatus ←
    match type with
    | SEQUENCE_ET =>
        if negb (wstatus =? 0) then mret wstatus else eval_droite options 0
    | SEQUENCE_OU =>
        if wstatus =? 0 then mret wstatus else eval_droite options 0
    | SEQUENCE => eval_droite options 0
    | _ => mret wstatus
    end;
  mret (STATUS wstatus).

(** [start_sequence] for the node [e] of type [type].  The child of the
    background branch calls [start_sequence (e, JFG, notify)], which is the
    foreground part. *)
Definition start_sequence (e : Expression) (type : expr_t)
    (eval_gauche eval_droite : Z -> Z -> M Z) (options notify : Z) : M Z :=
  if options =? JBG then
    p ← sys_fork (ChildSequence e notify);
    (if p <? 0 then perror "Unable to fork" else mret tt);;
    if p =? 0 then
      register_signals SIG_DFL;;
      r ← sys_setpgid 0 0;
      (if r <? 0 then perror "Unable to get pgid" else mret tt);;
      wstatus ← sequence_foreground type eval_gauche eval_droite JFG;
      halt_with (HExit (STATUS wstatus))
    else
      j ← register_job p p JBG (Some "Sequence"%string);
      match j with
      | None => job_table_full
      | Some i => launch_job i notify;; mret INTERNSTATUS
      end
  else sequence_foreground type eval_gauche eval_droite options.

(** The end shared by both halves of [cmd_jobctrl], once [tmp] is chosen. *)
Definition resume_job (tmp : nat) (bg : Z) : M Z :=
  s ← get;
  let j := job_at s tmp in
  if (bg =? JBG) && bool_decide (state j = JRUNNING) then
    print_err (cmd_text j +:+ ": job already in background" +:+ nl);;
    mret 1
  else
    print_out ("[" +:+ fmt_d (jid j) +:+ "]+ Resumed" +:+ tab
               +:+ cmd_text j +:+ nl);;
    (if bg =? JBG then send_to_background tmp else send_to_foreground tmp);;
    mret 0.

Definition occupied_not_done (j : job) : bool :=
  negb (pid j =? 0) && negb (bool_decide (state j = JDONE)).

(** [!last_job || last_job->state == JDONE]. *)
Definition last_job_unusable (s : shell) : bool :=
  match last_job s with
  | None => true
  | Some i => bool_decide (state (job_at s i) = JDONE)
  end.

(** The loop looking for a more recent job, from slot [i0] on. *)
Fixpoint most_recent (l : list job) (n i0 tmp : nat) : nat :=
  match n with
  | O => tmp
  | S n' =>
      let j := default job_zero (l !! i0) in
      let t := default job_zero (l !! tmp) in
      most_recent l n' (S i0)
        (if occupied_not_done j && (pid t <=? pid j) then i0 else tmp)
  end.

Definition bg_or_fg (bg : Z) : string := if bg =? 0 then "fg" else "bg".

(** [tmp = last_job] followed by the loop over the table. *)
Definition pick_most_recent : M (option nat) :=
  s ← get;
  match last_job s with
  | None => halt_with HCrash
  | Some l => mret (Some (most_recent (job_list s) MAXJOBS 0 l))
  end.

(** The choice of [tmp] when no name is given; [None] is the return after
    the message "no job to resume". *)
Definition default_target (bg : Z) : M (option nat) :=
  s ← get;
  if last_job_unusable s then
    match scan_slots occupied_not_done (job_list s) MAXJOBS 0 with
    | Some i => modify (set_last_job (Some i))
    | None => mret tt
    end;;
    s' ← get;
    if last_job_unusable s' then
      print_err (bg_or_fg bg +:+ ": no job to resume" +:+ nl);;
      mret None
    else pick_most_recent
  else pick_most_recent.

Definition cmd_jobctrl (job_cmd : option string) (bg : Z) : M Z :=
  match job_cmd with
  | Some name =>
      s ← get;
      match scan_slots
              (fun j => String.eqb (cmd_text j) name && negb (pid j =? 0))
              (job_list s) MAXJOBS 0 with
      | Some i => resume_job i bg
      | None =>
          print_err ((if bg =? JBG then "bg" else "fg") +:+ ": job not found: "
                     +:+ name +:+ nl);;
          mret 1
      end
  | None =>
      t ← default_target bg;
      match t with
      | None => mret 1
      | Some tmp => resume_job tmp bg
      end
  end.

(** ** Built-in commands *)

Definition internal_help : list string :=
  [ "cd [dir]"; "echo [$? | arg ...]"; "exit";
    "hash [text]" +:+ tab +:+ " /!\ Only adds each ASCII character!";
    "fg [name]"; "bg [name]"; "help" ]%string.

Definition dipslay_help : M unit :=
  print_out ("MiniShell - ProgSys 2020-21" +:+ nl
             +:+ "Pierre Boisselier <pierre.boisselier@etu.u-bordeaux.fr>"
             +:+ nl +:+ nl
             +:+ "Those shell commands are defined internally." +:+ nl +:+ nl);;
  (fix lines (l : list string) : M unit :=
     match l with
     | [] => mret tt
     | str :: rest => print_out (tab +:+ str +:+ nl);; lines rest
     end) internal_help;;
  print_out nl;;
  print_out ("Keyboard shortcuts:" +:+ nl +:+ tab
             +:+ "- Ctrl-Z: Suspend current job in foreground" +:+ nl +:+ tab
             +:+ "- Ctrl-C: Interrupt current foreground job" +:+ nl +:+ nl).

(** [EndOfFile] of [Shell.c]. *)
Definition EndOfFile : M unit := halt_with (HExit 0).

(** The [while ((arg = *++argv))] loop of [echo], over the arguments that
    are left. *)
Fixpoint echo_args (args : list string) : M unit :=
  match args with
  | [] => mret tt
  | arg :: rest =>
      print_out arg;;
      (match rest with [] => mret tt | _ :: _ => print_out " " end);;
      echo_args rest
  end.

Definition string_tail (t : string) : string :=
  match t with
  | EmptyString => EmptyString
  | String _ r => r
  end.

(** [internal_cmd]: [argv !! k] is [argv[k]], [None] the null pointer that
    ends the array. *)
Definition internal_cmd (name : string) (argv : list string) : M Z :=
  let h := hash_cmd name in
  if h =? EXIT then EndOfFile;; mret 0
  else if h =? ECHO then
    match argv !! 1%nat with
    | None => mret 0
    | Some a1 =>
        s ← get;
        (if hash_cmd a1 =? ECHO_STATUS then
           print_out (fmt_d (laststatus s) +:+ " ");;
           echo_args (drop 2 argv)
         else echo_args (drop 1 argv));;
        print_out nl;;
        mret 0
    end
  else if h =? CD then
    match argv !! 1%nat with
    | None => mret 0
    | Some dir =>
        r ← sys_chdir dir;
        if r =? 0 then mret 0
        else
          s ← get;
          print_err ("Unable to change directory: " +:+ strerror (errno s)
                     +:+ " (" +:+ string_tail (default EmptyString (argv !! 0%nat))
                     +:+ ")" +:+ nl);;
          mret 1
    end
  else if h =? HELP then dipslay_help;; mret 0
  else if h =? HASH then
    match argv !! 1%nat with
    | None => print_err ("hash: no argument to hash" +:+ nl);; mret 1
    | Some a1 => print_out (fmt_x (hash_cmd a1) +:+ nl);; mret 0
    end
  else if h =? JOBS then
    for_slots MAXJOBS 0 (fun i =>
      s ← get;
      if negb (pid (job_at s i) =? 0) then display_job i else mret tt);;
    mret 0
  else if h =? CFG then cmd_jobctrl (argv !! 1%nat) JFG
  else if h =? CBG then cmd_jobctrl (argv !! 1%nat) JBG
  else mret (-1).

(** ** The command launcher *)

Definition start_cmd (name : string) (argv : list string)
    (options notify : Z) : M Z :=
  wstatus ← internal_cmd name argv;
  if negb (wstatus =? -1) then mret wstatus else
  p ← sys_fork (ChildExec (Some name) argv);
  if p =? 0 then
    register_signals SIG_DFL;;
    r ← sys_setpgid 0 0;
    (if r <? 0 then perror "Unable to get its own group" else mret tt);;
    sys_execvp (Some name) argv;;
    print_err (name +:+ ": command not found" +:+ nl);;
    halt_with (HExit 1)
  else
    j ← register_job p p options (Some name);
    match j with
    | None => job_table_full
    | Some i =>
        launch_job i notify;;
        if options =? JFG then s ← get; mret (status (job_at s i))
        else mret INTERNSTATUS
    end.

(** ** Expression handling *)

Fixpoint expression_handler (e : Expression) (options notify : Z) : M Z :=
  match e with
  | Null => halt_with HCrash
  | Node type gauche droite arguments =>
      if expr_rank REDIRECTION_I <=? expr_rank type then
        lay_redirection type (head arguments) (expression_handler gauche) options
      else
        match type with
        | VIDE => mret INTERNSTATUS
        | SEQUENCE | SEQUENCE_ET | SEQUENCE_OU =>
            start_sequence e type (expression_handler gauche)
              (expression_handler droite) options notify
        | PIPE =>
            lay_pipeline (expression_handler gauche)
              (expression_handler droite) options
        | BG => expression_handler gauche JBG notify
        | SIMPLE =>
            match head arguments with
            | None => halt_with HCrash
            | Some name => start_cmd name arguments options notify
            end
        | _ =>
            print_err ("Unexpected error." +:+ nl);;
            mret (INTERNSTATUS + 1)
        end
  end.

(** ** Initialisation and entry point *)

Definition init_shell : M Z :=
  register_signals SIG_HANDLER;;
  modify (set_job_list (replicate MAXJOBS job_zero));;
  p ← sys_getpid;
  modify (set_shpid p);;
  r ← sys_setpgid p p;
  if r <? 0 then mret 0 else
  r ← sys_tcsetpgrp 0 p;
  (if r <? 0 then modify (set_interactive 0) else mret tt);;
  modify (set_init_flag 1);;
  mret 0.

(** [evaluer_expr].  [init_shell] never returns a negative value, so the
    [longjmp] is never taken. *)
Definition evaluer_expr (e : Expression) : M Z :=
  s ← get;
  (if init_flag s =? 0 then init_shell;; mret tt else mret tt);;
  s ← get;
  wstatus ← expression_handler e JFG (interactive s);
  grim_reaper;;
  let wstatus := STATUS wstatus in
  s ← get;
  let wstatus :=
    match fg_job s with
    | Some i =>
        if negb (status (job_at s i) =? 0) then status (job_at s i) else wstatus
    | None => wstatus
    end in
  modify (set_laststatus wstatus);;
  match fg_job s with
  | Some i =>
      if negb (interactive s =? 0) then
        let j := job_at s i in
        if termsig j =? SIGSEGV
        then print_err (cmd_text j +:+ ": Segmentation fault." +:+ nl)
        else if (termsig j =? SIGKILL) || (termsig j =? SIGTERM)
        then print_err (cmd_text j +:+ ": Terminated." +:+ nl)
        else mret tt
      else mret tt
  | None => mret tt
  end;;
  s ← get;
  remove_old_jobs (interactive s);;
  modify (set_fg_job None);;
  mret wstatus.

(** ** Argument lists ([Shell.c]) *)

(** A [char**] argument list is the array of its cells, [None] being the
    null pointer.  Modelled from the spec: [NB_ARGS] is declared in
    [Shell.h], which is not among the sources; it is a parameter here. *)
Definition arg_list : Type := list (option string).

(** [LongueurListe]: [None] when the scan leaves the array without having
    met a null pointer. *)
Fixpoint LongueurListe (l : arg_list) : option nat :=
  match l with
  | [] => None
  | None :: _ => Some 0%nat
  | Some _ :: rest => S <$> LongueurListe rest
  end.

Definition InitialiserListeArguments (NB_ARGS : nat) : arg_list :=
  replicate (NB_ARGS + 1) None.

(** What [strcpy] copies: the bytes before the first NUL. *)
Fixpoint c_string (t : string) : string :=
  match t with
  | EmptyString => EmptyString
  | String c rest =>
      if decide (c = zero) then EmptyString else String c (c_string rest)
  end.

(** [AjouterArg]: [None] when a cell outside the array is read or
    written. *)
Definition AjouterArg (Liste : arg_list) (Arg : string) : option arg_list :=
  match LongueurListe Liste with
  | None => None
  | Some n =>
      if decide (S n < length Liste)%nat
      then Some (<[S n := None]> (<[n := Some (c_string Arg)]> Liste))
      else None
  end.

(** The calls of [AjouterArg] made for the words of a command, in order. *)
Fixpoint AjouterArgs (Liste : arg_list) (args : list string) : option arg_list :=
  match args with
  | [] => Some Liste
  | a :: rest =>
      match AjouterArg Liste a with
      | None => None
      | Some l => AjouterArgs l rest
      end
  end.

(** The arguments an array holds: the cells before the first null pointer,
    as [Expression]'s [arguments] has them. *)
Fixpoint arguments_of (l : arg_list) : list string :=
  match l with
  | Some a :: rest => a :: arguments_of rest
  | _ => []
  end.

(** ** Notions used in the statements, concrete kernels and states *)

(** A kernel in which nothing fails, [fork] returns [p] to the parent and
    every [waitpid] without [WNOHANG] reports the wait status [w] for the
    awaited child; a [waitpid] with [WNOHANG] reports no change. *)
Definition simple_kernel (p w : Z) : kernel :=
  mk_kernel 1000 (fun _ => None) (fun _ => p)
    (fun _ q o => if has_flag o WNOHANG then (0, 0) else (q, w)).

(** The shell after [init_shell], not interactive, with the three standard
    descriptors open on three descriptions. *)
Definition shell_init (k : kernel) : shell :=
  mk_shell 1000 1 0 (replicate MAXJOBS job_zero) (Some 0%nat) None 0
    ∅ (<[0 := 0%nat]> (<[1 := 1%nat]> (<[2 := 2%nat]> ∅))) 3 1024 [] 0 E_OK [] k.

(** A shell whose thirty-two slots hold running background jobs. *)
Definition shell_full (k : kernel) : shell :=
  set_job_list
    (map (fun i => mk_job (Z.of_nat i) (100 + Z.of_nat i) (100 + Z.of_nat i)
                     JBG JRUNNING 0 0 (replicate CMDBUFSZ zero))
         (seq 0 MAXJOBS))
    (shell_init k).

(** A job named "sleep" with process and group id [p]. *)
Definition job_sleep (p bg : Z) (st : state_t) : job :=
  mk_job 0 p p bg st 0 0
    (list_ascii_of_string "sleep" ++ replicate (CMDBUFSZ - 5) zero).

(** A shell whose slot 0 holds a running job that is the foreground job. *)
Definition shell_foreground (k : kernel) : shell :=
  set_fg_job (Some 0%nat)
    (set_job_list (<[0%nat := job_sleep 4242 JFG JRUNNING]> (replicate MAXJOBS job_zero))
       (shell_init k)).

(** P3 on the job table of a state: every stopped slot is a background
    slot. *)
Definition stopped_in_bg (j : job) : bool :=
  implb (bool_decide (state j = JSTOPPED)) (background j =? JBG).

Definition stopped_is_bg (s : shell) : Prop :=
  forallb stopped_in_bg (job_list s) = true.

(** The wait status of a child stopped by [SIGTSTP]. *)
Definition W_STOPPED_TSTP : Z := 0x147f.

(** A background child that ends at once.  The first [waitpid] (made by
    the reaper) reports its exit with status 0; after that the process is
    gone: [setpgid] and [kill] on it fail with [ESRCH] and [waitpid] finds no
    child. *)
Definition race_kernel : kernel :=
  mk_kernel 1000
    (fun n => if bool_decide (n ∈ [1; 2; 4]%nat) then Some ESRCH else None)
    (fun _ => 4242)
    (fun n _ _ => if bool_decide (n = 0%nat) then (4242, 0) else (-1, 0)).

(** The state reached when [true &] is launched and the child's [SIGCHLD]
    is handled between [register_job] and [launch_job]: the handler marks the
    job [JDONE], [launch_job] then marks it [JRUNNING] and makes it
    [last_job], and the reaper at the end of the evaluation, finding the
    process gone, frees the slot without touching its state. *)
Definition shell_stale : shell :=
  let s := shell_init race_kernel in
  let s := (register_job 4242 4242 JBG (Some "true"%string) s).2 in
  let s := (sig_handler SIGCHLD s).2 in
  let s := (launch_job 0 0 s).2 in
  let s := (grim_reaper s).2 in
  (remove_old_jobs 0 s).2.

(** No slot of the table is occupied and not done. *)
Definition no_live_job (s : shell) : Prop :=
  forall k : nat, (k < MAXJOBS)%nat -> occupied_not_done (job_at s k) = false.

(** [last_job] is null, or done, or an occupied slot. *)
Definition last_job_sound (s : shell) : Prop :=
  match last_job s with
  | None => True
  | Some l =>
      state (job_at s l) = JDONE \/ occupied_not_done (job_at s l) = true
  end.

(** A kernel for a foreground child that exits with status [code]: the
    blocking [waitpid] reports the exit; afterwards the child is gone, so
    the reaper's [waitpid] finds no child and its probe [kill (pid, 0)],
    the sixteenth system call of the evaluation, fails with [ESRCH]. *)
Definition exit_kernel (p code : Z) : kernel :=
  mk_kernel 1000
    (fun n => if bool_decide (n = 15%nat) then Some ESRCH else None)
    (fun _ => p)
    (fun _ q o => if has_flag o WNOHANG then (-1, 0) else (q, code * 256)).

Definition cmd_false : Expression := Node SIMPLE Null Null ["false"%string].
Definition cmd_echo_x : Expression := Node SIMPLE Null Null ["echo"; "x"]%string.

(** The gating rule in the words of the specification: whether the right
    side of a sequence node runs, given the canonicalized status of the
    left side. *)
Definition right_runs (type : expr_t) (left_status : Z) : bool :=
  match type with
  | SEQUENCE => true
  | SEQUENCE_ET => left_status =? 0
  | SEQUENCE_OU => negb (left_status =? 0)
  | _ => false
  end.

Definition is_sequence (type : expr_t) : bool :=
  match type with
  | SEQUENCE | SEQUENCE_ET | SEQUENCE_OU => true
  | _ => false
  end.

(** A sequence as the specification describes it: evaluate the left side,
    canonicalize its status, and evaluate the right side exactly when the
    gating rule says so; the result is canonicalized (once more, for the
    status of the left side, when the right side does not run). *)
Definition gated_sequence (type : expr_t)
    (eval_gauche eval_droite : Z -> Z -> M Z) (options : Z) : M Z :=
  left ← eval_gauche options 0;
  if right_runs type (STATUS left)
  then right ← eval_droite options 0; mret (STATUS right)
  else mret (STATUS (STATUS left)).

(** [cat < missing], [ls &> log] and [ls | wc]. *)
Definition cat_from_missing : Expression :=
  Node REDIRECTION_I (Node SIMPLE Null Null ["cat"%string]) Null ["missing"%string].
Definition ls_into_log : Expression :=
  Node REDIRECTION_EO (Node SIMPLE Null Null ["ls"%string]) Null ["log"%string].
Definition ls_pipe_wc : Expression :=
  Node PIPE (Node SIMPLE Null Null ["ls"%string])
    (Node SIMPLE Null Null ["wc"%string]) [].

(** A kernel in which the sixth system call is interrupted. *)
Definition interrupt_kernel : kernel :=
  mk_kernel 1000
    (fun n => if bool_decide (n = 5%nat) then Some EINTR else None)
    (fun _ => 4242) (fun _ q _ => (q, 0)).

(** A command name is external when its hash is none of the eight
    constants of the built-ins. *)
Definition builtin_hash (h : Z) : bool :=
  existsb (Z.eqb h) [EXIT; ECHO; CD; HELP; HASH; JOBS; CFG; CBG].

Definition external_name (name : string) : Prop :=
  builtin_hash (hash_cmd name) = false.

(** Every slot of the table is occupied. *)
Definition table_full (s : shell) : Prop :=
  length (job_list s) = MAXJOBS
  /\ forallb (fun j => negb (pid j =? 0)) (job_list s) = true.

(** The state after a [fork] that returned [k_fork (kern s) (clock s)]. *)
Definition forked (task : child_task) (s : shell) : shell :=
  let p := k_fork (kern s) (clock s) in
  (if p <? 0 then set_errno EAGAIN else fun x => x)
    (set_trace (trace s ++ [Fork p task]) (set_clock (S (clock s)) s)).

Definition table_full_message : string :=
  "Unable to register a new job, terminate some jobs first (max: 32)" +:+ nl.

(** A byte other than NUL. *)
Definition nonzero (c : ascii) : Prop := c <> zero.

(** An event that is a write on [stdout]. *)
Definition is_stdout (e : event) : Prop := exists t, e = Stdout t.

(** No call fails for an outside reason. *)
Definition quiet (s : shell) : Prop := forall n, k_fault (kern s) n = None.

(** [s'] runs under the same kernel and descriptor limit as [s]. *)
Definition same_world (s s' : shell) : Prop :=
  kern s' = kern s /\ fd_limit s' = fd_limit s.



(** The text written on [stdout] by a list of events. *)
Fixpoint stdout_text (evs : list event) : string :=
  match evs with
  | [] => EmptyString
  | Stdout t :: rest => t +:+ stdout_text rest
  | _ :: rest => stdout_text rest
  end.

(** Words separated by single spaces. *)
Fixpoint unwords (l : list string) : string :=
  match l with
  | [] => EmptyString
  | a :: rest =>
      match rest with
      | [] => a
      | _ :: _ => a +:+ " " +:+ unwords rest
      end
  end.

(** *** Notions used in the further properties *)

(** What [register_job] stores in the slot it takes. *)
Definition registered (i : nat) (p g bg : Z) (name : option string) (j : job) : job :=
  set_cmd (store_cmd name (cmd j))
    (set_state JRUNNING
       (set_background bg (set_pgid g (set_pid p (set_jid (Z.of_nat i) j))))).

(** An occupied slot whose job is done: what [remove_old_jobs] removes. *)
Definition dead (j : job) : bool :=
  negb (pid j =? 0) && bool_decide (state j = JDONE).

(** The fields of a slot after [unregister_job]. *)
Definition unregistered (j : job) : job :=
  set_termsig 0 (set_status 0 (set_jid 0 (set_pid 0 j))).

(** The body of the loop of [remove_old_jobs]. *)
Definition remove_if_done (notify : Z) (i : nat) : M unit :=
  s ← get;
  let j := job_at s i in
  if negb (pid j =? 0) && bool_decide (state j = JDONE) then
    (if negb (notify =? 0) && (background j =? JBG)
     then display_job i else mret tt);;
    unregister_job i
  else mret tt.

(** [m] leaves the observation [f] of the state as it finds it, however
    it ends. *)
Definition keeps {A X : Type} (f : shell -> X) (m : M A) : Prop :=
  forall s, f (m s).2 = f s.

(** No pipeline and no redirection in the expression. *)
Fixpoint plain (e : Expression) : bool :=
  match e with
  | Null => true
  | Node type gauche droite _ =>
      negb (expr_rank PIPE <=? expr_rank type) && plain gauche && plain droite
  end.

(** What identifies a job: the fields that neither [fg] nor [bg] writes. *)
Definition job_identity (j : job) : Z * Z * Z * Z * list ascii :=
  (jid j, pid j, pgid j, background j, cmd j).

(** The fields of a job that no signal handler writes. *)
Definition job_group_name (j : job) : Z * list ascii := (pgid j, cmd j).

(** [m] always returns to its caller: it neither exits, nor is replaced by
    another program, nor crashes. *)
Definition returns {A : Type} (m : M A) : Prop :=
  forall s, exists a, (m s).1 = Val a.

(** What the calls on processes, signals and the terminal leave alone. *)
Definition core (s : shell) :=
  (job_list s, last_job s, fg_job s, fdt s, laststatus s, kern s,
   interactive s, shpid s, init_flag s).

(** The state after a call that succeeded and is recorded as [e]. *)
Definition recorded (e : event) (s : shell) : shell :=
  set_trace (trace s ++ [e]) (set_clock (S (clock s)) s).


(** What [set_status_job] makes of a job, given the wait status. *)
Definition with_wait_status (w : Z) (j : job) : job :=
  if WIFEXITED w then set_state JDONE (set_status (WEXITSTATUS w) j)
  else if WIFSTOPPED w then set_state JSTOPPED (set_status 0 j)
  else if WIFSIGNALED w then set_termsig (WTERMSIG w) (set_state JDONE j)
  else j.

(** [m] only adds to what has been written and sent so far. *)
Definition grows {A : Type} (m : M A) : Prop :=
  forall s, exists evs, trace (m s).2 = trace s ++ evs.


(** The shell of [shell_init] when the limit on open descriptors is three:
    the three standard descriptors fill the table. *)
Definition shell_tight (k : kernel) : shell :=
  mk_shell 1000 1 0 (replicate MAXJOBS job_zero) (Some 0%nat) None 0
    ∅ (<[0 := 0%nat]> (<[1 := 1%nat]> (<[2 := 2%nat]> ∅))) 3 3 [] 0 E_OK [] k.

(** * Properties *)

(** Unfolding of the monad's operations. *)
Ltac munfold :=
  unfold perror, fail, print_out, print_err, emit, tick, halt_with, modify, get,
    mbind, M_bind, mret, M_ret in *.

Lemma bind_val {A B} (m : M A) (k : A -> M B) (s s' : shell) (a : A) :
  m s = (Val a, s') -> (m ≫= k) s = k a s'.
Proof. intros H. unfold mbind, M_bind. now rewrite H. Qed.

Lemma bind_stop {A B} (m : M A) (k : A -> M B) (s s' : shell) (h : halt) :
  m s = (Stop h, s') -> (m ≫= k) s = (Stop h, s').
Proof. intros H. unfold mbind, M_bind. now rewrite H. Qed.

Lemma string_app_assoc (a b c : string) : (a +:+ b) +:+ c = a +:+ (b +:+ c).
Proof.
  induction a as [|ch a IH]; [reflexivity |].
  change (String ch ((a +:+ b) +:+ c) = String ch (a +:+ (b +:+ c))).
  now rewrite IH.
Qed.

Lemma string_app_nil_r (a : string) : a +:+ EmptyString = a.
Proof.
  induction a as [|ch a IH]; [reflexivity |].
  change (String ch (a +:+ EmptyString) = String ch a).
  now rewrite IH.
Qed.

Lemma set_trace_same (s : shell) : set_trace (trace s) s = s.
Proof. now destruct s. Qed.

Lemma set_trace_twice (t u : list event) (s : shell) :
  set_trace u (set_trace t s) = set_trace u s.
Proof. reflexivity. Qed.

(** ** The hash values of the built-in names *)

Example hash_exit : hash_cmd "exit" = EXIT. Proof. reflexivity. Qed.
Example hash_echo : hash_cmd "echo" = ECHO. Proof. reflexivity. Qed.
Example hash_cd : hash_cmd "cd" = CD. Proof. reflexivity. Qed.
Example hash_bg : hash_cmd "bg" = CBG. Proof. reflexivity. Qed.
Example hash_fg : hash_cmd "fg" = CFG. Proof. reflexivity. Qed.
Example hash_hash : hash_cmd "hash" = HASH. Proof. reflexivity. Qed.
Example hash_help : hash_cmd "help" = HELP. Proof. reflexivity. Qed.
Example hash_jobs : hash_cmd "jobs" = JOBS. Proof. reflexivity. Qed.
Example hash_status_token : hash_cmd "$?" = ECHO_STATUS. Proof. reflexivity. Qed.
Example fmt_d_neg : fmt_d (-127) = "-127"%string. Proof. reflexivity. Qed.
Example fmt_x_exit : fmt_x EXIT = "4e65e"%string. Proof. reflexivity. Qed.

(** ** Status canonicalization *)

Example STATUS_error : STATUS (-1) = 127. Proof. reflexivity. Qed.
Example STATUS_table_full : STATUS (INTERNSTATUS + 1) = 1. Proof. reflexivity. Qed.

(** C5, as stated, fails: canonicalization is not idempotent on every
    integer.  A status below the sentinel is shifted once more by the second
    application ([-200] gives [-72], then [56]), and the first result is
    not in the range 0..255. *)
Lemma STATUS_not_idempotent_below_sentinel :
  STATUS (STATUS (-200)) <> STATUS (-200) /\ ~ (0 <= STATUS (-200) <= 255).
Proof. vm_compute. split; [discriminate | intros [H _]; now apply H]. Qed.

(** C5, amended: for every status not below the sentinel [INTERNSTATUS],
    canonicalizing twice gives the same value as canonicalizing once; the
    sentinel canonicalizes to zero; and a status between the sentinel and 255
    canonicalizes into 0..255. *)
Theorem STATUS_idempotent_from_sentinel (s : Z) :
  INTERNSTATUS <= s ->
  STATUS (STATUS s) = STATUS s
  /\ STATUS INTERNSTATUS = 0
  /\ (s <= 255 -> 0 <= STATUS s <= 255).
Proof.
  unfold STATUS, INTERNSTATUS. intros Hs. split; [| split].
  - destruct (Z.ltb_spec s 0) as [Hneg | Hpos].
    + destruct (Z.ltb_spec (s - -128) 0); lia.
    + destruct (Z.ltb_spec s 0); lia.
  - reflexivity.
  - intros Hle. destruct (Z.ltb_spec s 0); lia.
Qed.

Lemma STATUS_idempotent_from_sentinel_witness :
  INTERNSTATUS <= -1
  /\ STATUS (STATUS (-1)) = STATUS (-1)
  /\ STATUS INTERNSTATUS = 0
  /\ (-1 <= 255 -> 0 <= STATUS (-1) <= 255).
Proof.
  split; [unfold INTERNSTATUS; lia |].
  apply (STATUS_idempotent_from_sentinel (-1)). unfold INTERNSTATUS. lia.
Defined.

(** ** Built-in recognition *)

Example hash_collision_exit : hash_cmd "lwit" = hash_cmd "exit".
Proof. reflexivity. Qed.

(** An external name is not a built-in: [internal_cmd] returns -1 and
    touches nothing. *)
Lemma internal_cmd_external (name : string) (argv : list string) (s : shell) :
  external_name name -> internal_cmd name argv s = (Val (-1), s).
Proof.
  unfold external_name, builtin_hash, internal_cmd. simpl. intros H.
  repeat (apply orb_false_elim in H as [? H]).
  repeat match goal with E : (_ =? _) = false |- _ => rewrite E; clear E end.
  reflexivity.
Qed.

(** C10: built-in recognition factors through [hash_cmd].  Two command
    names with the same hash make [internal_cmd] behave identically on every
    argument vector and state; and a name whose hash is that of "exit" makes
    [start_cmd] terminate the shell with [exit (0)] before any [fork], the
    state being untouched. *)
Theorem internal_cmd_factors_through_hash (c1 c2 : string)
    (argv : list string) (s : shell) :
  hash_cmd c1 = hash_cmd c2 ->
  internal_cmd c1 argv s = internal_cmd c2 argv s
  /\ (hash_cmd c1 = EXIT ->
      forall options notify,
        start_cmd c2 argv options notify s = (Stop (HExit 0), s)).
Proof.
  intros H. split.
  - unfold internal_cmd. now rewrite H.
  - intros Hexit options notify.
    unfold start_cmd, internal_cmd. rewrite <- H, Hexit. reflexivity.
Qed.

Lemma internal_cmd_factors_through_hash_witness :
  hash_cmd "exit" = hash_cmd "lwit"
  /\ internal_cmd "exit" ["lwit"%string] (shell_init (simple_kernel 4242 0))
     = internal_cmd "lwit" ["lwit"%string] (shell_init (simple_kernel 4242 0))
  /\ start_cmd "lwit" ["lwit"%string] JFG 0 (shell_init (simple_kernel 4242 0))
     = (Stop (HExit 0), shell_init (simple_kernel 4242 0)).
Proof.
  split; [reflexivity |].
  destruct (internal_cmd_factors_through_hash "exit" "lwit" ["lwit"%string]
              (shell_init (simple_kernel 4242 0)) eq_refl) as [H1 H2].
  split; [exact H1 | apply H2; reflexivity].
Defined.

(** ** The [echo] built-in *)

Lemma stdout_text_app (a b : list event) :
  stdout_text (a ++ b) = stdout_text a +:+ stdout_text b.
Proof.
  induction a as [|e a IH]; [reflexivity |].
  destruct e; simpl; try exact IH.
  rewrite IH. symmetry. apply string_app_assoc.
Qed.

(** The loop of [echo] only appends to the trace, and what it writes is
    the arguments separated by single spaces. *)
Lemma echo_args_spec (args : list string) (s : shell) :
  exists evs,
    echo_args args s = (Val tt, set_trace (trace s ++ evs) s)
    /\ Forall is_stdout evs
    /\ stdout_text evs = unwords args.
Proof.
  revert s. induction args as [|arg rest IH]; intros s.
  - exists []. rewrite app_nil_r, set_trace_same. repeat split; constructor.
  - destruct rest as [|r0 rest].
    + exists [Stdout arg]. split; [| split].
      * reflexivity.
      * repeat constructor. now exists arg.
      * simpl. apply string_app_nil_r.
    + destruct (IH (set_trace ((trace s ++ [Stdout arg]) ++ [Stdout " "]) s))
        as (evs & Hrun & Hout & Htext).
      exists (Stdout arg :: Stdout " " :: evs). split; [| split].
      * change (echo_args (arg :: r0 :: rest) s)
          with (echo_args (r0 :: rest)
                  (set_trace ((trace s ++ [Stdout arg]) ++ [Stdout " "]) s)).
        rewrite Hrun. unfold set_trace; simpl.
        now rewrite <- !app_assoc.
      * constructor; [now exists arg |]. constructor; [now exists " "%string |].
        exact Hout.
      * change (stdout_text (Stdout arg :: Stdout " " :: evs))
          with (arg +:+ " " +:+ stdout_text evs).
        now rewrite Htext.
Qed.

(** C8, as stated, fails on two kinds of argument lists.  With no argument
    [echo] returns before printing anything, so no newline is written; and a
    first argument that merely hashes like the status token (here "2=") is
    replaced by the last status. *)
Lemma echo_not_always_arguments_and_newline :
  let s := shell_init (simple_kernel 4242 0) in
  stdout_text (trace (internal_cmd "echo" ["echo"%string] s).2)
    <> unwords [] +:+ nl
  /\ stdout_text (trace (internal_cmd "echo"
                           ["echo"; "2="; "x"]%string s).2)
    <> unwords ["2="; "x"]%string +:+ nl.
Proof. vm_compute. split; discriminate. Qed.

(** C8, amended: a command whose name hashes to [ECHO] returns 0 and only
    writes on [stdout].  With no argument it writes nothing.  Otherwise, when
    the first argument hashes to [ECHO_STATUS] (as "$?" does) it writes the
    last status, a space, the remaining arguments separated by single spaces
    and one newline; when it does not, it writes all arguments separated by
    single spaces and one newline.  In particular [echo hello] writes exactly
    "hello" and a newline. *)
Theorem echo_contract (name : string) (args : list string) (s : shell) :
  hash_cmd name = ECHO ->
  exists evs,
    internal_cmd name (name :: args) s = (Val 0, set_trace (trace s ++ evs) s)
    /\ Forall is_stdout evs
    /\ stdout_text evs =
         match args with
         | [] => EmptyString
         | a1 :: rest =>
             if hash_cmd a1 =? ECHO_STATUS
             then fmt_d (laststatus s) +:+ " " +:+ unwords rest +:+ nl
             else unwords args +:+ nl
         end
    /\ (args = ["hello"%string] -> stdout_text evs = "hello" +:+ nl).
Proof.
  intros Hname.
  assert (Hmain : exists evs,
    internal_cmd name (name :: args) s = (Val 0, set_trace (trace s ++ evs) s)
    /\ Forall is_stdout evs
    /\ stdout_text evs =
         match args with
         | [] => EmptyString
         | a1 :: rest =>
             if hash_cmd a1 =? ECHO_STATUS
             then fmt_d (laststatus s) +:+ " " +:+ unwords rest +:+ nl
             else unwords args +:+ nl
         end).
  { unfold internal_cmd. rewrite Hname. change (ECHO =? EXIT) with false.
    change (ECHO =? ECHO) with true. cbv iota.
    destruct args as [|a1 rest].
    - exists []. rewrite app_nil_r, set_trace_same. repeat split. constructor.
    - change ((name :: a1 :: rest) !! 1%nat) with (Some a1).
      change (drop 2 (name :: a1 :: rest)) with rest.
      change (drop 1 (name :: a1 :: rest)) with (a1 :: rest).
      cbv beta iota.
      destruct (hash_cmd a1 =? ECHO_STATUS).
      + destruct (echo_args_spec rest
                    (set_trace (trace s ++ [Stdout (fmt_d (laststatus s) +:+ " ")]) s))
          as (evs & Hrun & Hout & Htext).
        exists (Stdout (fmt_d (laststatus s) +:+ " ") :: evs ++ [Stdout nl]).
        split; [| split].
        * munfold. cbn beta iota. rewrite Hrun. unfold set_trace; simpl.
          now rewrite <- !app_assoc.
        * constructor; [eexists; reflexivity |].
          apply Forall_app. split; [exact Hout |].
          repeat constructor. now exists nl.
        * change (stdout_text (Stdout (fmt_d (laststatus s) +:+ " ")
                                 :: evs ++ [Stdout nl]))
            with ((fmt_d (laststatus s) +:+ " ") +:+ stdout_text (evs ++ [Stdout nl])).
          rewrite stdout_text_app, Htext. simpl stdout_text.
          rewrite string_app_nil_r. apply string_app_assoc.
      + destruct (echo_args_spec (a1 :: rest) s) as (evs & Hrun & Hout & Htext).
        exists (evs ++ [Stdout nl]). split; [| split].
        * munfold. cbn beta iota. rewrite Hrun. unfold set_trace; simpl.
          now rewrite <- !app_assoc.
        * apply Forall_app. split; [exact Hout |].
          repeat constructor. now exists nl.
        * rewrite stdout_text_app, Htext. simpl stdout_text.
          now rewrite string_app_nil_r. }
  destruct Hmain as (evs & Hrun & Hout & Htext).
  exists evs. repeat split; try assumption.
  intros ->. rewrite Htext. reflexivity.
Qed.

Lemma echo_contract_witness :
  hash_cmd "echo" = ECHO
  /\ exists evs,
       internal_cmd "echo" ["echo"; "hello"]%string
         (shell_init (simple_kernel 4242 0))
       = (Val 0, set_trace (trace (shell_init (simple_kernel 4242 0)) ++ evs)
                   (shell_init (simple_kernel 4242 0)))
       /\ stdout_text evs = "hello" +:+ nl.
Proof.
  split; [reflexivity |].
  destruct (echo_contract "echo" ["hello"%string]
              (shell_init (simple_kernel 4242 0)) eq_refl)
    as (evs & Hrun & _ & _ & Hhello).
  exists evs. split; [exact Hrun | now apply Hhello].
Defined.

(** ** Storing the command name *)

Lemma cstring_of_terminated (pre tl : list ascii) :
  Forall nonzero pre ->
  cstring_of (pre ++ zero :: tl) = Some (string_of_list_ascii pre).
Proof.
  induction 1 as [|c pre Hc _ IH]; simpl.
  - now destruct (decide (zero = zero)).
  - destruct (decide (c = zero)) as [E | _]; [now apply Hc in E |].
    now rewrite IH.
Qed.

Lemma cstring_of_unterminated (pre : list ascii) :
  Forall nonzero pre -> cstring_of pre = None.
Proof.
  induction 1 as [|c pre Hc _ IH]; simpl; [reflexivity |].
  destruct (decide (c = zero)) as [E | _]; [now apply Hc in E |].
  now rewrite IH.
Qed.

(** A name shorter than what is left of the buffer is copied with its
    terminator; the bytes after it are kept. *)
Lemma copy_cmd_short (pre : list ascii) :
  forall (fuel j : nat) (buf : list ascii),
    Forall nonzero pre ->
    (j + fuel = length buf)%nat ->
    (length pre < fuel)%nat ->
    copy_cmd fuel j (string_of_list_ascii pre) buf
    = take j buf ++ pre ++ zero :: drop (j + length pre + 1) buf.
Proof.
  induction pre as [|c pre IH]; intros fuel j buf Hnz Hlen Hfuel.
  - destruct fuel as [|fuel]; [simpl in Hfuel; lia |]. simpl.
    rewrite insert_take_drop by lia.
    now replace (j + 0 + 1)%nat with (S j) by lia.
  - destruct fuel as [|fuel]; [simpl in Hfuel; lia |].
    inversion Hnz as [|? ? Hc Hpre]; subst. simpl.
    destruct (decide (c = zero)) as [E | _]; [now apply Hc in E |].
    rewrite IH; [| assumption | rewrite length_insert; lia | simpl in Hfuel; lia].
    rewrite (take_S_r _ _ c) by (apply list_lookup_insert_eq; lia).
    rewrite take_insert_ge by lia.
    rewrite drop_insert_lt by lia.
    rewrite <- app_assoc. simpl. repeat f_equal. lia.
Qed.

(** A name that fills what is left of the buffer is copied without any
    terminator. *)
Lemma copy_cmd_long (pre : list ascii) :
  forall (rest : string) (j : nat) (buf : list ascii),
    Forall nonzero pre ->
    (j + length pre = length buf)%nat ->
    copy_cmd (length pre) j (string_of_list_ascii pre +:+ rest) buf
    = take j buf ++ pre.
Proof.
  induction pre as [|c pre IH]; intros rest j buf Hnz Hlen.
  - simpl in *. rewrite app_nil_r. rewrite take_ge by lia. reflexivity.
  - inversion Hnz as [|? ? Hc Hpre]; subst.
    change (copy_cmd (length (c :: pre)) j
              (string_of_list_ascii (c :: pre) +:+ rest) buf)
      with (if decide (c = zero) then <[j := zero]> buf
            else copy_cmd (length pre) (S j)
                   (string_of_list_ascii pre +:+ rest) (<[j := c]> buf)).
    destruct (decide (c = zero)) as [E | _]; [now apply Hc in E |].
    simpl in Hlen.
    rewrite IH; [| assumption | rewrite length_insert; lia].
    rewrite (take_S_r _ _ c) by (apply list_lookup_insert_eq; lia).
    rewrite take_insert_ge by lia.
    now rewrite <- app_assoc.
Qed.

(** X29 (the part of C9 that holds): a name of fewer than [CMDBUFSZ]
    bytes, none of them NUL, is stored whole and terminated, whatever the
    buffer held. *)
Lemma store_cmd_short_terminated (pre buf : list ascii) :
  Forall nonzero pre ->
  length buf = CMDBUFSZ ->
  (length pre < CMDBUFSZ)%nat ->
  cstring_of (store_cmd (Some (string_of_list_ascii pre)) buf)
  = Some (string_of_list_ascii pre).
Proof.
  intros Hnz Hbuf Hlen. unfold store_cmd.
  rewrite copy_cmd_short by (try assumption; simpl; lia).
  simpl. now apply cstring_of_terminated.
Qed.

Lemma store_cmd_short_terminated_witness :
  let pre := list_ascii_of_string "sleep" in
  let buf := replicate CMDBUFSZ zero in
  Forall nonzero pre /\ length buf = CMDBUFSZ /\ (length pre < CMDBUFSZ)%nat
  /\ cstring_of (store_cmd (Some "sleep"%string) buf) = Some "sleep"%string.
Proof.
  intros pre buf.
  assert (Hnz : Forall nonzero pre)
    by (repeat (constructor; [discriminate |]); constructor).
  assert (Hbuf : length buf = CMDBUFSZ) by reflexivity.
  assert (Hlen : (length pre < CMDBUFSZ)%nat) by (vm_compute; lia).
  split; [exact Hnz |]. split; [exact Hbuf |]. split; [exact Hlen |].
  exact (store_cmd_short_terminated pre buf Hnz Hbuf Hlen).
Defined.

(** The part that does not: of a name of [CMDBUFSZ] bytes or more, all
    [CMDBUFSZ] first bytes are stored, and the buffer has no terminator. *)
Lemma store_cmd_long_unterminated (pre buf : list ascii) (rest : string) :
  Forall nonzero pre ->
  length buf = CMDBUFSZ ->
  length pre = CMDBUFSZ ->
  store_cmd (Some (string_of_list_ascii pre +:+ rest)) buf = pre
  /\ cstring_of (store_cmd (Some (string_of_list_ascii pre +:+ rest)) buf) = None.
Proof.
  intros Hnz Hbuf Hlen. unfold store_cmd.
  rewrite <- Hlen.
  rewrite copy_cmd_long by (try assumption; simpl; lia).
  simpl. split; [reflexivity | now apply cstring_of_unterminated].
Qed.

(** C9 at a failing input: registering the nineteen-byte name
    "update-alternatives" stores its sixteen first bytes, one more than
    [CMDBUFSZ - 1], and leaves the buffer without a terminating NUL. *)
Theorem register_job_long_name_not_terminated :
  let s := shell_init (simple_kernel 4242 0) in
  let r := register_job 4242 4242 JFG (Some "update-alternatives"%string) s in
  r.1 = Val (Some 0%nat)
  /\ cmd (job_at r.2 0) = list_ascii_of_string "update-alternati"
  /\ length (cmd (job_at r.2 0)) = CMDBUFSZ
  /\ ~ In zero (cmd (job_at r.2 0))
  /\ cstring_of (cmd (job_at r.2 0)) = None.
Proof.
  vm_compute. repeat split.
  intros H. repeat (destruct H as [H | H]; [discriminate |]). exact H.
Qed.

Example register_job_short_name :
  let s := shell_init (simple_kernel 4242 0) in
  cstring_of (cmd (job_at (register_job 4242 4242 JFG (Some "sleep"%string) s).2 0))
  = Some "sleep"%string.
Proof. reflexivity. Qed.

(** ** Job-table exhaustion *)

Lemma scan_slots_none (P : job -> bool) (l : list job) (n : nat) :
  forall i0 : nat,
    (forall i, (i0 <= i < i0 + n)%nat -> P (default job_zero (l !! i)) = false) ->
    scan_slots P l n i0 = None.
Proof.
  induction n as [|n IH]; intros i0 H; simpl; [reflexivity |].
  rewrite H by lia. apply IH. intros i Hi. apply H. lia.
Qed.

Lemma scan_slots_free_full (s : shell) :
  table_full s ->
  scan_slots (fun j => pid j =? 0) (job_list s) MAXJOBS 0 = None.
Proof.
  intros [Hlen Hocc]. apply scan_slots_none. intros i Hi.
  destruct (job_list s !! i) as [j|] eqn:Hj.
  - simpl. apply negb_true_iff.
    rewrite forallb_forall in Hocc. apply Hocc.
    apply list_elem_of_In, list_elem_of_lookup. eauto.
  - apply lookup_ge_None in Hj. lia.
Qed.

Lemma register_job_full (p g bg : Z) (name : option string) (s : shell) :
  table_full s -> register_job p g bg name s = (Val None, s).
Proof.
  intros Hfull. unfold register_job. munfold.
  now rewrite scan_slots_free_full.
Qed.

Lemma sys_fork_run (task : child_task) (s : shell) :
  sys_fork task s = (Val (k_fork (kern s) (clock s)), forked task s).
Proof.
  unfold sys_fork, forked. munfold. simpl.
  now destruct (k_fork (kern s) (clock s) <? 0).
Qed.

Lemma table_full_forked (task : child_task) (s : shell) :
  table_full s -> table_full (forked task s).
Proof.
  unfold table_full, forked. simpl.
  now destruct (k_fork (kern s) (clock s) <? 0).
Qed.

Lemma start_cmd_full_run (name : string) (argv : list string)
    (options notify : Z) (s : shell) :
  external_name name ->
  table_full s ->
  k_fork (kern s) (clock s) <> 0 ->
  start_cmd name argv options notify s
  = (Val (INTERNSTATUS + 1),
     set_trace (trace (forked (ChildExec (Some name) argv) s)
                ++ [Stderr table_full_message])
       (forked (ChildExec (Some name) argv) s)).
Proof.
  intros Hext Hfull Hparent. unfold start_cmd.
  rewrite (bind_val _ _ _ _ _ (internal_cmd_external name argv s Hext)).
  change (negb (-1 =? -1)) with false. cbv iota.
  rewrite (bind_val _ _ _ _ _ (sys_fork_run _ s)).
  destruct (Z.eqb_spec (k_fork (kern s) (clock s)) 0) as [E | _];
    [contradiction |].
  rewrite (bind_val _ _ _ _ _
             (register_job_full _ _ _ _ _ (table_full_forked _ s Hfull))).
  reflexivity.
Qed.

(** C7: when every slot is occupied and an external command is launched
    (in the parent, where [fork] does not return zero), [register_job]
    returns the null pointer, the launcher writes the message on [stderr]
    after the [fork] and returns [INTERNSTATUS + 1], which is neither zero,
    nor the -1 of the other layers, nor the sentinel, nor an exit status in
    0..255; the job table, [last_job] and [fg_job] are unchanged, so the
    forked child is in no slot. *)
Theorem start_cmd_job_table_full (name : string) (argv : list string)
    (options notify : Z) (s : shell) :
  external_name name ->
  table_full s ->
  k_fork (kern s) (clock s) <> 0 ->
  let p := k_fork (kern s) (clock s) in
  let r := start_cmd name argv options notify s in
  register_job p p options (Some name) s = (Val None, s)
  /\ r.1 = Val (INTERNSTATUS + 1)
  /\ (INTERNSTATUS + 1 <> 0 /\ INTERNSTATUS + 1 <> -1
      /\ INTERNSTATUS + 1 <> INTERNSTATUS /\ ~ (0 <= INTERNSTATUS + 1 <= 255))
  /\ trace r.2 = trace s ++ [Fork p (ChildExec (Some name) argv);
                             Stderr table_full_message]
  /\ job_list r.2 = job_list s
  /\ last_job r.2 = last_job s
  /\ fg_job r.2 = fg_job s.
Proof.
  intros Hext Hfull Hparent p r.
  split; [now apply register_job_full |].
  split; [| split; [unfold INTERNSTATUS; lia |]].
  - subst r. now rewrite start_cmd_full_run by assumption.
  - subst r. rewrite start_cmd_full_run by assumption.
    unfold forked. fold p.
    destruct (p <? 0); simpl; rewrite <- app_assoc; repeat split; reflexivity.
Qed.

Lemma start_cmd_job_table_full_witness :
  let s := shell_full (simple_kernel 4242 0) in
  external_name "ls"
  /\ table_full s
  /\ k_fork (kern s) (clock s) <> 0
  /\ (start_cmd "ls" ["ls"; "-l"]%string JFG 0 s).1 = Val (-127)
  /\ trace (start_cmd "ls" ["ls"; "-l"]%string JFG 0 s).2
     = [Fork 4242 (ChildExec (Some "ls"%string) ["ls"; "-l"]%string);
        Stderr table_full_message]
  /\ job_list (start_cmd "ls" ["ls"; "-l"]%string JFG 0 s).2 = job_list s.
Proof.
  intros s.
  assert (Hext : external_name "ls") by reflexivity.
  assert (Hfull : table_full s) by (split; reflexivity).
  assert (Hparent : k_fork (kern s) (clock s) <> 0) by (vm_compute; discriminate).
  destruct (start_cmd_job_table_full "ls" ["ls"; "-l"]%string JFG 0 s
              Hext Hfull Hparent) as (_ & Hret & _ & Htrace & Hjobs & _).
  repeat split; assumption.
Defined.

(** ** The terminal-stop signal *)

(** What [suspend_job] does to the table and to [last_job], whatever
    [kill] answers. *)
Lemma suspend_job_run (i : nat) (s : shell) :
  let r := suspend_job i s in
  r.1 = Val tt
  /\ job_list r.2
     = alter (set_background JBG) i (alter (set_state JSTOPPED) i (job_list s))
  /\ last_job r.2 = Some i
  /\ fg_job r.2 = fg_job s
  /\ (k_fault (kern s) (clock s) = None ->
      trace r.2 = trace s ++ [Kill (pid (job_at s i)) SIGTSTP])
  /\ (forall e, k_fault (kern s) (clock s) = Some e ->
      trace r.2
      = trace s ++ [Stderr ("Unable to send TSTP: " +:+ strerror e +:+ nl)]).
Proof.
  unfold suspend_job, sys_kill, update_job. munfold. simpl.
  destruct (k_fault (kern s) (clock s)) as [e|]; simpl;
    repeat split; try reflexivity; try discriminate;
    intros ? [= <-]; reflexivity.
Qed.

(** C4, as stated, fails on the addressee of the signal: the handler
    calls [kill] with the job's (positive) pid, which addresses that one
    process; no signal is addressed to the job's process group. *)
Lemma sigtstp_not_sent_to_process_group :
  let s := shell_foreground (simple_kernel 4242 0) in
  let r := sig_handler SIGTSTP s in
  trace r.2 = [Kill 4242 SIGTSTP]
  /\ kill_addressee 4242 = Process 4242
  /\ ~ (exists target sig,
          In (Kill target sig) (trace r.2)
          /\ kill_addressee target = Group (pgid (job_at s 0))).
Proof.
  vm_compute. repeat split.
  intros (target & sig & [H | []] & Hgroup).
  injection H as <- <-. discriminate.
Qed.

(** C4, amended: when the handler of [SIGTSTP] runs with [fg_job] null it
    does nothing.  When [fg_job] is a slot [i] of the table it calls
    [kill (pid, SIGTSTP)] with the pid of that job, which for a positive pid
    addresses the single process with that id (not a process group), sets
    the job's state to [JSTOPPED] and its background field to [JBG], leaves
    the other fields and the other slots alone, and sets [last_job] to the
    job; a failing [kill] is reported on [stderr], the fields being set all
    the same. *)
Theorem sigtstp_suspends_foreground_job (s : shell) :
  (fg_job s = None -> sig_handler SIGTSTP s = (Val tt, s))
  /\ (forall i : nat,
        fg_job s = Some i ->
        (i < length (job_list s))%nat ->
        let r := sig_handler SIGTSTP s in
        r.1 = Val tt
        /\ job_list r.2
           = alter (set_background JBG) i (alter (set_state JSTOPPED) i (job_list s))
        /\ state (job_at r.2 i) = JSTOPPED
        /\ background (job_at r.2 i) = JBG
        /\ last_job r.2 = Some i
        /\ (k_fault (kern s) (clock s) = None ->
            trace r.2 = trace s ++ [Kill (pid (job_at s i)) SIGTSTP])
        /\ (0 < pid (job_at s i) ->
            kill_addressee (pid (job_at s i)) = Process (pid (job_at s i)))
        /\ (forall e, k_fault (kern s) (clock s) = Some e ->
            trace r.2
            = trace s ++ [Stderr ("Unable to send TSTP: " +:+ strerror e +:+ nl)])).
Proof.
  split.
  - intros Hnone. unfold sig_handler. munfold. now rewrite Hnone.
  - intros i Hfg Hi r.
    assert (Hr : r = suspend_job i s).
    { subst r. unfold sig_handler. munfold. now rewrite Hfg. }
    destruct (suspend_job_run i s) as (Hval & Hjobs & Hlast & _ & Hok & Hko).
    rewrite <- Hr in Hval, Hjobs, Hlast, Hok, Hko.
    destruct (lookup_lt_is_Some_2 (job_list s) i Hi) as [j Hj].
    assert (Hat : job_at r.2 i = set_background JBG (set_state JSTOPPED j)).
    { unfold job_at. rewrite Hjobs.
      rewrite list_lookup_alter_eq, list_lookup_alter_eq, Hj. reflexivity. }
    repeat split; try assumption; try (now rewrite Hat).
    intros Hpos. unfold kill_addressee.
    now destruct (Z.ltb_spec 0 (pid (job_at s i))); [| lia].
Qed.

Lemma sigtstp_suspends_foreground_job_witness :
  let s := shell_foreground (simple_kernel 4242 0) in
  let r := sig_handler SIGTSTP s in
  fg_job s = Some 0%nat
  /\ (0 < length (job_list s))%nat
  /\ state (job_at r.2 0) = JSTOPPED
  /\ background (job_at r.2 0) = JBG
  /\ last_job r.2 = Some 0%nat
  /\ sig_handler SIGTSTP (shell_init (simple_kernel 4242 0))
     = (Val tt, shell_init (simple_kernel 4242 0)).
Proof.
  intros s r.
  assert (Hfg : fg_job s = Some 0%nat) by reflexivity.
  assert (Hlen : (0 < length (job_list s))%nat) by (vm_compute; lia).
  destruct (sigtstp_suspends_foreground_job s) as [_ Hsome].
  destruct (Hsome 0%nat Hfg Hlen) as (_ & _ & Hst & Hbg & Hlast & _).
  destruct (sigtstp_suspends_foreground_job (shell_init (simple_kernel 4242 0)))
    as [Hnone _].
  split; [exact Hfg |]. split; [exact Hlen |]. split; [exact Hst |].
  split; [exact Hbg |]. split; [exact Hlast |]. apply Hnone. reflexivity.
Defined.

(** ** Stopped jobs and the background flag *)

Example W_STOPPED_TSTP_is_stop :
  WIFEXITED W_STOPPED_TSTP = false /\ WIFSTOPPED W_STOPPED_TSTP = true.
Proof. split; reflexivity. Qed.

Lemma forallb_alter (P : job -> bool) (f : job -> job) (l : list job) :
  forall i : nat,
    forallb P l = true ->
    (forall j, l !! i = Some j -> P (f j) = true) ->
    forallb P (alter f i l) = true.
Proof.
  induction l as [|a l IH]; intros i Hl Hf; [reflexivity |].
  simpl in Hl. apply andb_true_iff in Hl as [Ha Hl].
  destruct i as [|i]; simpl; apply andb_true_iff; split.
  - now apply Hf.
  - exact Hl.
  - exact Ha.
  - apply IH; [exact Hl | exact Hf].
Qed.

Lemma alter_twice (f g : job -> job) (l : list job) :
  forall i : nat, alter f i (alter g i l) = alter (fun j => f (g j)) i l.
Proof.
  induction l as [|a l IH]; intros [|i]; simpl; try reflexivity.
  f_equal. apply IH.
Qed.

(** The operations that keep P3: registering, suspending, sending to the
    background and unregistering. *)
Lemma register_job_keeps_stopped_is_bg (p g bg : Z) (name : option string)
    (s : shell) :
  stopped_is_bg s -> stopped_is_bg (register_job p g bg name s).2.
Proof.
  unfold stopped_is_bg, register_job, update_job. munfold. intros H.
  destruct (scan_slots _ _ _ _); simpl; [| exact H].
  apply forallb_alter; [exact H | reflexivity].
Qed.

Lemma suspend_job_keeps_stopped_is_bg (i : nat) (s : shell) :
  stopped_is_bg s -> stopped_is_bg (suspend_job i s).2.
Proof.
  unfold stopped_is_bg. intros H.
  destruct (suspend_job_run i s) as (_ & -> & _).
  rewrite alter_twice.
  apply forallb_alter; [exact H |].
  intros j _. reflexivity.
Qed.

Lemma unregister_job_keeps_stopped_is_bg (i : nat) (s : shell) :
  stopped_is_bg s -> stopped_is_bg (unregister_job i s).2.
Proof.
  unfold stopped_is_bg, unregister_job, update_job. munfold. simpl. intros H.
  apply forallb_alter; [exact H |].
  intros j Hj. unfold stopped_in_bg. simpl.
  rewrite forallb_forall in H. apply (H j).
  apply list_elem_of_In, list_elem_of_lookup. eauto.
Qed.

Lemma send_to_background_keeps_stopped_is_bg (i : nat) (s : shell) :
  stopped_is_bg s -> stopped_is_bg (send_to_background i s).2.
Proof.
  unfold stopped_is_bg, send_to_background, continue_if_stopped, sys_kill,
    update_job.
  munfold. intros H.
  destruct (bool_decide (state (job_at s i) = JSTOPPED)); simpl;
    [destruct (k_fault (kern s) (clock s)) |]; simpl;
    (apply forallb_alter; [exact H | reflexivity]).
Qed.

(** C3 at a failing input: [sleep 10] is run in the foreground and is
    stopped from the terminal, so the [waitpid] of [send_to_foreground]
    reports a stop.  P3 holds before the evaluation; after it slot 0 is
    [JSTOPPED] with [background] still [JFG], and P3 no longer holds. *)
Theorem foreground_stop_breaks_stopped_is_bg :
  let s := shell_init (simple_kernel 4242 W_STOPPED_TSTP) in
  let r := evaluer_expr (Node SIMPLE Null Null ["sleep"; "10"]%string) s in
  stopped_is_bg s
  /\ r.1 = Val 0
  /\ pid (job_at r.2 0) = 4242
  /\ state (job_at r.2 0) = JSTOPPED
  /\ background (job_at r.2 0) = JFG
  /\ ~ stopped_is_bg r.2.
Proof. vm_compute. repeat split. discriminate. Qed.

(** The same already holds of [launch_job] alone, and of the reaper when
    it sees a job registered in the foreground stop. *)
Example launch_job_breaks_stopped_is_bg :
  let s := (register_job 4242 4242 JFG (Some "sleep"%string)
              (shell_init (simple_kernel 4242 W_STOPPED_TSTP))).2 in
  stopped_is_bg s /\ ~ stopped_is_bg (launch_job 0 0 s).2.
Proof. vm_compute. split; [reflexivity | discriminate]. Qed.

Example set_status_job_breaks_stopped_is_bg :
  let s := shell_foreground (simple_kernel 4242 0) in
  stopped_is_bg s /\ ~ stopped_is_bg (set_status_job 0 W_STOPPED_TSTP s).2.
Proof. vm_compute. split; [reflexivity | discriminate]. Qed.

(** ** The default target of [fg] and [bg] *)

Lemma scan_slots_some (P : job -> bool) (l : list job) (n : nat) :
  forall i0 i : nat,
    scan_slots P l n i0 = Some i ->
    (i0 <= i < i0 + n)%nat /\ P (default job_zero (l !! i)) = true.
Proof.
  induction n as [|n IH]; intros i0 i H; simpl in H; [discriminate |].
  destruct (P (default job_zero (l !! i0))) eqn:HP.
  - injection H as <-. split; [lia | exact HP].
  - apply IH in H as [Hi HPi]. split; [lia | exact HPi].
Qed.

Lemma scan_slots_none_inv (P : job -> bool) (l : list job) (n : nat) :
  forall i0 : nat,
    scan_slots P l n i0 = None ->
    forall i, (i0 <= i < i0 + n)%nat -> P (default job_zero (l !! i)) = false.
Proof.
  induction n as [|n IH]; intros i0 H i Hi; simpl in H; [lia |].
  destruct (P (default job_zero (l !! i0))) eqn:HP; [discriminate |].
  destruct (decide (i = i0)) as [-> | Hne]; [exact HP |].
  apply (IH (S i0) H). lia.
Qed.

(** The loop of [cmd_jobctrl] started from an occupied, not done [tmp]
    ends on an occupied, not done slot whose pid is the highest among [tmp]
    and the slots gone through. *)
Lemma most_recent_spec (l : list job) (n : nat) :
  forall i0 tmp : nat,
    occupied_not_done (default job_zero (l !! tmp)) = true ->
    let t := most_recent l n i0 tmp in
    occupied_not_done (default job_zero (l !! t)) = true
    /\ pid (default job_zero (l !! tmp)) <= pid (default job_zero (l !! t))
    /\ (forall k, (i0 <= k < i0 + n)%nat ->
         occupied_not_done (default job_zero (l !! k)) = true ->
         pid (default job_zero (l !! k)) <= pid (default job_zero (l !! t))).
Proof.
  induction n as [|n IH]; intros i0 tmp Htmp; simpl.
  - repeat split; [exact Htmp | lia | intros k Hk; lia].
  - destruct (occupied_not_done (default job_zero (l !! i0))) eqn:Hocc; simpl.
    + destruct (Z.leb_spec (pid (default job_zero (l !! tmp)))
                  (pid (default job_zero (l !! i0)))) as [Hle | Hgt].
      * destruct (IH (S i0) i0 Hocc) as (H1 & H2 & H3).
        repeat split; [exact H1 | lia |].
        intros k Hk Hok.
        destruct (decide (k = i0)) as [-> | Hne]; [exact H2 |].
        apply H3; [lia | exact Hok].
      * destruct (IH (S i0) tmp Htmp) as (H1 & H2 & H3).
        repeat split; [exact H1 | exact H2 |].
        intros k Hk Hok.
        destruct (decide (k = i0)) as [-> | Hne]; [lia |].
        apply H3; [lia | exact Hok].
    + destruct (IH (S i0) tmp Htmp) as (H1 & H2 & H3).
      repeat split; [exact H1 | exact H2 |].
      intros k Hk Hok.
      destruct (decide (k = i0)) as [-> | Hne]; [congruence |].
      apply H3; [lia | exact Hok].
Qed.

Lemma pick_most_recent_spec (s : shell) (l : nat) :
  last_job s = Some l ->
  occupied_not_done (job_at s l) = true ->
  exists t,
    pick_most_recent s = (Val (Some t), s)
    /\ occupied_not_done (job_at s t) = true
    /\ (forall k, (k < MAXJOBS)%nat -> occupied_not_done (job_at s k) = true ->
         pid (job_at s k) <= pid (job_at s t)).
Proof.
  intros Hl Hocc. unfold pick_most_recent. munfold. rewrite Hl.
  exists (most_recent (job_list s) MAXJOBS 0 l).
  destruct (most_recent_spec (job_list s) MAXJOBS 0 l Hocc) as (H1 & _ & H3).
  repeat split; [exact H1 |].
  intros k Hk. apply H3. lia.
Qed.

Lemma occupied_not_done_state (j : job) :
  occupied_not_done j = true -> bool_decide (state j = JDONE) = false.
Proof.
  unfold occupied_not_done. intros H. apply andb_true_iff in H as [_ H].
  now apply negb_true_iff in H.
Qed.

(** X28 (the part of C6 that holds).  When [last_job] is null, done or an
    occupied slot: if the table has no occupied, not done slot, the message
    "no job to resume" is written, 1 is returned and nothing else changes;
    otherwise the slot chosen is occupied, not done, and no occupied, not
    done slot of the table has a higher pid. *)
Lemma default_target_sound (bg : Z) (s : shell) :
  last_job_sound s ->
  length (job_list s) = MAXJOBS ->
  (no_live_job s ->
   cmd_jobctrl None bg s
   = (Val 1, set_trace (trace s ++ [Stderr (bg_or_fg bg +:+ ": no job to resume" +:+ nl)]) s))
  /\ (~ no_live_job s ->
      exists t s',
        default_target bg s = (Val (Some t), s')
        /\ job_list s' = job_list s
        /\ trace s' = trace s
        /\ occupied_not_done (job_at s t) = true
        /\ (forall k, (k < MAXJOBS)%nat -> occupied_not_done (job_at s k) = true ->
             pid (job_at s k) <= pid (job_at s t))).
Proof.
  intros Hsound Hlen. unfold last_job_sound in Hsound.
  assert (Hcase : last_job_unusable s = true
                  \/ exists l, last_job s = Some l
                               /\ occupied_not_done (job_at s l) = true).
  { unfold last_job_unusable. destruct (last_job s) as [l|]; [| now left].
    destruct Hsound as [Hdone | Hocc].
    - left. now apply bool_decide_eq_true.
    - right. now exists l. }
  split.
  - intros Hnone. destruct Hcase as [Hun | (l & Hl & Hocc)].
    + unfold cmd_jobctrl, default_target. munfold. rewrite Hun.
      rewrite scan_slots_none by (intros i Hi; apply Hnone; lia).
      cbn beta iota. now rewrite Hun.
    + exfalso. unfold no_live_job in Hnone.
      destruct (decide (l < MAXJOBS)%nat) as [Hlt | Hge].
      * rewrite Hnone in Hocc by exact Hlt. discriminate.
      * unfold job_at in Hocc. rewrite lookup_ge_None_2 in Hocc by lia.
        discriminate.
  - intros Hlive. destruct Hcase as [Hun | (l & Hl & Hocc)].
    + destruct (scan_slots occupied_not_done (job_list s) MAXJOBS 0)
        as [i|] eqn:Hscan.
      * destruct (scan_slots_some _ _ _ _ _ Hscan) as [_ Hi].
        destruct (pick_most_recent_spec (set_last_job (Some i) s) i eq_refl Hi)
          as (t & Hrun & Ht & Hmax).
        exists t, (set_last_job (Some i) s). split; [| repeat split; assumption].
        unfold default_target. munfold. rewrite Hun, Hscan. cbn beta iota.
        replace (last_job_unusable (set_last_job (Some i) s)) with false
          by (symmetry; apply (occupied_not_done_state _ Hi)).
        exact Hrun.
      * exfalso. apply Hlive. intros k Hk.
        apply (scan_slots_none_inv _ _ _ _ Hscan). lia.
    + destruct (pick_most_recent_spec s l Hl Hocc) as (t & Hrun & Ht & Hmax).
      exists t, s. split; [| repeat split; assumption].
      unfold default_target. munfold.
      unfold last_job_unusable. rewrite Hl.
      now rewrite (occupied_not_done_state _ Hocc).
Qed.

Lemma default_target_sound_witness :
  let s := shell_foreground (simple_kernel 4242 0) in
  last_job_sound s /\ length (job_list s) = MAXJOBS
  /\ exists t s',
       default_target JFG s = (Val (Some t), s')
       /\ occupied_not_done (job_at s t) = true.
Proof.
  intros s.
  assert (Hs : last_job_sound s) by (right; reflexivity).
  assert (Hlen : length (job_list s) = MAXJOBS) by reflexivity.
  assert (Hlive : ~ no_live_job s).
  { intros Hnone.
    assert (Hk : (0 < MAXJOBS)%nat) by (unfold MAXJOBS; lia).
    specialize (Hnone 0%nat Hk). discriminate Hnone. }
  destruct (default_target_sound JFG s Hs Hlen) as [_ Hsome].
  destruct (Hsome Hlive) as (t & s' & Hrun & _ & _ & Hocc & _).
  split; [exact Hs |]. split; [exact Hlen |].
  exists t, s'. split; [exact Hrun | exact Hocc].
Defined.

(** C6 at a failing input: [fg] without a name in the state [shell_stale],
    in which [last_job] points to slot 0, freed by the reaper (pid 0) while
    still marked [JRUNNING].  No slot is occupied and not done, yet [fg]
    does not write "no job to resume": it announces the freed slot as
    resumed, waits on it and returns 0. *)
Theorem fg_resumes_freed_slot :
  let s := shell_stale in
  let r := cmd_jobctrl None JFG s in
  no_live_job s
  /\ last_job s = Some 0%nat
  /\ pid (job_at s 0) = 0
  /\ state (job_at s 0) = JRUNNING
  /\ r.1 = Val 0
  /\ trace r.2
     = trace s ++ [Stdout ("[0]+ Resumed" +:+ tab +:+ "true" +:+ nl);
                   Stderr ("Wait foregroud job: No child processes" +:+ nl)]
  /\ ~ In (Stderr ("fg: no job to resume" +:+ nl)) (trace r.2).
Proof.
  split.
  - intros k Hk. unfold MAXJOBS in Hk.
    do 32 (destruct k as [|k]; [reflexivity |]). lia.
  - vm_compute. repeat split.
    intros H. repeat (destruct H as [H | H]; [discriminate |]). exact H.
Qed.

Example fg_without_job_reports :
  let s := shell_init (simple_kernel 4242 0) in
  cmd_jobctrl None JFG s
  = (Val 1, set_trace [Stderr ("fg: no job to resume" +:+ nl)] s).
Proof. reflexivity. Qed.

(** ** Sequences *)

(** C2: a sequence node evaluated in the foreground is the gated sequence
    of the specification: the left side is evaluated, and the right side is
    evaluated, in the state the left side leaves, if and only if the node is
    a plain [SEQUENCE], or a [SEQUENCE_ET] and the canonicalized status of
    the left side is zero, or a [SEQUENCE_OU] and it is nonzero; otherwise
    the state left by the left side is final.  With [false] exiting with
    status 1, [false && echo x] writes nothing on [stdout] and gives status
    1, and [false || echo x] writes "x" and a newline and gives status 0,
    both as values of the node and as results of [evaluer_expr]. *)
Theorem sequence_gating (type : expr_t) (gauche droite : Expression)
    (arguments : list string) (notify : Z) (s : shell) :
  is_sequence type = true ->
  expression_handler (Node type gauche droite arguments) JFG notify s
  = gated_sequence type (expression_handler gauche)
      (expression_handler droite) JFG s
  /\ (let r := expression_handler (Node SEQUENCE_ET cmd_false cmd_echo_x [])
                 JFG 0 (shell_init (simple_kernel 4242 256)) in
      r.1 = Val 1 /\ stdout_text (trace r.2) = EmptyString)
  /\ (let r := expression_handler (Node SEQUENCE_OU cmd_false cmd_echo_x [])
                 JFG 0 (shell_init (simple_kernel 4242 256)) in
      r.1 = Val 0 /\ stdout_text (trace r.2) = "x" +:+ nl)
  /\ (let r := evaluer_expr (Node SEQUENCE_ET cmd_false cmd_echo_x [])
                 (shell_init (exit_kernel 4242 1)) in
      r.1 = Val 1 /\ stdout_text (trace r.2) = EmptyString)
  /\ (let r := evaluer_expr (Node SEQUENCE_OU cmd_false cmd_echo_x [])
                 (shell_init (exit_kernel 4242 1)) in
      r.1 = Val 0 /\ stdout_text (trace r.2) = "x" +:+ nl).
Proof.
  intros Hseq. split; [| repeat split; reflexivity].
  destruct type; try discriminate Hseq;
    simpl; unfold start_sequence, sequence_foreground, gated_sequence;
    change (JFG =? JBG) with false; cbv iota; munfold;
    destruct (expression_handler gauche JFG 0 s) as [[w | h] s1];
    try reflexivity; simpl;
    try destruct (STATUS w =? 0); simpl;
    try destruct (expression_handler droite JFG 0 s1) as [[w2 | h2] s2];
    reflexivity.
Qed.

Lemma sequence_gating_witness :
  is_sequence SEQUENCE_OU = true
  /\ expression_handler (Node SEQUENCE_OU cmd_false cmd_echo_x []) JFG 0
       (shell_init (simple_kernel 4242 256))
     = gated_sequence SEQUENCE_OU (expression_handler cmd_false)
         (expression_handler cmd_echo_x) JFG
         (shell_init (simple_kernel 4242 256)).
Proof.
  split; [reflexivity |].
  apply (sequence_gating SEQUENCE_OU cmd_false cmd_echo_x [] 0
           (shell_init (simple_kernel 4242 256))).
  reflexivity.
Defined.

(** ** Redirections and the descriptor table *)

(** *** When nothing fails

    The descriptor calls succeed when no outside failure is injected, the
    descriptors they read are open and the table has room. *)

Lemma lowest_free_spec (t : gmap Z nat) (limit : nat) (fd : Z) :
  lowest_free t limit = Some fd ->
  t !! fd = None /\ 0 <= fd < Z.of_nat limit.
Proof.
  unfold lowest_free. intros H. apply find_some in H as [Hin Hfree].
  apply bool_decide_eq_true in Hfree. split; [exact Hfree |].
  apply list_elem_of_In, elem_of_seqZ in Hin. lia.
Qed.

Lemma lowest_free_exists (t : gmap Z nat) (limit : nat) :
  (size t < limit)%nat -> exists fd, lowest_free t limit = Some fd.
Proof.
  intros Hsize. unfold lowest_free.
  destruct (List.find _ _) as [fd|] eqn:Hfind; [now exists fd |].
  exfalso.
  assert (Hsub : list_to_set (seqZ 0 (Z.of_nat limit)) ⊆ dom t).
  { intros k Hk. apply elem_of_list_to_set in Hk.
    apply elem_of_dom.
    apply list_elem_of_In in Hk.
    pose proof (find_none _ _ Hfind k Hk) as Hfalse.
    apply bool_decide_eq_false in Hfalse.
    destruct (t !! k); [eauto | contradiction]. }
  apply subseteq_size in Hsub.
  rewrite size_list_to_set in Hsub by apply NoDup_seqZ.
  rewrite length_seqZ, size_dom in Hsub. lia.
Qed.

Lemma sys_dup_ok (oldfd fd : Z) (d : nat) (s : shell) :
  quiet s ->
  fdt s !! oldfd = Some d ->
  lowest_free (fdt s) (fd_limit s) = Some fd ->
  exists s',
    sys_dup oldfd s = (Val fd, s')
    /\ fdt s' = <[fd := d]> (fdt s)
    /\ same_world s s' /\ files s' = files s /\ next_desc s' = next_desc s.
Proof.
  intros Hq Hold Hfree. unfold sys_dup. munfold. simpl.
  rewrite Hq, Hold, Hfree. eexists. repeat split.
Qed.




Lemma quiet_same_world (s s' : shell) : quiet s -> same_world s s' -> quiet s'.
Proof. intros Hq [Hk _] n. rewrite Hk. apply Hq. Qed.

Lemma same_world_trans (s1 s2 s3 : shell) :
  same_world s1 s2 -> same_world s2 s3 -> same_world s1 s3.
Proof. intros [? ?] [? ?]. split; congruence. Qed.


Lemma dup_step (oldfd : Z) (d : nat) (s : shell) :
  quiet s ->
  fdt s !! oldfd = Some d ->
  (size (fdt s) < fd_limit s)%nat ->
  exists fd s',
    sys_dup oldfd s = (Val fd, s')
    /\ fdt s !! fd = None /\ (fd =? -1) = false
    /\ fdt s' = <[fd := d]> (fdt s)
    /\ same_world s s' /\ files s' = files s.
Proof.
  intros Hq Hold Hsize.
  destruct (lowest_free_exists _ _ Hsize) as [fd Hfd].
  destruct (lowest_free_spec _ _ _ Hfd) as [Hfree Hrng].
  destruct (sys_dup_ok oldfd fd d s Hq Hold Hfd) as (s' & R & T & W & F & _).
  exists fd, s'. repeat split; try assumption; try apply W.
  apply Z.eqb_neq. lia.
Qed.









(** *** When something fails *)

(** C1 at a failing input: [cat < missing] when the file does not exist.
    The three saves are made on descriptors 3, 4 and 5, [open] fails, and
    [lay_redirection] leaves through the label [err], which closes nothing:
    the evaluation returns -1 with the standard descriptors as before but
    with the three saves still open. *)
Theorem redirection_missing_file_leaks_saves :
  let s := shell_init (simple_kernel 4242 0) in
  let r := expression_handler cat_from_missing JFG 0 s in
  r.1 = Val (-1)
  /\ trace r.2 = [Stderr ("missing: No such file or directory" +:+ nl)]
  /\ (fdt r.2 !! 0 = fdt s !! 0 /\ fdt r.2 !! 1 = fdt s !! 1
      /\ fdt r.2 !! 2 = fdt s !! 2)
  /\ (fdt s !! 3 = None /\ fdt s !! 4 = None /\ fdt s !! 5 = None)
  /\ (fdt r.2 !! 3 = Some 1%nat /\ fdt r.2 !! 4 = Some 0%nat
      /\ fdt r.2 !! 5 = Some 2%nat)
  /\ fdt r.2 <> fdt s.
Proof.
  assert (H3 : fdt (expression_handler cat_from_missing JFG 0
                      (shell_init (simple_kernel 4242 0))).2 !! 3 = Some 1%nat)
    by reflexivity.
  repeat split; try reflexivity.
  intros E. rewrite E in H3. discriminate H3.
Qed.

(** The ladder does not restore either: in [ls &> log], when the second
    [dup2] of the installation is interrupted, the evaluation leaves through
    [err2] with [stderr] on the description of the file and the three saves
    open. *)
Example redirection_interrupted_leaves_stderr_redirected :
  let s := shell_init interrupt_kernel in
  let r := expression_handler ls_into_log JFG 0 s in
  r.1 = Val (-1)
  /\ fdt s !! 2 = Some 2%nat
  /\ fdt r.2 !! 2 = Some 3%nat
  /\ fdt r.2 !! 3 = Some 1%nat.
Proof. repeat split; reflexivity. Qed.

(** When nothing fails, a redirection and a pipeline give the descriptor
    table back as it was. *)
Example redirection_success_restores :
  let s := shell_init (simple_kernel 4242 0) in
  (expression_handler ls_into_log JFG 0 s).1 = Val 0
  /\ fdt (expression_handler ls_into_log JFG 0 s).2 = fdt s.
Proof. split; reflexivity. Qed.

Example pipeline_success_restores :
  let s := shell_init (simple_kernel 4242 0) in
  (expression_handler ls_pipe_wc JFG 0 s).1 = Val 0
  /\ fdt (expression_handler ls_pipe_wc JFG 0 s).2 = fdt s.
Proof. split; reflexivity. Qed.

(** * Further properties *)

(** ** The job table *)

Lemma job_at_alter_eq (g : job -> job) (i : nat) (s : shell) :
  (i < length (job_list s))%nat ->
  job_at (set_job_list (alter g i (job_list s)) s) i = g (job_at s i).
Proof.
  intros Hi. unfold job_at. simpl.
  destruct (lookup_lt_is_Some_2 (job_list s) i Hi) as [j Hj].
  now rewrite list_lookup_alter_eq, Hj.
Qed.

Lemma job_at_alter_ne (g : job -> job) (i k : nat) (s : shell) :
  i <> k ->
  job_at (set_job_list (alter g i (job_list s)) s) k = job_at s k.
Proof.
  intros Hne. unfold job_at. simpl. now rewrite list_lookup_alter_ne.
Qed.

Lemma scan_slots_first (P : job -> bool) (l : list job) (n : nat) :
  forall i0 i : nat,
    scan_slots P l n i0 = Some i ->
    forall k, (i0 <= k < i)%nat -> P (default job_zero (l !! k)) = false.
Proof.
  induction n as [|n IH]; intros i0 i H k Hk; simpl in H; [discriminate |].
  destruct (P (default job_zero (l !! i0))) eqn:HP.
  - injection H as <-. lia.
  - destruct (decide (k = i0)) as [-> | Hne]; [exact HP |].
    apply (IH (S i0) i H). lia.
Qed.

Lemma scan_slots_found (P : job -> bool) (l : list job) (n i0 k : nat) :
  (i0 <= k < i0 + n)%nat ->
  P (default job_zero (l !! k)) = true ->
  exists i, scan_slots P l n i0 = Some i /\ (i <= k)%nat.
Proof.
  intros Hk HP.
  destruct (scan_slots P l n i0) as [i|] eqn:Hscan.
  - exists i. split; [reflexivity |].
    destruct (le_lt_dec i k) as [Hle | Hlt]; [exact Hle |].
    destruct (scan_slots_some _ _ _ _ _ Hscan) as [Hi _].
    rewrite (scan_slots_first _ _ _ _ _ Hscan k) in HP by lia. discriminate.
  - rewrite (scan_slots_none_inv _ _ _ _ Hscan k Hk) in HP. discriminate.
Qed.

Lemma register_job_run (p g bg : Z) (name : option string)
    (k : nat) (s : shell) :
  length (job_list s) = MAXJOBS ->
  (k < MAXJOBS)%nat ->
  pid (job_at s k) = 0 ->
  exists i,
    (i <= k)%nat
    /\ register_job p g bg name s
       = (Val (Some i), set_job_list (alter (registered i p g bg name) i (job_list s)) s)
    /\ pid (job_at s i) = 0
    /\ (forall m, (m < i)%nat -> pid (job_at s m) <> 0)
    /\ (let j := job_at (register_job p g bg name s).2 i in
        jid j = Z.of_nat i /\ pid j = p /\ pgid j = g /\ background j = bg
        /\ state j = JRUNNING
        /\ status j = status (job_at s i) /\ termsig j = termsig (job_at s i))
    /\ (forall m, m <> i ->
          job_at (register_job p g bg name s).2 m = job_at s m).
Proof.
  intros Hlen Hk Hfree.
  destruct (scan_slots_found (fun j => pid j =? 0) (job_list s) MAXJOBS 0 k)
    as (i & Hscan & Hik); [lia | now apply Z.eqb_eq |].
  destruct (scan_slots_some _ _ _ _ _ Hscan) as [Hi Hpi].
  assert (Hrun : register_job p g bg name s
                 = (Val (Some i),
                    set_job_list (alter (registered i p g bg name) i (job_list s)) s)).
  { unfold register_job, update_job. munfold. now rewrite Hscan. }
  exists i. rewrite Hrun. cbn [snd].
  split; [exact Hik |]. split; [reflexivity |].
  split; [now apply Z.eqb_eq in Hpi |]. split; [| split].
  - intros m Hm. apply Z.eqb_neq.
    apply (scan_slots_first _ _ _ _ _ Hscan m). lia.
  - rewrite job_at_alter_eq by lia. repeat split.
  - intros m Hm. now apply job_at_alter_ne.
Qed.

(** X1: on a table with a free slot, [register_job] takes the first free
    slot and only that one: it writes the ids, the background flag, the
    state [JRUNNING] and the name there, leaves [status] and [termsig] of
    the slot as they were, and touches neither the other slots nor
    [last_job], [fg_job] or the output. *)
Theorem register_job_first_free (p g bg : Z) (name : option string)
    (k : nat) (s : shell) :
  length (job_list s) = MAXJOBS ->
  (k < MAXJOBS)%nat ->
  pid (job_at s k) = 0 ->
  exists i s',
    register_job p g bg name s = (Val (Some i), s')
    /\ (i <= k)%nat
    /\ pid (job_at s i) = 0
    /\ (forall m, (m < i)%nat -> pid (job_at s m) <> 0)
    /\ job_at s' i
       = mk_job (Z.of_nat i) p g bg JRUNNING (status (job_at s i))
           (termsig (job_at s i)) (store_cmd name (cmd (job_at s i)))
    /\ (forall m, m <> i -> job_at s' m = job_at s m)
    /\ last_job s' = last_job s /\ fg_job s' = fg_job s /\ trace s' = trace s.
Proof.
  intros Hlen Hk Hfree.
  destruct (register_job_run p g bg name k s Hlen Hk Hfree)
    as (i & Hik & Hrun & Hpi & Hbelow & _ & _).
  eexists i, _. split; [exact Hrun |].
  split; [exact Hik |]. split; [exact Hpi |]. split; [exact Hbelow |].
  split; [| split].
  - rewrite job_at_alter_eq by lia. reflexivity.
  - intros m Hm. apply job_at_alter_ne. intros E. apply Hm. now rewrite E.
  - repeat split.
Qed.

Lemma register_job_first_free_witness :
  let s := shell_foreground (simple_kernel 4242 0) in
  length (job_list s) = MAXJOBS
  /\ (5 < MAXJOBS)%nat
  /\ pid (job_at s 5) = 0
  /\ exists i s',
       register_job 4243 4243 JBG (Some "ls"%string) s = (Val (Some i), s')
       /\ (i <= 5)%nat /\ pid (job_at s' i) = 4243.
Proof.
  intros s.
  assert (Hlen : length (job_list s) = MAXJOBS) by reflexivity.
  assert (Hk : (5 < MAXJOBS)%nat) by (unfold MAXJOBS; lia).
  assert (Hfree : pid (job_at s 5) = 0) by reflexivity.
  destruct (register_job_first_free 4243 4243 JBG (Some "ls"%string) 5 s
              Hlen Hk Hfree) as (i & s' & Hrun & Hik & _ & _ & Hjob & _).
  split; [exact Hlen |]. split; [exact Hk |]. split; [exact Hfree |].
  exists i, s'. split; [exact Hrun |]. split; [exact Hik |].
  rewrite Hjob. reflexivity.
Defined.

Lemma scan_slots_exact (P : job -> bool) (l : list job) (n i0 i : nat) :
  (i0 <= i < i0 + n)%nat ->
  P (default job_zero (l !! i)) = true ->
  (forall k, (i0 <= k < i)%nat -> P (default job_zero (l !! k)) = false) ->
  scan_slots P l n i0 = Some i.
Proof.
  intros Hi HP Hbelow.
  destruct (scan_slots_found P l n i0 i Hi HP) as (i' & Hscan & Hle).
  destruct (scan_slots_some _ _ _ _ _ Hscan) as [Hi' HP'].
  destruct (decide (i' = i)) as [-> | Hne]; [exact Hscan |].
  rewrite Hbelow in HP' by lia. discriminate.
Qed.

(** X2: registering a process id that is in no slot, on a table with a free
    slot, and looking it up with [find_job] gives the slot that was taken;
    before the registration [find_job] finds nothing. *)
Theorem register_then_find_job (p g bg : Z) (name : option string)
    (k : nat) (s : shell) :
  length (job_list s) = MAXJOBS ->
  (k < MAXJOBS)%nat ->
  pid (job_at s k) = 0 ->
  p <> 0 ->
  (forall m, (m < MAXJOBS)%nat -> pid (job_at s m) <> p) ->
  exists i s',
    register_job p g bg name s = (Val (Some i), s')
    /\ find_job p s' = (Val (Some i), s')
    /\ (find_job p s).1 = Val None.
Proof.
  intros Hlen Hk Hfree Hp Hnew.
  destruct (register_job_run p g bg name k s Hlen Hk Hfree)
    as (i & Hik & Hrun & Hpi & Hbelow & Hfields & Hother).
  rewrite Hrun in Hfields, Hother. cbn [snd] in Hfields, Hother.
  destruct Hfields as (_ & Hpid & _).
  eexists i, _. split; [exact Hrun |]. split.
  - unfold find_job. munfold. f_equal. f_equal.
    apply scan_slots_exact; [lia | | ].
    + fold (job_at (set_job_list
                      (alter (registered i p g bg name) i (job_list s)) s) i).
      rewrite Hpid. apply Z.eqb_refl.
    + intros m Hm.
      fold (job_at (set_job_list
                      (alter (registered i p g bg name) i (job_list s)) s) m).
      rewrite Hother by lia. apply Z.eqb_neq, Hnew. lia.
  - unfold find_job. munfold. cbn [fst]. f_equal.
    apply scan_slots_none. intros m Hm.
    fold (job_at s m). apply Z.eqb_neq, Hnew. lia.
Qed.

Lemma register_then_find_job_witness :
  let s := shell_init (simple_kernel 4242 0) in
  length (job_list s) = MAXJOBS
  /\ pid (job_at s 0) = 0
  /\ exists i s',
       register_job 4242 4242 JBG (Some "ls"%string) s = (Val (Some i), s')
       /\ find_job 4242 s' = (Val (Some i), s')
       /\ (find_job 4242 s).1 = Val None.
Proof.
  intros s.
  assert (Hlen : length (job_list s) = MAXJOBS) by reflexivity.
  assert (Hk : (0 < MAXJOBS)%nat) by (unfold MAXJOBS; lia).
  assert (Hfree : pid (job_at s 0) = 0) by reflexivity.
  assert (Hp : 4242 <> 0) by lia.
  assert (Hnew : forall m, (m < MAXJOBS)%nat -> pid (job_at s m) <> 4242).
  { intros m Hm.
    do 32 (destruct m as [|m]; [vm_compute; discriminate |]).
    unfold MAXJOBS in Hm. lia. }
  split; [exact Hlen |]. split; [exact Hfree |].
  exact (register_then_find_job 4242 4242 JBG (Some "ls"%string) 0 s
           Hlen Hk Hfree Hp Hnew).
Defined.

(** X3: [unregister_job] frees the slot and only clears [pid], [jid],
    [status] and [termsig] ([state], [pgid], [background] and the name stay
    as they were); the other slots are untouched, and the next registration
    takes that slot or a lower one. *)
Theorem unregister_then_register_reuses (i : nat) (p g bg : Z)
    (name : option string) (s : shell) :
  length (job_list s) = MAXJOBS ->
  (i < MAXJOBS)%nat ->
  let s' := (unregister_job i s).2 in
  (unregister_job i s).1 = Val tt
  /\ (let j := job_at s' i in
      pid j = 0 /\ jid j = 0 /\ status j = 0 /\ termsig j = 0
      /\ state j = state (job_at s i) /\ pgid j = pgid (job_at s i)
      /\ background j = background (job_at s i) /\ cmd j = cmd (job_at s i))
  /\ (forall m, m <> i -> job_at s' m = job_at s m)
  /\ exists i', (i' <= i)%nat /\ (register_job p g bg name s').1 = Val (Some i').
Proof.
  intros Hlen Hi s'.
  assert (Hs' : s' = set_job_list
                       (alter (fun j => set_termsig 0 (set_status 0
                                          (set_jid 0 (set_pid 0 j)))) i
                          (job_list s)) s) by reflexivity.
  split; [reflexivity |].
  assert (Hat : job_at s' i
                = set_termsig 0 (set_status 0 (set_jid 0 (set_pid 0 (job_at s i)))))
    by (rewrite Hs'; apply job_at_alter_eq; lia).
  split; [rewrite Hat; repeat split |].
  split; [intros m Hm; rewrite Hs'; now apply job_at_alter_ne |].
  destruct (register_job_run p g bg name i s') as (i' & Hle & Hrun & _).
  - rewrite Hs'. simpl. now rewrite length_alter.
  - exact Hi.
  - now rewrite Hat.
  - exists i'. split; [exact Hle | now rewrite Hrun].
Qed.

Lemma unregister_then_register_reuses_witness :
  let s := shell_foreground (simple_kernel 4242 0) in
  length (job_list s) = MAXJOBS
  /\ (0 < MAXJOBS)%nat
  /\ pid (job_at (unregister_job 0 s).2 0) = 0
  /\ state (job_at (unregister_job 0 s).2 0) = JRUNNING
  /\ exists i', (i' <= 0)%nat
       /\ (register_job 4243 4243 JBG (Some "ls"%string) (unregister_job 0 s).2).1
          = Val (Some i').
Proof.
  intros s.
  assert (Hlen : length (job_list s) = MAXJOBS) by reflexivity.
  assert (Hk : (0 < MAXJOBS)%nat) by (unfold MAXJOBS; lia).
  destruct (unregister_then_register_reuses 0 4243 4243 JBG (Some "ls"%string) s
              Hlen Hk) as (_ & (Hpid & _ & _ & _ & Hst & _) & _ & Hreg).
  split; [exact Hlen |]. split; [exact Hk |]. split; [exact Hpid |].
  split; [rewrite Hst; reflexivity | exact Hreg].
Defined.

Lemma display_job_run (i : nat) (s : shell) :
  exists evs, display_job i s = (Val tt, set_trace (trace s ++ evs) s).
Proof.
  unfold display_job. munfold. cbv zeta.
  destruct (state (job_at s i)); [destruct (negb (termsig (job_at s i) =? 0)) | |];
    eexists; unfold set_trace; simpl; rewrite <- app_assoc; reflexivity.
Qed.

Lemma remove_if_done_spec (notify : Z) (i : nat) (s : shell) :
  exists s',
    remove_if_done notify i s = (Val tt, s')
    /\ dead (job_at s' i) = false
    /\ (forall k, k <> i -> job_at s' k = job_at s k)
    /\ (dead (job_at s i) = false -> job_at s' i = job_at s i)
    /\ (dead (job_at s i) = true -> job_at s' i = unregistered (job_at s i))
    /\ last_job s' = last_job s /\ fg_job s' = fg_job s
    /\ fdt s' = fdt s
    /\ (notify = 0 -> trace s' = trace s).
Proof.
  unfold remove_if_done. rewrite (bind_val get _ s s s eq_refl).
  cbv zeta. fold (dead (job_at s i)).
  destruct (dead (job_at s i)) eqn:Hdead.
  - assert (Hi : (i < length (job_list s))%nat).
    { apply lookup_lt_is_Some. unfold job_at in Hdead.
      destruct (job_list s !! i); [eauto | discriminate]. }
    assert (Hdisp : exists evs,
              (if negb (notify =? 0) && (background (job_at s i) =? JBG)
               then display_job i else mret tt) s
              = (Val tt, set_trace (trace s ++ evs) s)
              /\ (notify = 0 -> evs = [])).
    { destruct (Z.eqb_spec notify 0) as [-> | Hn]; simpl.
      - exists []. rewrite app_nil_r, set_trace_same. now split.
      - destruct (background (job_at s i) =? JBG).
        + destruct (display_job_run i s) as [evs Hevs]. exists evs.
          split; [exact Hevs | contradiction].
        + exists []. rewrite app_nil_r, set_trace_same. now split. }
    destruct Hdisp as (evs & Hdisp & Hevs).
    rewrite (bind_val _ _ _ _ _ Hdisp).
    eexists. split; [reflexivity |].
    unfold unregister_job, update_job. munfold. cbn [snd].
    change (job_list (set_trace (trace s ++ evs) s)) with (job_list s).
    assert (Hat : forall g k,
              job_at (set_job_list (alter g i (job_list s))
                        (set_trace (trace s ++ evs) s)) k
              = job_at (set_job_list (alter g i (job_list s)) s) k)
      by reflexivity.
    repeat split.
    + rewrite Hat, job_at_alter_eq by exact Hi. reflexivity.
    + intros k Hk. rewrite Hat. now apply job_at_alter_ne.
    + discriminate.
    + intros _. rewrite Hat, job_at_alter_eq by exact Hi. reflexivity.
    + intros Hn. simpl. rewrite (Hevs Hn). apply app_nil_r.
  - exists s. repeat split; try reflexivity; try assumption. discriminate.
Qed.

Lemma remove_loop_spec (notify : Z) (n : nat) :
  forall (i0 : nat) (s : shell),
  exists s',
    for_slots n i0 (remove_if_done notify) s = (Val tt, s')
    /\ (forall k, (i0 <= k < i0 + n)%nat -> dead (job_at s' k) = false)
    /\ (forall k, dead (job_at s k) = false -> job_at s' k = job_at s k)
    /\ (forall k, (k < i0 \/ i0 + n <= k)%nat -> job_at s' k = job_at s k)
    /\ (forall k, (i0 <= k < i0 + n)%nat -> dead (job_at s k) = true ->
          job_at s' k = unregistered (job_at s k))
    /\ last_job s' = last_job s /\ fg_job s' = fg_job s
    /\ fdt s' = fdt s
    /\ (notify = 0 -> trace s' = trace s).
Proof.
  induction n as [|n IH]; intros i0 s.
  - exists s. repeat split; try reflexivity; intros; lia.
  - destruct (remove_if_done_spec notify i0 s)
      as (s1 & R1 & D1 & O1 & K1 & U1 & L1 & F1 & T1 & N1).
    destruct (IH (S i0) s1) as (s' & R & D & K & O & U & L & F & T & N).
    exists s'. cbn [for_slots]. rewrite (bind_val _ _ _ _ _ R1).
    split; [exact R |].
    assert (Hi0 : job_at s' i0 = job_at s1 i0) by (apply O; lia).
    repeat split.
    + intros k Hk. destruct (decide (k = i0)) as [-> | Hne].
      * now rewrite Hi0.
      * apply D. lia.
    + intros k Hk. destruct (decide (k = i0)) as [-> | Hne].
      * rewrite Hi0. now apply K1.
      * rewrite K by (rewrite O1 by exact Hne; exact Hk). now apply O1.
    + intros k Hk. rewrite O by lia. apply O1. lia.
    + intros k Hk Hd. destruct (decide (k = i0)) as [-> | Hne].
      * rewrite Hi0. now apply U1.
      * rewrite U; [| lia | rewrite O1 by exact Hne; exact Hd].
        now rewrite O1.
    + congruence.
    + congruence.
    + congruence.
    + intros Hn. rewrite N by exact Hn. now apply N1.
Qed.

(** X4: [remove_old_jobs] always returns; afterwards no slot of the table is
    occupied and done; the slots that were are unregistered, the others are
    untouched; [last_job], [fg_job] and the descriptors are kept, and with
    [notify] zero nothing is written. *)
Theorem remove_old_jobs_sweeps (notify : Z) (s : shell) :
  exists s',
    remove_old_jobs notify s = (Val tt, s')
    /\ (forall k, (k < MAXJOBS)%nat -> dead (job_at s' k) = false)
    /\ (forall k, (k < MAXJOBS)%nat -> dead (job_at s k) = true ->
          job_at s' k = unregistered (job_at s k))
    /\ (forall k, dead (job_at s k) = false -> job_at s' k = job_at s k)
    /\ last_job s' = last_job s /\ fg_job s' = fg_job s
    /\ fdt s' = fdt s
    /\ (notify = 0 -> trace s' = trace s).
Proof.
  destruct (remove_loop_spec notify MAXJOBS 0 s)
    as (s' & R & D & K & _ & U & L & F & T & N).
  exists s'. split; [exact R |].
  repeat split; try assumption.
  - intros k Hk. apply D. lia.
  - intros k Hk. apply U. lia.
Qed.

(** ** What a computation keeps *)

Create HintDb keeps.

Section Frame.
Context {X : Type} (f : shell -> X).

Lemma keeps_ret {A} (a : A) : keeps f (mret a).
Proof. intros s. reflexivity. Qed.

Lemma keeps_get : keeps f get.
Proof. intros s. reflexivity. Qed.

Lemma keeps_halt {A} (h : halt) : keeps f (halt_with (A := A) h).
Proof. intros s. reflexivity. Qed.

Lemma keeps_bind {A B} (m : M A) (k : A -> M B) :
  keeps f m -> (forall a, keeps f (k a)) -> keeps f (m ≫= k).
Proof.
  intros Hm Hk s. unfold mbind, M_bind.
  specialize (Hm s). destruct (m s) as [[a | h] s1]; simpl in *.
  - now rewrite Hk.
  - exact Hm.
Qed.

Lemma keeps_modify (g : shell -> shell) :
  (forall s, f (g s) = f s) -> keeps f (modify g).
Proof. intros H s. apply H. Qed.

Lemma keeps_for_slots (body : nat -> M unit) (n : nat) :
  (forall i, keeps f (body i)) -> forall i0, keeps f (for_slots n i0 body).
Proof.
  intros Hb. induction n as [|n IH]; intros i0; simpl.
  - apply keeps_ret.
  - apply keeps_bind; [apply Hb | intros _; apply IH].
Qed.

(** What [f] does not look at. *)
Hypothesis Hclock : forall v s, f (set_clock v s) = f s.
Hypothesis Herrno : forall v s, f (set_errno v s) = f s.
Hypothesis Htrace : forall v s, f (set_trace v s) = f s.
Hypothesis Hhandlers : forall v s, f (set_handlers v s) = f s.

Ltac keeps_step :=
  first
    [ apply keeps_ret | apply keeps_get | apply keeps_halt
    | apply keeps_bind; [| intros ?]
    | apply keeps_modify; intros;
      rewrite ?Hclock, ?Herrno, ?Htrace, ?Hhandlers; reflexivity
    | progress cbv zeta
    | match goal with
      | |- keeps _ (if ?c then _ else _) => destruct c
      | |- keeps _ (match ?x with _ => _ end) => destruct x
      end ].

Lemma keeps_tick : keeps f tick.
Proof. intros s. apply Hclock. Qed.

Lemma keeps_emit (e : event) : keeps f (emit e).
Proof. unfold emit. repeat keeps_step. Qed.

Lemma keeps_fail {A} (e : errno_t) (r : A) : keeps f (fail e r).
Proof. unfold fail. repeat keeps_step. Qed.

Lemma keeps_perror (msg : string) : keeps f (perror msg).
Proof. unfold perror, print_err. repeat first [apply keeps_emit | keeps_step]. Qed.

Lemma keeps_print_out (t : string) : keeps f (print_out t).
Proof. apply keeps_emit. Qed.

Lemma keeps_print_err (t : string) : keeps f (print_err t).
Proof. apply keeps_emit. Qed.

Ltac keeps_prim :=
  first [ apply keeps_tick | apply keeps_emit | apply keeps_fail
        | apply keeps_perror | apply keeps_print_out | apply keeps_print_err
        | keeps_step ].

Lemma keeps_sys_kill (t sg : Z) : keeps f (sys_kill t sg).
Proof. unfold sys_kill. repeat keeps_prim. Qed.

Lemma keeps_sys_setpgid (p g : Z) : keeps f (sys_setpgid p g).
Proof. unfold sys_setpgid. repeat keeps_prim. Qed.

Lemma keeps_sys_tcsetpgrp (fd g : Z) : keeps f (sys_tcsetpgrp fd g).
Proof. unfold sys_tcsetpgrp. repeat keeps_prim. Qed.

Lemma keeps_sys_chdir (d : string) : keeps f (sys_chdir d).
Proof. unfold sys_chdir. repeat keeps_prim. Qed.

Lemma keeps_sys_sigaction (sg : Z) (h : handler_t) : keeps f (sys_sigaction sg h).
Proof. unfold sys_sigaction. repeat keeps_prim. Qed.

Lemma keeps_sys_fork (t : child_task) : keeps f (sys_fork t).
Proof. unfold sys_fork. repeat keeps_prim. Qed.

Lemma keeps_sys_waitpid (p o : Z) : keeps f (sys_waitpid p o).
Proof. unfold sys_waitpid. repeat keeps_prim. Qed.

Lemma keeps_sys_execvp (n : option string) (a : list string) :
  keeps f (sys_execvp n a).
Proof. unfold sys_execvp. repeat keeps_prim. Qed.

Lemma keeps_sys_getpid : keeps f sys_getpid.
Proof. unfold sys_getpid. repeat keeps_prim. Qed.

Lemma keeps_register_signals (h : handler_t) : keeps f (register_signals h).
Proof.
  unfold register_signals. induction SIGREGISTERED as [|sg l IH]; simpl.
  - apply keeps_ret.
  - apply keeps_bind; [apply keeps_sys_sigaction | intros r].
    destruct (negb (r =? 0)); [apply keeps_perror | exact IH].
Qed.

(** *** The job table and the signal handlers *)

Hypothesis Hlast : forall v s, f (set_last_job v s) = f s.
Hypothesis Hfg : forall v s, f (set_fg_job v s) = f s.
Hypothesis Hstate : forall i v s,
  f (set_job_list (alter (set_state v) i (job_list s)) s) = f s.
Hypothesis Hstatus : forall i v s,
  f (set_job_list (alter (set_status v) i (job_list s)) s) = f s.
Hypothesis Htermsig : forall i v s,
  f (set_job_list (alter (set_termsig v) i (job_list s)) s) = f s.
Hypothesis Hunregister : forall i s,
  f (set_job_list (alter unregistered i (job_list s)) s) = f s.

#[local] Hint Resolve keeps_tick keeps_emit keeps_fail keeps_perror
  keeps_print_out keeps_print_err keeps_sys_kill keeps_sys_setpgid
  keeps_sys_tcsetpgrp keeps_sys_chdir keeps_sys_sigaction keeps_sys_fork
  keeps_sys_waitpid keeps_sys_execvp keeps_sys_getpid keeps_register_signals
  : keeps.

Ltac keeps_auto :=
  repeat first
    [ solve [auto with keeps nocore]
    | apply keeps_for_slots; intros ?
    | apply keeps_modify; intros;
      first [ apply Hlast | apply Hfg | apply Hstate | apply Hstatus
            | apply Htermsig | apply Hunregister ]
    | keeps_step ].

Lemma keeps_unregister_job (i : nat) : keeps f (unregister_job i).
Proof. unfold unregister_job, update_job. keeps_auto. Qed.

Lemma keeps_display_job (i : nat) : keeps f (display_job i).
Proof. unfold display_job. keeps_auto. Qed.

Lemma keeps_set_status_job (i : nat) (w : Z) : keeps f (set_status_job i w).
Proof. unfold set_status_job, update_job. keeps_auto. Qed.

Lemma keeps_continue_if_stopped (i : nat) : keeps f (continue_if_stopped i).
Proof. unfold continue_if_stopped. keeps_auto. Qed.

#[local] Hint Resolve keeps_unregister_job keeps_display_job
  keeps_set_status_job keeps_continue_if_stopped : keeps.

Lemma keeps_send_to_foreground (i : nat) : keeps f (send_to_foreground i).
Proof. unfold send_to_foreground, update_job. keeps_auto. Qed.

Lemma keeps_send_to_background (i : nat) : keeps f (send_to_background i).
Proof. unfold send_to_background, update_job. keeps_auto. Qed.

#[local] Hint Resolve keeps_send_to_foreground keeps_send_to_background : keeps.

Lemma keeps_launch_job (i : nat) (n : Z) : keeps f (launch_job i n).
Proof. unfold launch_job, update_job. keeps_auto. Qed.

Lemma keeps_remove_old_jobs (n : Z) : keeps f (remove_old_jobs n).
Proof. unfold remove_old_jobs. keeps_auto. Qed.

Lemma keeps_grim_reaper : keeps f grim_reaper.
Proof. unfold grim_reaper. keeps_auto. Qed.

Lemma keeps_resume_job (t : nat) (bg : Z) : keeps f (resume_job t bg).
Proof. unfold resume_job. keeps_auto. Qed.

Lemma keeps_default_target (bg : Z) : keeps f (default_target bg).
Proof. unfold default_target, pick_most_recent. keeps_auto. Qed.

#[local] Hint Resolve keeps_launch_job keeps_remove_old_jobs
  keeps_grim_reaper keeps_resume_job keeps_default_target : keeps.

Lemma keeps_cmd_jobctrl (name : option string) (bg : Z) :
  keeps f (cmd_jobctrl name bg).
Proof. unfold cmd_jobctrl. keeps_auto. Qed.

#[local] Hint Resolve keeps_cmd_jobctrl : keeps.

Hypothesis Hbackground : forall i v s,
  f (set_job_list (alter (set_background v) i (job_list s)) s) = f s.

Lemma keeps_suspend_job (i : nat) : keeps f (suspend_job i).
Proof.
  unfold suspend_job, update_job.
  repeat first [ apply keeps_modify; intros; apply Hbackground | progress keeps_auto ].
Qed.

#[local] Hint Resolve keeps_suspend_job : keeps.

Lemma keeps_sig_handler (signo : Z) : keeps f (sig_handler signo).
Proof. unfold sig_handler. keeps_auto. Qed.

(** *** Built-ins and the launcher *)

Hypothesis Hregister : forall i p g bg name s,
  f (set_job_list (alter (registered i p g bg name) i (job_list s)) s) = f s.

Lemma keeps_register_job (p g bg : Z) (name : option string) :
  keeps f (register_job p g bg name).
Proof.
  unfold register_job, update_job.
  repeat first [ apply keeps_modify; intros; apply Hregister | progress keeps_auto ].
Qed.

Lemma keeps_echo_args (args : list string) : keeps f (echo_args args).
Proof. induction args as [|a rest IH]; simpl; keeps_auto. Qed.

Lemma keeps_dipslay_help : keeps f dipslay_help.
Proof.
  unfold dipslay_help. keeps_auto.
Qed.

Lemma keeps_job_table_full : keeps f job_table_full.
Proof. unfold job_table_full. keeps_auto. Qed.

#[local] Hint Resolve keeps_register_job keeps_echo_args keeps_dipslay_help
  keeps_job_table_full : keeps.

Lemma keeps_internal_cmd (name : string) (argv : list string) :
  keeps f (internal_cmd name argv).
Proof. unfold internal_cmd, EndOfFile. keeps_auto. Qed.

#[local] Hint Resolve keeps_internal_cmd : keeps.

Lemma keeps_start_cmd (name : string) (argv : list string) (o n : Z) :
  keeps f (start_cmd name argv o n).
Proof. unfold start_cmd. keeps_auto. Qed.

Lemma keeps_sequence_foreground (type : expr_t) (eg ed : Z -> Z -> M Z) (o : Z) :
  (forall o n, keeps f (eg o n)) -> (forall o n, keeps f (ed o n)) ->
  keeps f (sequence_foreground type eg ed o).
Proof. intros Hg Hd. unfold sequence_foreground. keeps_auto; auto. Qed.

Lemma keeps_start_sequence (e : Expression) (type : expr_t)
    (eg ed : Z -> Z -> M Z) (o n : Z) :
  (forall o n, keeps f (eg o n)) -> (forall o n, keeps f (ed o n)) ->
  keeps f (start_sequence e type eg ed o n).
Proof.
  pose proof keeps_sequence_foreground as Hseq.
  intros Hg Hd. unfold start_sequence. keeps_auto.
Qed.

#[local] Hint Resolve keeps_start_cmd keeps_start_sequence : keeps.

(** An expression without pipeline or redirection. *)
Lemma keeps_expression_handler_plain (e : Expression) :
  plain e = true -> forall o n, keeps f (expression_handler e o n).
Proof.
  induction e as [|type g IHg d IHd args]; intros Hplain o n; simpl.
  - apply keeps_halt.
  - simpl in Hplain.
    apply andb_true_iff in Hplain as [Hplain Hd].
    apply andb_true_iff in Hplain as [Htype Hg].
    destruct type; try discriminate Htype; simpl; keeps_auto; auto.
Qed.

(** *** Descriptors, pipelines and redirections *)

Hypothesis Hfdt : forall v s, f (set_fdt v s) = f s.
Hypothesis Hnext_desc : forall v s, f (set_next_desc v s) = f s.
Hypothesis Hfiles : forall v s, f (set_files v s) = f s.

Ltac keeps_fd :=
  repeat first
    [ apply keeps_modify; intros;
      rewrite ?Hfiles, ?Hnext_desc, ?Hfdt; reflexivity
    | progress keeps_auto ].

Lemma keeps_sys_dup (fd : Z) : keeps f (sys_dup fd).
Proof. unfold sys_dup. keeps_fd. Qed.

Lemma keeps_sys_dup2 (a b : Z) : keeps f (sys_dup2 a b).
Proof. unfold sys_dup2. keeps_fd. Qed.

Lemma keeps_sys_close (fd : Z) : keeps f (sys_close fd).
Proof. unfold sys_close. keeps_fd. Qed.

Lemma keeps_sys_open (p : option string) (fl md : Z) : keeps f (sys_open p fl md).
Proof. unfold sys_open. keeps_fd. Qed.

Lemma keeps_sys_pipe2 (fl : Z) : keeps f (sys_pipe2 fl).
Proof. unfold sys_pipe2. keeps_fd. Qed.

#[local] Hint Resolve keeps_sys_dup keeps_sys_dup2 keeps_sys_close
  keeps_sys_open keeps_sys_pipe2 : keeps.

Lemma keeps_lay_pipeline (eg ed : Z -> Z -> M Z) (o : Z) :
  (forall o n, keeps f (eg o n)) -> (forall o n, keeps f (ed o n)) ->
  keeps f (lay_pipeline eg ed o).
Proof. intros Hg Hd. unfold lay_pipeline, pipeline_err. keeps_auto. Qed.

Lemma keeps_redirection_install (type : expr_t) (fd : Z) :
  keeps f (redirection_install type fd).
Proof. unfold redirection_install. keeps_auto. Qed.

#[local] Hint Resolve keeps_redirection_install : keeps.

Lemma keeps_lay_redirection (type : expr_t) (name : option string)
    (eg : Z -> Z -> M Z) (o : Z) :
  (forall o n, keeps f (eg o n)) ->
  keeps f (lay_redirection type name eg o).
Proof.
  intros Hg.
  unfold lay_redirection, redirection_err4, redirection_err3,
    redirection_err2, redirection_err.
  keeps_auto.
Qed.

#[local] Hint Resolve keeps_lay_pipeline keeps_lay_redirection : keeps.

Lemma keeps_expression_handler (e : Expression) :
  forall o n, keeps f (expression_handler e o n).
Proof.
  induction e as [|type g IHg d IHd args]; intros o n; simpl.
  - apply keeps_halt.
  - destruct type; simpl; keeps_auto.
Qed.
End Frame.

(** ** Computations that always return *)

Lemma returns_ret {A} (a : A) : returns (mret a).
Proof. intros s. now exists a. Qed.

Lemma returns_get : returns get.
Proof. intros s. now exists s. Qed.

Lemma returns_modify (g : shell -> shell) : returns (modify g).
Proof. intros s. now exists tt. Qed.

Lemma returns_tick : returns tick.
Proof. intros s. now exists (clock s). Qed.

Lemma returns_bind {A B} (m : M A) (k : A -> M B) :
  returns m -> (forall a, returns (k a)) -> returns (m ≫= k).
Proof.
  intros Hm Hk s. unfold mbind, M_bind.
  destruct (Hm s) as [a Ha]. destruct (m s) as [o s1]. simpl in Ha. subst o.
  apply Hk.
Qed.

Lemma returns_for_slots (body : nat -> M unit) (n : nat) :
  (forall i, returns (body i)) -> forall i0, returns (for_slots n i0 body).
Proof.
  intros Hb. induction n as [|n IH]; intros i0; simpl.
  - apply returns_ret.
  - apply returns_bind; [apply Hb | intros _; apply IH].
Qed.

Create HintDb returns.
#[local] Hint Resolve returns_ret returns_get returns_modify returns_tick : returns.

Ltac returns_auto :=
  repeat first
    [ solve [auto with returns nocore]
    | apply returns_for_slots; intros ?
    | apply returns_bind; [| intros ?]
    | progress cbv zeta
    | match goal with
      | |- returns (if ?c then _ else _) => destruct c
      | |- returns (match ?x with _ => _ end) => destruct x
      end ].

Lemma returns_emit (e : event) : returns (emit e).
Proof. unfold emit. returns_auto. Qed.
Lemma returns_fail {A} (e : errno_t) (r : A) : returns (fail e r).
Proof. unfold fail. returns_auto. Qed.
#[local] Hint Resolve returns_emit returns_fail : returns.

Lemma returns_print_out (t : string) : returns (print_out t).
Proof. apply returns_emit. Qed.
Lemma returns_print_err (t : string) : returns (print_err t).
Proof. apply returns_emit. Qed.
#[local] Hint Resolve returns_print_out returns_print_err : returns.

Lemma returns_perror (msg : string) : returns (perror msg).
Proof. unfold perror. returns_auto. Qed.
Lemma returns_sys_kill (t sg : Z) : returns (sys_kill t sg).
Proof. unfold sys_kill. returns_auto. Qed.
Lemma returns_sys_setpgid (p g : Z) : returns (sys_setpgid p g).
Proof. unfold sys_setpgid. returns_auto. Qed.
Lemma returns_sys_tcsetpgrp (fd g : Z) : returns (sys_tcsetpgrp fd g).
Proof. unfold sys_tcsetpgrp. returns_auto. Qed.
Lemma returns_sys_sigaction (sg : Z) (h : handler_t) : returns (sys_sigaction sg h).
Proof. unfold sys_sigaction. returns_auto. Qed.
Lemma returns_sys_waitpid (p o : Z) : returns (sys_waitpid p o).
Proof. unfold sys_waitpid. returns_auto. Qed.
Lemma returns_sys_getpid : returns sys_getpid.
Proof. unfold sys_getpid. returns_auto. Qed.
Lemma returns_sys_fork (t : child_task) : returns (sys_fork t).
Proof. unfold sys_fork. returns_auto. Qed.
#[local] Hint Resolve returns_perror returns_sys_kill returns_sys_setpgid
  returns_sys_tcsetpgrp returns_sys_sigaction returns_sys_waitpid
  returns_sys_getpid returns_sys_fork : returns.

Lemma returns_register_signals (h : handler_t) : returns (register_signals h).
Proof.
  unfold register_signals. induction SIGREGISTERED as [|sg l IH]; simpl;
    returns_auto.
Qed.
Lemma returns_update_job (i : nat) (g : job -> job) : returns (update_job i g).
Proof. unfold update_job. returns_auto. Qed.
#[local] Hint Resolve returns_register_signals returns_update_job : returns.

Lemma returns_unregister_job (i : nat) : returns (unregister_job i).
Proof. unfold unregister_job. returns_auto. Qed.
Lemma returns_display_job (i : nat) : returns (display_job i).
Proof. unfold display_job. returns_auto. Qed.
Lemma returns_set_status_job (i : nat) (w : Z) : returns (set_status_job i w).
Proof. unfold set_status_job. returns_auto. Qed.
Lemma returns_continue_if_stopped (i : nat) : returns (continue_if_stopped i).
Proof. unfold continue_if_stopped. returns_auto. Qed.
#[local] Hint Resolve returns_unregister_job returns_display_job
  returns_set_status_job returns_continue_if_stopped : returns.

Lemma returns_send_to_foreground (i : nat) : returns (send_to_foreground i).
Proof. unfold send_to_foreground. returns_auto. Qed.
Lemma returns_send_to_background (i : nat) : returns (send_to_background i).
Proof. unfold send_to_background. returns_auto. Qed.
Lemma returns_suspend_job (i : nat) : returns (suspend_job i).
Proof. unfold suspend_job. returns_auto. Qed.
Lemma returns_register_job (p g bg : Z) (name : option string) :
  returns (register_job p g bg name).
Proof. unfold register_job. returns_auto. Qed.
#[local] Hint Resolve returns_send_to_foreground returns_send_to_background
  returns_suspend_job returns_register_job : returns.

Lemma returns_launch_job (i : nat) (n : Z) : returns (launch_job i n).
Proof. unfold launch_job. returns_auto. Qed.
Lemma returns_grim_reaper : returns grim_reaper.
Proof. unfold grim_reaper. returns_auto. Qed.
Lemma returns_remove_old_jobs (n : Z) : returns (remove_old_jobs n).
Proof. unfold remove_old_jobs. returns_auto. Qed.
#[local] Hint Resolve returns_launch_job returns_grim_reaper
  returns_remove_old_jobs : returns.

Lemma returns_sig_handler (signo : Z) : returns (sig_handler signo).
Proof. unfold sig_handler. returns_auto. Qed.
Lemma returns_init_shell : returns init_shell.
Proof. unfold init_shell. returns_auto. Qed.

(** A computation that returns and keeps [f]. *)
Lemma run_frame {A X} (f : shell -> X) (m : M A) (s : shell) :
  returns m -> keeps f m -> exists a s', m s = (Val a, s') /\ f s' = f s.
Proof.
  intros Hr Hk. destruct (Hr s) as [a Ha]. specialize (Hk s).
  destruct (m s) as [o s']. simpl in *. subst o. now exists a, s'.
Qed.

Lemma bind_inv {A B} (m : M A) (k : A -> M B) (s s' : shell) (b : B) :
  (m ≫= k) s = (Val b, s') ->
  exists a s1, m s = (Val a, s1) /\ k a s1 = (Val b, s').
Proof.
  unfold mbind, M_bind. intros H.
  destruct (m s) as [[a | h] s1]; [now exists a, s1 | discriminate].
Qed.

(** ** What an evaluation leaves alone *)

Lemma map_alter_same {Y : Type} (F : job -> Y) (g : job -> job) (l : list job) :
  (forall j, F (g j) = F j) -> forall i : nat, map F (alter g i l) = map F l.
Proof.
  intros H. induction l as [|a l IH]; intros [|i]; simpl; try reflexivity.
  - f_equal. apply H.
  - f_equal. apply IH.
Qed.

(** X5: only [evaluer_expr] writes [laststatus]: whatever the expression
    and however its evaluation ends (return, exit, exec or crash), the
    status that [echo $?] prints is the one of the previous top-level
    evaluation. *)
Theorem expression_handler_keeps_laststatus (e : Expression) (o n : Z) (s : shell) :
  laststatus (expression_handler e o n s).2 = laststatus s.
Proof. apply (keeps_expression_handler laststatus); reflexivity. Qed.

(** X6: only pipelines and redirections touch the descriptor table: the
    evaluation of an expression without pipeline and redirection leaves the
    table as it found it, however it ends. *)
Theorem expression_handler_plain_keeps_fdt (e : Expression) (o n : Z) (s : shell) :
  plain e = true -> fdt (expression_handler e o n s).2 = fdt s.
Proof.
  intros Hplain.
  apply (keeps_expression_handler_plain fdt); try reflexivity. exact Hplain.
Qed.

Lemma expression_handler_plain_keeps_fdt_witness :
  let e := Node SEQUENCE_OU cmd_false cmd_echo_x [] in
  let s := shell_init (simple_kernel 4242 256) in
  plain e = true /\ fdt (expression_handler e JFG 0 s).2 = fdt s.
Proof.
  intros e s. split; [reflexivity |].
  apply (expression_handler_plain_keeps_fdt e JFG 0 s). reflexivity.
Defined.

(** X7: [fg] and [bg] never write the job id, the process id, the process
    group, the background flag or the name of any job, whatever they resume
    and however the resumed job ends. *)
Theorem cmd_jobctrl_keeps_identity (name : option string) (bg : Z) (s : shell) :
  map job_identity (job_list (cmd_jobctrl name bg s).2)
  = map job_identity (job_list s).
Proof.
  apply (keeps_cmd_jobctrl (fun s => map job_identity (job_list s)));
    try reflexivity;
    intros; simpl; now apply map_alter_same.
Qed.

(** X8: the signal handler returns for every signal and under every
    kernel, and never touches the descriptor table, [fg_job], [laststatus]
    or the process group and the name of a job. *)
Theorem sig_handler_frame (signo : Z) (s : shell) :
  exists s',
    sig_handler signo s = (Val tt, s')
    /\ fdt s' = fdt s /\ fg_job s' = fg_job s /\ laststatus s' = laststatus s
    /\ map job_group_name (job_list s') = map job_group_name (job_list s).
Proof.
  destruct (run_frame (fun s => (fdt s, fg_job s, laststatus s,
                                 map job_group_name (job_list s)))
              (sig_handler signo) s) as ([] & s' & R & F).
  - apply returns_sig_handler.
  - apply keeps_sig_handler; try reflexivity;
      intros; simpl; f_equal; now apply map_alter_same.
  - exists s'. split; [exact R |].
    injection F as H1 H2 H3 H4. now repeat split.
Qed.

(** X9: the reaper always returns; it only writes [state], [status],
    [termsig] and, on unregistering, [pid] and [jid]: it keeps [last_job],
    [fg_job], the descriptors and every job's process group, background flag
    and name. *)
Theorem grim_reaper_frame (s : shell) :
  exists s',
    grim_reaper s = (Val tt, s')
    /\ last_job s' = last_job s /\ fg_job s' = fg_job s /\ fdt s' = fdt s
    /\ map (fun j => (pgid j, background j, cmd j)) (job_list s')
       = map (fun j => (pgid j, background j, cmd j)) (job_list s).
Proof.
  destruct (run_frame (fun s => (last_job s, fg_job s, fdt s,
                                 map (fun j => (pgid j, background j, cmd j))
                                   (job_list s)))
              grim_reaper s) as ([] & s' & R & F).
  - apply returns_grim_reaper.
  - apply keeps_grim_reaper; try reflexivity;
      intros; simpl; f_equal; now apply map_alter_same.
  - exists s'. split; [exact R |].
    injection F as H1 H2 H3 H4. now repeat split.
Qed.

(** ** Stepping through a computation *)

Lemma bind_get {B} (k : shell -> M B) (s : shell) : (get ≫= k) s = k s s.
Proof. reflexivity. Qed.

Lemma bind_modify {B} (g : shell -> shell) (k : unit -> M B) (s : shell) :
  (modify g ≫= k) s = k tt (g s).
Proof. reflexivity. Qed.

Lemma bind_ret {A B} (a : A) (k : A -> M B) (s : shell) : (mret a ≫= k) s = k a s.
Proof. reflexivity. Qed.

Lemma keeps_run {A X} (f : shell -> X) (m : M A) (s s' : shell) (o : outcome A) :
  keeps f m -> m s = (o, s') -> f s' = f s.
Proof. intros K H. specialize (K s). now rewrite H in K. Qed.

Lemma job_at_list (s s' : shell) (i : nat) :
  job_list s' = job_list s -> job_at s' i = job_at s i.
Proof. unfold job_at. now intros ->. Qed.

Lemma job_at_alter_list_eq (g : job -> job) (s s' : shell) (i : nat) :
  job_list s' = alter g i (job_list s) -> (i < length (job_list s))%nat ->
  job_at s' i = g (job_at s i).
Proof.
  intros E Hi. rewrite <- (job_at_alter_eq g i s Hi). now apply job_at_list.
Qed.

Lemma job_at_alter_list_ne (g : job -> job) (s s' : shell) (i k : nat) :
  job_list s' = alter g i (job_list s) -> i <> k -> job_at s' k = job_at s k.
Proof.
  intros E Hne. rewrite <- (job_at_alter_ne g i k s Hne). now apply job_at_list.
Qed.

(** The calls on processes and the terminal return and keep [core]. *)
Lemma register_signals_core (h : handler_t) (s : shell) :
  exists s', register_signals h s = (Val tt, s') /\ core s' = core s.
Proof.
  destruct (run_frame core (register_signals h) s) as ([] & s' & R & F);
    [apply returns_register_signals | now apply keeps_register_signals |].
  now exists s'.
Qed.

Lemma sys_setpgid_core (p g : Z) (s : shell) :
  exists r s', sys_setpgid p g s = (Val r, s') /\ core s' = core s.
Proof.
  apply run_frame; [apply returns_sys_setpgid | now apply keeps_sys_setpgid].
Qed.

Lemma sys_tcsetpgrp_core (fd g : Z) (s : shell) :
  exists r s', sys_tcsetpgrp fd g s = (Val r, s') /\ core s' = core s.
Proof.
  apply run_frame; [apply returns_sys_tcsetpgrp | now apply keeps_sys_tcsetpgrp].
Qed.

Lemma continue_if_stopped_core (i : nat) (s : shell) :
  exists s', continue_if_stopped i s = (Val tt, s') /\ core s' = core s.
Proof.
  destruct (run_frame core (continue_if_stopped i) s) as ([] & s' & R & F);
    [apply returns_continue_if_stopped | now apply keeps_continue_if_stopped |].
  now exists s'.
Qed.

(** ** Initialisation and the entry point *)

(** X11: [init_shell] never reports a failure: under every kernel it returns 0,
    with the job table zeroed and [shpid] the process id; it leaves
    [last_job] and [fg_job] as they were, and when it fails to take its own
    process group it leaves [init_flag] as it was. *)
Theorem init_shell_resets (s : shell) :
  exists s',
    init_shell s = (Val 0, s')
    /\ job_list s' = replicate MAXJOBS job_zero
    /\ shpid s' = k_pid (kern s)
    /\ last_job s' = last_job s /\ fg_job s' = fg_job s
    /\ fdt s' = fdt s /\ laststatus s' = laststatus s
    /\ (init_flag s' = 1 \/ init_flag s' = init_flag s)
    /\ (interactive s' = 0 \/ interactive s' = interactive s).
Proof.
  unfold init_shell.
  destruct (register_signals_core SIG_HANDLER s) as (s1 & R1 & F1).
  rewrite (bind_val _ _ _ _ _ R1), bind_modify.
  rewrite (bind_val sys_getpid _ _ _ _ eq_refl), bind_modify.
  change (kern (set_job_list (replicate MAXJOBS job_zero) s1)) with (kern s1).
  set (s2 := set_shpid _ _).
  destruct (sys_setpgid_core (k_pid (kern s1)) (k_pid (kern s1)) s2)
    as (r & s3 & R3 & F3).
  rewrite (bind_val _ _ _ _ _ R3).
  unfold core in F1, F3. subst s2. simpl in F3.
  injection F1 as Fjl Fl Ffg Ffd Fls Fk Fi Fsh Fin.
  injection F3 as Gjl Gl Gfg Gfd Gls Gk Gi Gsh Gin.
  destruct (r <? 0).
  - exists s3. split; [reflexivity |].
    simpl; repeat split; try congruence; right; congruence.
  - destruct (sys_tcsetpgrp_core 0 (k_pid (kern s1)) s3) as (r' & s4 & R4 & F4).
    rewrite (bind_val _ _ _ _ _ R4).
    unfold core in F4. injection F4 as Hjl Hl Hfg Hfd Hls Hk Hi Hsh Hin.
    destruct (r' <? 0); eexists; (split; [reflexivity |]); simpl;
      repeat split; try congruence; try (now left); right; congruence.
Qed.

Ltac keeps_cases :=
  repeat first
    [ apply keeps_ret | apply keeps_print_err; reflexivity
    | progress cbv zeta
    | match goal with
      | |- keeps _ (if ?c then _ else _) => destruct c
      | |- keeps _ (match ?x with _ => _ end) => destruct x
      end ].

(** X10: whenever [evaluer_expr] returns, the status it returns is the
    one it stored in [laststatus], no job is in the foreground any more
    ([fg_job] is null), and no slot of the job table is occupied and done. *)
Theorem evaluer_expr_post (e : Expression) (s s' : shell) (w : Z) :
  evaluer_expr e s = (Val w, s') ->
  fg_job s' = None
  /\ laststatus s' = w
  /\ (forall k, (k < MAXJOBS)%nat -> dead (job_at s' k) = false).
Proof.
  unfold evaluer_expr. intros H.
  rewrite bind_get in H.
  apply bind_inv in H as (u & s1 & _ & H).
  rewrite bind_get in H.
  apply bind_inv in H as (w0 & s2 & _ & H).
  apply bind_inv in H as (u1 & s3 & _ & H).
  cbv zeta in H. rewrite bind_get, bind_modify in H.
  apply bind_inv in H as (u2 & s4 & Hn & H).
  rewrite bind_get in H.
  destruct (remove_loop_spec (interactive s4) MAXJOBS 0 s4) as (s5 & R & D & _).
  change (for_slots MAXJOBS 0 (remove_if_done (interactive s4)))
    with (remove_old_jobs (interactive s4)) in R.
  rewrite (bind_val _ _ _ _ _ R), bind_modify in H.
  injection H as <- <-.
  split; [reflexivity |]. split.
  - change (laststatus (set_fg_job None s5)) with (laststatus s5).
    rewrite (keeps_run laststatus _ _ _ _
               (keeps_remove_old_jobs laststatus
                  ltac:(reflexivity) ltac:(reflexivity) _) R).
    match type of Hn with
    | ?m ?s0 = _ =>
        assert (K : keeps laststatus m) by keeps_cases;
        exact (keeps_run laststatus m s0 _ _ K Hn)
    end.
  - intros k Hk. apply D. lia.
Qed.

Lemma evaluer_expr_post_witness :
  let s := shell_init (simple_kernel 4242 256) in
  let r := evaluer_expr cmd_false s in
  r = (Val 1, r.2) /\ fg_job r.2 = None /\ laststatus r.2 = 1.
Proof.
  intros s r.
  assert (H : evaluer_expr cmd_false s = (Val 1, r.2)) by (vm_compute; reflexivity).
  destruct (evaluer_expr_post cmd_false s r.2 1 H) as (Hfg & Hls & _).
  split; [exact H |]. split; [exact Hfg | exact Hls].
Defined.

(** X30: once the shell is initialised, evaluating an empty command
    always returns, with status 0, and sets [laststatus] to 0, whatever the
    job table holds (no job being in the foreground, as after every
    evaluation). *)
Theorem evaluer_expr_empty (g d : Expression) (args : list string) (s : shell) :
  init_flag s <> 0 ->
  fg_job s = None ->
  exists s',
    evaluer_expr (Node VIDE g d args) s = (Val 0, s')
    /\ laststatus s' = 0 /\ fg_job s' = None /\ fdt s' = fdt s.
Proof.
  intros Hinit Hfg. unfold evaluer_expr.
  rewrite bind_get. apply Z.eqb_neq in Hinit. rewrite Hinit.
  rewrite bind_ret, bind_get.
  change (expression_handler (Node VIDE g d args) JFG (interactive s))
    with (mret (M := M) INTERNSTATUS).
  rewrite bind_ret.
  destruct (run_frame (fun s => (fg_job s, fdt s)) grim_reaper s)
    as ([] & s1 & R1 & F1);
    [apply returns_grim_reaper | now apply keeps_grim_reaper |].
  injection F1 as Ffg Ffd.
  rewrite (bind_val _ _ _ _ _ R1). cbv zeta.
  rewrite bind_get, Ffg, Hfg, bind_modify, bind_ret, bind_get.
  set (s2 := set_laststatus _ s1).
  destruct (run_frame (fun s => (laststatus s, fdt s))
              (remove_old_jobs (interactive s2)) s2)
    as ([] & s3 & R3 & F3);
    [apply returns_remove_old_jobs | now apply keeps_remove_old_jobs |].
  injection F3 as Fls Ffd3.
  rewrite (bind_val _ _ _ _ _ R3), bind_modify.
  eexists. split; [reflexivity |]. simpl.
  split; [exact Fls |]. split; [reflexivity | congruence].
Qed.

Lemma evaluer_expr_empty_witness :
  let s := shell_full (simple_kernel 4242 0) in
  init_flag s <> 0 /\ fg_job s = None
  /\ exists s',
       evaluer_expr (Node VIDE Null Null []) s = (Val 0, s')
       /\ laststatus s' = 0.
Proof.
  intros s.
  assert (Hinit : init_flag s <> 0) by (vm_compute; discriminate).
  assert (Hfg : fg_job s = None) by reflexivity.
  destruct (evaluer_expr_empty Null Null [] s Hinit Hfg) as (s' & Hrun & Hls & _).
  split; [exact Hinit |]. split; [exact Hfg |].
  exists s'. split; [exact Hrun | exact Hls].
Defined.

(** ** Launching in the background *)

Lemma default_alter_eq (g : job -> job) (l : list job) (i : nat) :
  (i < length l)%nat ->
  default job_zero (alter g i l !! i) = g (default job_zero (l !! i)).
Proof.
  intros Hi. destruct (lookup_lt_is_Some_2 l i Hi) as [j Hj].
  now rewrite list_lookup_alter_eq, Hj.
Qed.

Lemma default_alter_ne (g : job -> job) (l : list job) (i k : nat) :
  i <> k -> default job_zero (alter g i l !! k) = default job_zero (l !! k).
Proof. intros Hne. now rewrite list_lookup_alter_ne. Qed.

Lemma background_alter_state (v : state_t) (l : list job) (k i : nat) :
  background (default job_zero (alter (set_state v) k l !! i))
  = background (default job_zero (l !! i)).
Proof.
  destruct (decide (k = i)) as [-> | Hne].
  - rewrite list_lookup_alter_eq. now destruct (l !! i).
  - now rewrite list_lookup_alter_ne.
Qed.

Lemma send_to_background_run (i : nat) (s : shell) :
  exists s',
    send_to_background i s = (Val tt, s')
    /\ last_job s' = Some i
    /\ job_list s' = alter (set_state JRUNNING) i (job_list s)
    /\ fg_job s' = fg_job s /\ fdt s' = fdt s /\ laststatus s' = laststatus s.
Proof.
  unfold send_to_background, update_job.
  destruct (continue_if_stopped_core i s) as (s1 & R1 & F1).
  rewrite (bind_val _ _ _ _ _ R1), bind_modify.
  unfold core in F1. injection F1 as Fjl Fl Ffg Ffd Fls Fk Fi Fsh Fin.
  eexists. split; [reflexivity |]. simpl.
  repeat split; congruence.
Qed.

Lemma launch_job_background_run (i : nat) (notify : Z) (s : shell) :
  background (job_at s i) <> JFG ->
  exists s',
    launch_job i notify s = (Val tt, s')
    /\ last_job s' = Some i
    /\ job_list s'
       = alter (set_state JRUNNING) i (alter (set_state JSTOPPED) i (job_list s))
    /\ fg_job s' = fg_job s /\ fdt s' = fdt s /\ laststatus s' = laststatus s.
Proof.
  intros Hbg. unfold launch_job. unfold update_job at 1.
  rewrite bind_modify, bind_get.
  set (s1 := set_job_list _ s).
  destruct (sys_setpgid_core (pid (job_at s1 i)) (pid (job_at s1 i)) s1)
    as (r & s2 & R2 & F2).
  rewrite (bind_val _ _ _ _ _ R2), bind_get.
  unfold core in F2. injection F2 as Fjl Fl Ffg Ffd Fls Fk Fi Fsh Fin.
  assert (Hb : (background (job_at s2 i) =? JFG) = false).
  { apply Z.eqb_neq. unfold job_at. rewrite Fjl. subst s1. simpl.
    now rewrite background_alter_state. }
  rewrite Hb.
  destruct (send_to_background_run i s2) as (s3 & R3 & L3 & J3 & G3 & D3 & S3).
  rewrite (bind_val _ _ _ _ _ R3).
  assert (Hend : exists s', (if negb (notify =? 0) then
              s0 ← get;
              print_out ("[" +:+ fmt_d (jid (job_at s0 i)) +:+ "] "
                         +:+ fmt_d (pid (job_at s0 i)) +:+ nl)
            else mret tt) s3 = (Val tt, s') /\ core s' = core s3).
  { destruct (negb (notify =? 0)); eexists; split; reflexivity. }
  destruct Hend as (s' & R & F). rewrite R.
  unfold core in F. injection F as Hjl Hl Hfg Hfd Hls Hk Hi Hsh Hin.
  exists s'. split; [reflexivity |]. subst s1. simpl in *.
  repeat split; congruence.
Qed.

(** The end shared by [start_cmd] and [start_sequence] in the parent, on a
    table with a free slot, for a job that is not a foreground job. *)
Lemma register_launch_background (p bg notify : Z) (name : string) (k : nat)
    (s : shell) :
  bg <> JFG ->
  length (job_list s) = MAXJOBS ->
  (k < MAXJOBS)%nat ->
  pid (job_at s k) = 0 ->
  exists i s1 s',
    (i <= k)%nat
    /\ register_job p p bg (Some name) s = (Val (Some i), s1)
    /\ launch_job i notify s1 = (Val tt, s')
    /\ last_job s' = Some i
    /\ fg_job s' = fg_job s /\ fdt s' = fdt s /\ laststatus s' = laststatus s
    /\ job_at s' i
       = mk_job (Z.of_nat i) p p bg JRUNNING
           (status (job_at s i)) (termsig (job_at s i))
           (store_cmd (Some name) (cmd (job_at s i)))
    /\ (forall m, (m < i)%nat -> pid (job_at s m) <> 0)
    /\ (forall m, m <> i -> job_at s' m = job_at s m).
Proof.
  intros Hbg Hlen Hk Hfree.
  destruct (register_job_run p p bg (Some name) k s Hlen Hk Hfree)
    as (i & Hik & Hrun & Hpi & Hbelow & _ & _).
  set (s1 := set_job_list _ s) in Hrun.
  assert (Hi : (i < length (job_list s))%nat) by lia.
  assert (J1 : job_at s1 i = registered i p p bg (Some name) (job_at s i))
    by (apply job_at_alter_eq; exact Hi).
  destruct (launch_job_background_run i notify s1)
    as (s' & R & L & J & G & D & S); [now rewrite J1 |].
  exists i, s1, s'. split; [exact Hik |]. split; [exact Hrun |].
  split; [exact R |]. split; [exact L |].
  split; [exact G |]. split; [exact D |]. split; [exact S |].
  split; [| split; [exact Hbelow |]].
  - unfold job_at. rewrite J. subst s1. simpl.
    rewrite !default_alter_eq by (rewrite ?length_alter; exact Hi).
    reflexivity.
  - intros m Hm. unfold job_at. rewrite J. subst s1. simpl.
    now rewrite !default_alter_ne by (intros E; apply Hm; now rewrite E).
Qed.

(** X12: an external command launched with an option other than [JFG],
    when [fork] returns to the parent and the table has a free slot:
    [start_cmd] returns [INTERNSTATUS]; the job is
    registered in the first free slot with the process id as pid and pgid,
    the option as background flag and the state [JRUNNING], and becomes
    [last_job]; [fg_job], the descriptors, [laststatus] and the other slots
    are as before. *)
Theorem start_cmd_background (name : string) (argv : list string)
    (options notify : Z) (k : nat) (s : shell) :
  external_name name ->
  options <> JFG ->
  k_fork (kern s) (clock s) <> 0 ->
  length (job_list s) = MAXJOBS ->
  (k < MAXJOBS)%nat ->
  pid (job_at s k) = 0 ->
  exists i s',
    (i <= k)%nat
    /\ start_cmd name argv options notify s = (Val INTERNSTATUS, s')
    /\ last_job s' = Some i
    /\ fg_job s' = fg_job s /\ fdt s' = fdt s /\ laststatus s' = laststatus s
    /\ job_at s' i
       = mk_job (Z.of_nat i) (k_fork (kern s) (clock s))
           (k_fork (kern s) (clock s)) options JRUNNING
           (status (job_at s i)) (termsig (job_at s i))
           (store_cmd (Some name) (cmd (job_at s i)))
    /\ (forall m, (m < i)%nat -> pid (job_at s m) <> 0)
    /\ (forall m, m <> i -> job_at s' m = job_at s m).
Proof.
  intros Hext Hopt Hfork Hlen Hk Hfree.
  set (p := k_fork (kern s) (clock s)) in *.
  set (sf := forked (ChildExec (Some name) argv) s).
  assert (Hsame : forall m, job_at sf m = job_at s m).
  { intros m. apply job_at_list. unfold sf, forked. simpl.
    now destruct (k_fork (kern s) (clock s) <? 0). }
  assert (Hrest : last_job sf = last_job s /\ fg_job sf = fg_job s
                  /\ fdt sf = fdt s /\ laststatus sf = laststatus s
                  /\ length (job_list sf) = length (job_list s)).
  { unfold sf, forked. simpl.
    now destruct (k_fork (kern s) (clock s) <? 0). }
  destruct Hrest as (_ & Ffg & Ffd & Fls & Flen).
  destruct (register_launch_background p options notify name k sf Hopt)
    as (i & s1 & s' & Hik & R1 & R2 & L & G & D & S & J & B & O);
    [congruence | exact Hk | now rewrite Hsame |].
  exists i, s'. split; [exact Hik |]. split.
  - unfold start_cmd.
    rewrite (bind_val _ _ _ _ _ (internal_cmd_external name argv s Hext)).
    change (negb (-1 =? -1)) with false. cbv iota.
    rewrite (bind_val _ _ _ _ _ (sys_fork_run _ s)). fold p. fold sf.
    apply Z.eqb_neq in Hfork. rewrite Hfork.
    rewrite (bind_val _ _ _ _ _ R1). cbv iota.
    rewrite (bind_val _ _ _ _ _ R2).
    apply Z.eqb_neq in Hopt. now rewrite Hopt.
  - rewrite <- !Hsame. rewrite J.
    repeat split; try congruence.
    + intros m Hm. rewrite <- Hsame. now apply B.
    + intros m Hm. rewrite <- Hsame. now apply O.
Qed.

Lemma start_cmd_background_witness :
  let s := shell_init (simple_kernel 4242 0) in
  external_name "ls" /\ JBG <> JFG /\ k_fork (kern s) (clock s) <> 0
  /\ length (job_list s) = MAXJOBS /\ pid (job_at s 0) = 0
  /\ exists s',
       start_cmd "ls" ["ls"%string] JBG 1 s = (Val INTERNSTATUS, s')
       /\ last_job s' = Some 0%nat /\ fg_job s' = None
       /\ state (job_at s' 0) = JRUNNING /\ pid (job_at s' 0) = 4242.
Proof.
  intros s.
  assert (Hext : external_name "ls") by reflexivity.
  assert (Hbg : JBG <> JFG) by discriminate.
  assert (Hfork : k_fork (kern s) (clock s) <> 0) by (vm_compute; discriminate).
  assert (Hlen : length (job_list s) = MAXJOBS) by reflexivity.
  assert (Hk : (0 < MAXJOBS)%nat) by (unfold MAXJOBS; lia).
  assert (Hfree : pid (job_at s 0) = 0) by reflexivity.
  destruct (start_cmd_background "ls" ["ls"%string] JBG 1 0 s
              Hext Hbg Hfork Hlen Hk Hfree)
    as (i & s' & Hik & Hrun & Hl & Hfg & _ & _ & Hjob & _).
  assert (Hi : i = 0%nat) by lia. subst i.
  repeat (split; [assumption |]).
  exists s'. split; [exact Hrun |]. split; [exact Hl |].
  split; [exact Hfg |]. rewrite Hjob. split; reflexivity.
Defined.

(** ** The child of a fork *)

Lemma perror_if_core (c : bool) (msg : string) (s : shell) :
  exists s', (if c then perror msg else mret tt) s = (Val tt, s')
             /\ core s' = core s.
Proof. destruct c; eexists; split; reflexivity. Qed.

Lemma sys_execvp_run (f : string) (argv : list string) (s : shell) :
  exists s',
    core s' = core s /\ trace s' = trace s
    /\ (sys_execvp (Some f) argv s = (Stop (HExec f argv), s')
        \/ sys_execvp (Some f) argv s = (Val (-1), s')).
Proof.
  unfold sys_execvp. munfold. simpl.
  destruct (k_fault (kern s) (clock s)); eexists; (split; [| split]);
    try (left; reflexivity); try (right; reflexivity); reflexivity.
Qed.

(** X13: in the child of its fork [start_cmd] never returns to the
    caller: either the process image is replaced by the command, or, when
    [execvp] fails, "command not found" is the last thing written on
    [stderr] and the child exits with status 1.  Job table and descriptors
    are not touched on the way. *)
Theorem start_cmd_child_never_returns (name : string) (argv : list string)
    (options notify : Z) (s : shell) :
  external_name name ->
  k_fork (kern s) (clock s) = 0 ->
  let r := start_cmd name argv options notify s in
  (r.1 = Stop (HExec name argv)
   \/ r.1 = Stop (HExit 1)
      /\ exists evs,
           trace r.2 = evs ++ [Stderr (name +:+ ": command not found" +:+ nl)])
  /\ job_list r.2 = job_list s /\ fdt r.2 = fdt s.
Proof.
  intros Hext Hfork r. subst r. unfold start_cmd.
  rewrite (bind_val _ _ _ _ _ (internal_cmd_external name argv s Hext)).
  change (negb (-1 =? -1)) with false. cbv iota.
  rewrite (bind_val _ _ _ _ _ (sys_fork_run _ s)). rewrite Hfork.
  change (0 =? 0) with true. cbv iota.
  set (sf := forked _ s).
  assert (F0 : core sf = core s).
  { unfold sf, forked. rewrite Hfork. reflexivity. }
  destruct (register_signals_core SIG_DFL sf) as (s1 & R1 & F1).
  rewrite (bind_val _ _ _ _ _ R1).
  destruct (sys_setpgid_core 0 0 s1) as (r & s2 & R2 & F2).
  rewrite (bind_val _ _ _ _ _ R2).
  destruct (perror_if_core (r <? 0) "Unable to get its own group" s2)
    as (s3 & R3 & F3).
  rewrite (bind_val _ _ _ _ _ R3).
  destruct (sys_execvp_run name argv s3) as (s4 & F4 & T4 & [R4 | R4]).
  - rewrite (bind_stop _ _ _ _ _ R4). simpl.
    unfold core in *.
    injection F0 as ? ? ? ? ? ? ? ? ?. injection F1 as ? ? ? ? ? ? ? ? ?.
    injection F2 as ? ? ? ? ? ? ? ? ?. injection F3 as ? ? ? ? ? ? ? ? ?.
    injection F4 as ? ? ? ? ? ? ? ? ?.
    split; [now left |]. split; congruence.
  - rewrite (bind_val _ _ _ _ _ R4). munfold. simpl.
    unfold core in *.
    injection F0 as ? ? ? ? ? ? ? ? ?. injection F1 as ? ? ? ? ? ? ? ? ?.
    injection F2 as ? ? ? ? ? ? ? ? ?. injection F3 as ? ? ? ? ? ? ? ? ?.
    injection F4 as ? ? ? ? ? ? ? ? ?.
    split; [right; split; [reflexivity | now eexists] |]. split; congruence.
Qed.

Lemma start_cmd_child_never_returns_witness :
  let s := shell_init (simple_kernel 0 0) in
  let r := start_cmd "ls" ["ls"; "-l"]%string JFG 0 s in
  external_name "ls" /\ k_fork (kern s) (clock s) = 0
  /\ (r.1 = Stop (HExec "ls" ["ls"; "-l"]%string) \/ r.1 = Stop (HExit 1))
  /\ job_list r.2 = job_list s.
Proof.
  intros s r.
  assert (Hext : external_name "ls") by reflexivity.
  assert (Hfork : k_fork (kern s) (clock s) = 0) by reflexivity.
  destruct (start_cmd_child_never_returns "ls" ["ls"; "-l"]%string JFG 0 s
              Hext Hfork) as (Hend & Hjobs & _).
  split; [exact Hext |]. split; [exact Hfork |]. split; [| exact Hjobs].
  destruct Hend as [H | [H _]]; [now left | now right].
Defined.

Lemma start_sequence_child_run (e : Expression) (type : expr_t)
    (eg ed : Z -> Z -> M Z) (notify : Z) (s : shell) :
  k_fork (kern s) (clock s) = 0 ->
  exists s1,
    core s1 = core s
    /\ start_sequence e type eg ed JBG notify s
       = (w ← sequence_foreground type eg ed JFG;
          halt_with (HExit (STATUS w))) s1.
Proof.
  intros Hfork. unfold start_sequence. change (JBG =? JBG) with true. cbv iota.
  rewrite (bind_val _ _ _ _ _ (sys_fork_run _ s)). rewrite Hfork.
  change (0 <? 0) with false. cbv iota. rewrite bind_ret.
  change (0 =? 0) with true. cbv iota.
  set (sf := forked _ s).
  assert (F0 : core sf = core s).
  { unfold sf, forked. rewrite Hfork. reflexivity. }
  destruct (register_signals_core SIG_DFL sf) as (s1 & R1 & F1).
  rewrite (bind_val _ _ _ _ _ R1).
  destruct (sys_setpgid_core 0 0 s1) as (r & s2 & R2 & F2).
  rewrite (bind_val _ _ _ _ _ R2).
  destruct (perror_if_core (r <? 0) "Unable to get pgid" s2) as (s3 & R3 & F3).
  rewrite (bind_val _ _ _ _ _ R3).
  exists s3. split; [congruence | reflexivity].
Qed.

(** X15: in the child of its fork a background sequence never returns to
    the caller: it runs the sequence in the foreground from a state with the
    same tables, and whatever status that gives is passed to [exit]. *)
Theorem start_sequence_background_child (e : Expression) (type : expr_t)
    (eg ed : Z -> Z -> M Z) (notify : Z) (s : shell) :
  k_fork (kern s) (clock s) = 0 ->
  (forall v, (start_sequence e type eg ed JBG notify s).1 <> Val v)
  /\ exists s1,
       core s1 = core s
       /\ forall w s2,
            sequence_foreground type eg ed JFG s1 = (Val w, s2) ->
            start_sequence e type eg ed JBG notify s
            = (Stop (HExit (STATUS w)), s2).
Proof.
  intros Hfork.
  destruct (start_sequence_child_run e type eg ed notify s Hfork)
    as (s1 & F & E).
  split.
  - intros v. rewrite E. unfold mbind, M_bind.
    destruct (sequence_foreground type eg ed JFG s1) as [[w | h] s2];
      discriminate.
  - exists s1. split; [exact F |]. intros w s2 H.
    rewrite E. now rewrite (bind_val _ _ _ _ _ H).
Qed.

Lemma start_sequence_background_child_witness :
  let s := shell_init (simple_kernel 0 0) in
  let e := Node SEQUENCE cmd_echo_x cmd_echo_x [] in
  k_fork (kern s) (clock s) = 0
  /\ forall v,
       (start_sequence e SEQUENCE (expression_handler cmd_echo_x)
          (expression_handler cmd_echo_x) JBG 0 s).1 <> Val v.
Proof.
  intros s e.
  assert (Hfork : k_fork (kern s) (clock s) = 0) by reflexivity.
  split; [exact Hfork |].
  exact (proj1 (start_sequence_background_child e SEQUENCE
                  (expression_handler cmd_echo_x)
                  (expression_handler cmd_echo_x) 0 s Hfork)).
Defined.

(** X14: a sequence launched in the background forks, and the parent
    evaluates neither side of it: whatever the two sides are, on a table
    with a free slot it registers the child as the job "Sequence" with
    background flag [JBG], leaves it running as [last_job] and returns
    [INTERNSTATUS]. *)
Theorem start_sequence_background_parent (e : Expression) (type : expr_t)
    (eg ed : Z -> Z -> M Z) (notify : Z) (k : nat) (s : shell) :
  0 < k_fork (kern s) (clock s) ->
  length (job_list s) = MAXJOBS ->
  (k < MAXJOBS)%nat ->
  pid (job_at s k) = 0 ->
  exists i s',
    (i <= k)%nat
    /\ start_sequence e type eg ed JBG notify s = (Val INTERNSTATUS, s')
    /\ last_job s' = Some i
    /\ fg_job s' = fg_job s /\ fdt s' = fdt s /\ laststatus s' = laststatus s
    /\ job_at s' i
       = mk_job (Z.of_nat i) (k_fork (kern s) (clock s))
           (k_fork (kern s) (clock s)) JBG JRUNNING
           (status (job_at s i)) (termsig (job_at s i))
           (store_cmd (Some "Sequence"%string) (cmd (job_at s i)))
    /\ (forall m, m <> i -> job_at s' m = job_at s m).
Proof.
  intros Hfork Hlen Hk Hfree.
  set (p := k_fork (kern s) (clock s)) in *.
  set (sf := forked (ChildSequence e notify) s).
  assert (Hneg : (p <? 0) = false) by (apply Z.ltb_ge; lia).
  assert (Hnz : (p =? 0) = false) by (apply Z.eqb_neq; lia).
  assert (Hsf : sf = set_trace (trace s ++ [Fork p (ChildSequence e notify)])
                       (set_clock (S (clock s)) s)).
  { unfold sf, forked. fold p. now rewrite Hneg. }
  assert (Hsame : forall m, job_at sf m = job_at s m)
    by (intros m; now rewrite Hsf).
  destruct (register_launch_background p JBG notify "Sequence" k sf)
    as (i & s1 & s' & Hik & R1 & R2 & L & G & D & S & J & B & O);
    [discriminate | now rewrite Hsf | exact Hk | now rewrite Hsame |].
  exists i, s'. split; [exact Hik |]. split.
  - unfold start_sequence. change (JBG =? JBG) with true. cbv iota.
    rewrite (bind_val _ _ _ _ _ (sys_fork_run _ s)). fold p. fold sf.
    rewrite Hneg, bind_ret, Hnz.
    rewrite (bind_val _ _ _ _ _ R1). cbv iota.
    now rewrite (bind_val _ _ _ _ _ R2).
  - rewrite <- !Hsame. rewrite J. rewrite Hsf in G, D, S.
    repeat split; try assumption.
    intros m Hm. rewrite <- Hsame. now apply O.
Qed.

Lemma start_sequence_background_parent_witness :
  let s := shell_init (simple_kernel 4242 0) in
  let e := Node SEQUENCE cmd_false cmd_echo_x [] in
  0 < k_fork (kern s) (clock s)
  /\ length (job_list s) = MAXJOBS /\ pid (job_at s 0) = 0
  /\ exists s',
       start_sequence e SEQUENCE (expression_handler cmd_false)
         (expression_handler cmd_echo_x) JBG 0 s = (Val INTERNSTATUS, s')
       /\ last_job s' = Some 0%nat
       /\ cmd_text (job_at s' 0) = "Sequence"%string.
Proof.
  intros s e.
  assert (Hfork : 0 < k_fork (kern s) (clock s)) by (vm_compute; reflexivity).
  assert (Hlen : length (job_list s) = MAXJOBS) by reflexivity.
  assert (Hk : (0 < MAXJOBS)%nat) by (unfold MAXJOBS; lia).
  assert (Hfree : pid (job_at s 0) = 0) by reflexivity.
  destruct (start_sequence_background_parent e SEQUENCE
              (expression_handler cmd_false) (expression_handler cmd_echo_x)
              0 0 s Hfork Hlen Hk Hfree)
    as (i & s' & Hik & Hrun & Hl & _ & _ & _ & Hjob & _).
  assert (Hi : i = 0%nat) by lia. subst i.
  repeat (split; [assumption |]).
  exists s'. split; [exact Hrun |]. split; [exact Hl |].
  rewrite Hjob. reflexivity.
Defined.

(** ** [fg] and [bg] with a name *)




Lemma sys_kill_quiet (t sg : Z) (s : shell) :
  quiet s -> sys_kill t sg s = (Val 0, recorded (Kill t sg) s).
Proof. intros Hq. unfold sys_kill. munfold. simpl. now rewrite Hq. Qed.

Lemma sys_setpgid_quiet (p g : Z) (s : shell) :
  quiet s -> sys_setpgid p g s = (Val 0, recorded (Setpgid p g) s).
Proof. intros Hq. unfold sys_setpgid. munfold. simpl. now rewrite Hq. Qed.

Lemma quiet_recorded (e : event) (s : shell) : quiet s -> quiet (recorded e s).
Proof. intros Hq n. apply Hq. Qed.

Lemma continue_if_stopped_quiet (i : nat) (s : shell) :
  quiet s ->
  continue_if_stopped i s
  = (Val tt,
     if bool_decide (state (job_at s i) = JSTOPPED)
     then recorded (Kill (pid (job_at s i)) SIGCONT) s else s).
Proof.
  intros Hq. unfold continue_if_stopped. rewrite bind_get. cbv zeta.
  destruct (bool_decide (state (job_at s i) = JSTOPPED)); [| reflexivity].
  now rewrite (bind_val _ _ _ _ _ (sys_kill_quiet _ _ s Hq)).
Qed.



(** ** Pipelines and redirections that cannot be set up *)

(** X18: when [pipe2] fails, a pipeline evaluates neither of its sides:
    whatever they are, [lay_pipeline] writes "Unable to set pipe" with the
    error on [stderr] and returns -1, the descriptor table being as
    before. *)
Theorem lay_pipeline_without_pipe (eg ed : Z -> Z -> M Z) (options : Z) (s : shell) :
  (sys_pipe2 O_CLOEXEC s).1 = Val None ->
  exists e,
    lay_pipeline eg ed options s
    = (Val (-1),
       set_trace (trace s ++ [Stderr ("Unable to set pipe: " +:+ strerror e +:+ nl)])
         (set_errno e (set_clock (S (clock s)) s))).
Proof.
  unfold lay_pipeline, sys_pipe2, pipeline_err. munfold. simpl.
  destruct (k_fault (kern s) (clock s)) as [e|]; simpl; [now exists e |].
  destruct (lowest_free (fdt s) (fd_limit s)) as [r|]; simpl; [| now exists EMFILE].
  destruct (lowest_free _ (fd_limit s)) as [w|]; simpl; [discriminate |].
  now exists EMFILE.
Qed.

Lemma lay_pipeline_without_pipe_witness :
  let s := shell_tight (simple_kernel 4242 0) in
  (sys_pipe2 O_CLOEXEC s).1 = Val None
  /\ exists e,
       (expression_handler ls_pipe_wc JFG 0 s).1 = Val (-1)
       /\ trace (expression_handler ls_pipe_wc JFG 0 s).2
          = [Stderr ("Unable to set pipe: " +:+ strerror e +:+ nl)]
       /\ fdt (expression_handler ls_pipe_wc JFG 0 s).2 = fdt s.
Proof.
  intros s.
  assert (Hp : (sys_pipe2 O_CLOEXEC s).1 = Val None) by reflexivity.
  destruct (lay_pipeline_without_pipe
              (expression_handler (Node SIMPLE Null Null ["ls"%string]))
              (expression_handler (Node SIMPLE Null Null ["wc"%string]))
              JFG s Hp) as (e & Hrun).
  split; [exact Hp |]. exists e.
  change (expression_handler ls_pipe_wc JFG 0 s)
    with (lay_pipeline
            (expression_handler (Node SIMPLE Null Null ["ls"%string]))
            (expression_handler (Node SIMPLE Null Null ["wc"%string])) JFG s).
  rewrite Hrun. repeat split.
Defined.

Lemma sys_open_missing (p : string) (flags mode : Z) (s : shell) :
  quiet s ->
  has_flag flags O_CREAT = false ->
  p ∉ files s ->
  sys_open (Some p) flags mode s
  = (Val (-1), set_errno ENOENT (set_clock (S (clock s)) s)).
Proof.
  intros Hq Hfl Hp. unfold sys_open. munfold. simpl.
  rewrite Hq, Hfl, bool_decide_eq_false_2 by exact Hp. reflexivity.
Qed.

(** X19: an input redirection from a file that does not exist, no call
    being refused and the table having room: whatever the redirected
    command is, it is not run; [lay_redirection] returns -1 after writing
    the file name and the error on [stderr]; the standard descriptors are
    untouched, and the three saves, three distinct new descriptors, are
    left open. *)
Theorem lay_redirection_missing_file (p : string) (eg : Z -> Z -> M Z)
    (options : Z) (s : shell) (d0 d1 d2 : nat) :
  quiet s ->
  fdt s !! STDIN_FILENO = Some d0 ->
  fdt s !! STDOUT_FILENO = Some d1 ->
  fdt s !! STDERR_FILENO = Some d2 ->
  (size (fdt s) + 3 <= fd_limit s)%nat ->
  p ∉ files s ->
  exists out in_ err s',
    lay_redirection REDIRECTION_I (Some p) eg options s = (Val (-1), s')
    /\ fdt s' = <[err := d2]> (<[in_ := d0]> (<[out := d1]> (fdt s)))
    /\ fdt s !! out = None /\ fdt s !! in_ = None /\ fdt s !! err = None
    /\ out <> in_ /\ out <> err /\ in_ <> err
    /\ exists evs,
         trace s' = evs ++ [Stderr (p +:+ ": " +:+ strerror ENOENT +:+ nl)].
Proof.
  unfold STDIN_FILENO, STDOUT_FILENO, STDERR_FILENO.
  intros Hq H0 H1 H2 Hroom Hp.
  unfold lay_redirection, STDIN_FILENO, STDOUT_FILENO, STDERR_FILENO.
  destruct (dup_step 1 d1 s Hq H1 ltac:(lia))
    as (out & s1 & R1 & Fout & Nout & T1 & W1 & F1).
  rewrite (bind_val _ _ _ _ _ R1).
  pose proof (quiet_same_world _ _ Hq W1) as Hq1.
  assert (Hsz1 : size (fdt s1) = S (size (fdt s)))
    by (rewrite T1; now apply map_size_insert_None).
  assert (L1 : fd_limit s1 = fd_limit s) by apply W1.
  assert (H01 : fdt s1 !! 0 = Some d0).
  { rewrite T1, lookup_insert_ne; [exact H0 | congruence]. }
  destruct (dup_step 0 d0 s1 Hq1 H01 ltac:(lia))
    as (in_ & s2 & R2 & Fin & Nin & T2 & W2 & F2).
  rewrite (bind_val _ _ _ _ _ R2).
  pose proof (quiet_same_world _ _ Hq1 W2) as Hq2.
  assert (Hsz2 : size (fdt s2) = S (size (fdt s1)))
    by (rewrite T2; now apply map_size_insert_None).
  assert (L2 : fd_limit s2 = fd_limit s1) by apply W2.
  rewrite T1 in Fin. apply lookup_insert_None in Fin as [Fin Hoi].
  assert (H22 : fdt s2 !! 2 = Some d2).
  { rewrite T2, T1, !lookup_insert_ne; [exact H2 | congruence | congruence]. }
  destruct (dup_step 2 d2 s2 Hq2 H22 ltac:(lia))
    as (err & s3 & R3 & Ferr & Nerr & T3 & W3 & F3).
  rewrite (bind_val _ _ _ _ _ R3).
  pose proof (quiet_same_world _ _ Hq2 W3) as Hq3.
  rewrite T2, T1 in Ferr.
  apply lookup_insert_None in Ferr as [Ferr Hie].
  apply lookup_insert_None in Ferr as [Ferr Hoe].
  rewrite Nout, Nin, Nerr. cbn [orb]. cbv iota.
  assert (Hp3 : p ∉ files s3) by (rewrite F3, F2, F1; exact Hp).
  rewrite (bind_val _ _ _ _ _
             (sys_open_missing p (redirection_flags REDIRECTION_I) S_MODE s3
                Hq3 eq_refl Hp3)).
  change (-1 =? -1) with true. cbv iota.
  exists out, in_, err. eexists. split; [reflexivity |].
  simpl. rewrite T3, T2, T1.
  repeat split; try assumption; try congruence.
  eexists. reflexivity.
Qed.

Lemma lay_redirection_missing_file_witness :
  let s := shell_init (simple_kernel 4242 0) in
  quiet s
  /\ ("missing"%string ∉ files s)
  /\ (expression_handler cat_from_missing JFG 0 s).1 = Val (-1)
  /\ size (fdt (expression_handler cat_from_missing JFG 0 s).2)
     = (size (fdt s) + 3)%nat.
Proof.
  intros s.
  assert (Hq : quiet s) by (intros n; reflexivity).
  assert (H0 : fdt s !! STDIN_FILENO = Some 0%nat) by reflexivity.
  assert (H1 : fdt s !! STDOUT_FILENO = Some 1%nat) by reflexivity.
  assert (H2 : fdt s !! STDERR_FILENO = Some 2%nat) by reflexivity.
  assert (Hroom : (size (fdt s) + 3 <= fd_limit s)%nat) by (vm_compute; lia).
  assert (Hp : "missing"%string ∉ files s) by (intros H; inversion H).
  destruct (lay_redirection_missing_file "missing"
              (expression_handler (Node SIMPLE Null Null ["cat"%string]))
              JFG s 0 1 2 Hq H0 H1 H2 Hroom Hp)
    as (out & in_ & err & s' & Hrun & Htab & Fo & Fi & Fe & Hoi & Hoe & Hie & _).
  split; [exact Hq |]. split; [exact Hp |].
  change (expression_handler cat_from_missing JFG 0 s)
    with (lay_redirection REDIRECTION_I (Some "missing"%string)
            (expression_handler (Node SIMPLE Null Null ["cat"%string])) JFG s).
  rewrite Hrun. split; [reflexivity |]. cbn [snd]. rewrite Htab.
  rewrite !map_size_insert_None; [lia | exact Fo | |].
  - rewrite lookup_insert_ne by exact Hoi. exact Fi.
  - rewrite !lookup_insert_ne by congruence. exact Fe.
Defined.

(** ** Launching in the foreground *)

Lemma set_job_list_same (s : shell) : set_job_list (job_list s) s = s.
Proof. now destruct s. Qed.

Lemma set_status_job_run (i : nat) (w : Z) (s : shell) :
  set_status_job i w s
  = (Val tt, set_job_list (alter (with_wait_status w) i (job_list s)) s).
Proof.
  unfold set_status_job, with_wait_status, update_job.
  destruct (WIFEXITED w); [| destruct (WIFSTOPPED w); [| destruct (WIFSIGNALED w)]];
    munfold; simpl; rewrite ?alter_twice; try reflexivity.
  rewrite list_alter_id by reflexivity. now rewrite set_job_list_same.
Qed.

Lemma sys_waitpid_core (p o w : Z) (s : shell) :
  0 < p ->
  (forall n, k_waitpid (kern s) n p o = (p, w)) ->
  exists s', sys_waitpid p o s = (Val (p, w), s') /\ core s' = core s.
Proof.
  intros Hp Hw. unfold sys_waitpid. munfold. simpl. rewrite Hw. simpl.
  replace (p <? 0) with false by (symmetry; apply Z.ltb_ge; lia).
  eexists. split; reflexivity.
Qed.

Lemma tcsetpgrp_if_core (c : bool) (g : Z) (s : shell) :
  exists s', (if c then sys_tcsetpgrp 0 g;; mret tt else mret tt) s = (Val tt, s')
             /\ core s' = core s.
Proof.
  destruct c; [| now exists s].
  destruct (sys_tcsetpgrp_core 0 g s) as (r & s' & R & F).
  exists s'. now rewrite (bind_val _ _ _ _ _ R).
Qed.

Ltac core_inj F :=
  unfold core in F; injection F as ? ? ? ? ? ? ? ? ?.

Lemma send_to_foreground_run (i : nat) (p w : Z) (s : shell) :
  (i < length (job_list s))%nat ->
  pid (job_at s i) = p ->
  0 < p ->
  (forall n, k_waitpid (kern s) n p WUNTRACED = (p, w)) ->
  exists s',
    send_to_foreground i s = (Val tt, s')
    /\ fg_job s' = Some i
    /\ job_list s'
       = alter (with_wait_status w) i (alter (set_status w) i (job_list s))
    /\ last_job s' = last_job s /\ fdt s' = fdt s /\ laststatus s' = laststatus s.
Proof.
  intros Hi Hpid Hp Hw. unfold send_to_foreground.
  destruct (register_signals_core SIG_DFL s) as (s1 & R1 & F1).
  rewrite (bind_val _ _ _ _ _ R1), bind_get.
  destruct (tcsetpgrp_if_core (negb (interactive s1 =? 0)) (pid (job_at s1 i)) s1)
    as (s2 & R2 & F2).
  rewrite (bind_val _ _ _ _ _ R2), bind_modify.
  destruct (continue_if_stopped_core i (set_fg_job (Some i) s2)) as (s3 & R3 & F3).
  rewrite (bind_val _ _ _ _ _ R3), bind_get.
  core_inj F1. core_inj F2. core_inj F3. simpl in *.
  assert (Hp3 : pid (job_at s3 i) = p).
  { rewrite <- Hpid. apply (f_equal pid). apply job_at_list. congruence. }
  rewrite Hp3.
  destruct (sys_waitpid_core p WUNTRACED w s3 Hp) as (s4 & R4 & F4);
    [intros n; replace (kern s3) with (kern s) by congruence; apply Hw |].
  rewrite (bind_val _ _ _ _ _ R4). cbn [fst snd].
  replace (p <? 0) with false by (symmetry; apply Z.ltb_ge; lia).
  replace (0 <? p) with true by (symmetry; apply Z.ltb_lt; lia).
  unfold update_job. rewrite bind_modify, bind_get.
  set (s5 := set_job_list _ s4).
  rewrite (bind_val _ _ _ _ _ (set_status_job_run i _ s5)).
  set (s6 := set_job_list _ s5).
  destruct (register_signals_core SIG_HANDLER s6) as (s7 & R7 & F7).
  rewrite (bind_val _ _ _ _ _ R7), bind_get.
  destruct (tcsetpgrp_if_core (negb (interactive s7 =? 0)) (shpid s7) s7)
    as (s8 & R8 & F8).
  rewrite R8.
  core_inj F4. core_inj F7. core_inj F8.
  assert (Hst : status (job_at s5 i) = w).
  { unfold job_at, s5. simpl.
    rewrite default_alter_eq by congruence. reflexivity. }
  exists s8. split; [reflexivity |].
  subst s6 s5. simpl in *. rewrite Hst in *.
  repeat split; congruence.
Qed.

Lemma launch_job_foreground_run (i : nat) (notify p w : Z) (s : shell) :
  (i < length (job_list s))%nat ->
  background (job_at s i) = JFG ->
  pid (job_at s i) = p ->
  0 < p ->
  (forall n, k_waitpid (kern s) n p WUNTRACED = (p, w)) ->
  exists s',
    launch_job i notify s = (Val tt, s')
    /\ fg_job s' = Some i
    /\ job_at s' i
       = with_wait_status w (set_status w (set_state JSTOPPED (job_at s i)))
    /\ (forall m, m <> i -> job_at s' m = job_at s m)
    /\ last_job s' = last_job s /\ fdt s' = fdt s /\ laststatus s' = laststatus s.
Proof.
  intros Hi Hbg Hpid Hp Hw. unfold launch_job. unfold update_job at 1.
  rewrite bind_modify, bind_get.
  set (s1 := set_job_list _ s).
  destruct (sys_setpgid_core (pid (job_at s1 i)) (pid (job_at s1 i)) s1)
    as (r & s2 & R2 & F2).
  rewrite (bind_val _ _ _ _ _ R2), bind_get.
  core_inj F2. subst s1. simpl in *.
  assert (E : job_list s2 = alter (set_state JSTOPPED) i (job_list s))
    by assumption.
  assert (J2 : job_at s2 i = set_state JSTOPPED (job_at s i))
    by (apply job_at_alter_list_eq; assumption).
  rewrite J2. cbn [background set_state]. rewrite Hbg.
  change (JFG =? JFG) with true. cbv iota.
  assert (Hi2 : (i < length (job_list s2))%nat)
    by (rewrite E, length_alter; exact Hi).
  destruct (send_to_foreground_run i p w s2 Hi2) as (s' & R & G & J & L & D & S).
  - rewrite J2. exact Hpid.
  - exact Hp.
  - intros n. replace (kern s2) with (kern s) by congruence.
    apply Hw.
  - exists s'. split; [exact R |]. split; [exact G |].
    split; [| split].
    + unfold job_at. rewrite J, E.
      rewrite !default_alter_eq by (rewrite ?length_alter; exact Hi).
      reflexivity.
    + intros m Hm. unfold job_at. rewrite J, E.
      now rewrite !default_alter_ne by (intros X; apply Hm; now rewrite X).
    + repeat split; congruence.
Qed.

Lemma start_cmd_foreground_run (name : string) (argv : list string)
    (notify w : Z) (k : nat) (s : shell) :
  external_name name ->
  0 < k_fork (kern s) (clock s) ->
  (forall n, k_waitpid (kern s) n (k_fork (kern s) (clock s)) WUNTRACED
             = (k_fork (kern s) (clock s), w)) ->
  length (job_list s) = MAXJOBS ->
  (k < MAXJOBS)%nat ->
  pid (job_at s k) = 0 ->
  exists i s',
    (i <= k)%nat
    /\ start_cmd name argv JFG notify s = (Val (status (job_at s' i)), s')
    /\ fg_job s' = Some i
    /\ job_at s' i
       = with_wait_status w
           (mk_job (Z.of_nat i) (k_fork (kern s) (clock s))
              (k_fork (kern s) (clock s)) JFG JSTOPPED w (termsig (job_at s i))
              (store_cmd (Some name) (cmd (job_at s i))))
    /\ (forall m, m <> i -> job_at s' m = job_at s m)
    /\ last_job s' = last_job s /\ fdt s' = fdt s /\ laststatus s' = laststatus s.
Proof.
  intros Hext Hfork Hw Hlen Hk Hfree.
  set (p := k_fork (kern s) (clock s)) in *.
  set (sf := forked (ChildExec (Some name) argv) s).
  assert (Hneg : (p <? 0) = false) by (apply Z.ltb_ge; lia).
  assert (Hnz : (p =? 0) = false) by (apply Z.eqb_neq; lia).
  assert (Hsf : sf = set_trace (trace s ++ [Fork p (ChildExec (Some name) argv)])
                       (set_clock (S (clock s)) s)).
  { unfold sf, forked. fold p. now rewrite Hneg. }
  assert (Hsame : forall m, job_at sf m = job_at s m)
    by (intros m; now rewrite Hsf).
  destruct (register_job_run p p JFG (Some name) k sf)
    as (i & Hik & Hrun & Hpi & Hbelow & _ & _);
    [now rewrite Hsf | exact Hk | now rewrite Hsame |].
  set (s1 := set_job_list _ sf) in Hrun.
  assert (Hi : (i < length (job_list sf))%nat) by (rewrite Hsf; simpl; lia).
  assert (J1 : job_at s1 i = registered i p p JFG (Some name) (job_at sf i))
    by (apply job_at_alter_eq; exact Hi).
  destruct (launch_job_foreground_run i notify p w s1)
    as (s' & R & G & J & O & L & D & S).
  - subst s1. simpl. now rewrite length_alter.
  - now rewrite J1.
  - now rewrite J1.
  - exact Hfork.
  - intros n. subst s1. rewrite Hsf. simpl. apply Hw.
  - exists i, s'. split; [exact Hik |]. split.
    + unfold start_cmd.
      rewrite (bind_val _ _ _ _ _ (internal_cmd_external name argv s Hext)).
      change (negb (-1 =? -1)) with false. cbv iota.
      rewrite (bind_val _ _ _ _ _ (sys_fork_run _ s)). fold p. fold sf.
      rewrite Hnz, (bind_val _ _ _ _ _ Hrun). cbv iota.
      rewrite (bind_val _ _ _ _ _ R). reflexivity.
    + split; [exact G |]. split; [| split].
      * rewrite J, J1, Hsame. reflexivity.
      * intros m Hm. rewrite O by exact Hm. subst s1.
        rewrite job_at_alter_ne by (intros X; apply Hm; now rewrite X).
        apply Hsame.
      * subst s1. rewrite Hsf in L, D, S. simpl in *. repeat split; assumption.
Qed.

(** X20: an external command launched in the foreground, on a table with
    a free slot, whose process exits: [start_cmd] returns the exit status of
    the process; the job is left in its slot, done, with that status, and is
    [fg_job]; [last_job], the descriptors and [laststatus] are as before. *)
Theorem start_cmd_foreground_exit (name : string) (argv : list string)
    (notify w : Z) (k : nat) (s : shell) :
  external_name name ->
  0 < k_fork (kern s) (clock s) ->
  (forall n, k_waitpid (kern s) n (k_fork (kern s) (clock s)) WUNTRACED
             = (k_fork (kern s) (clock s), w)) ->
  WIFEXITED w = true ->
  length (job_list s) = MAXJOBS ->
  (k < MAXJOBS)%nat ->
  pid (job_at s k) = 0 ->
  exists i s',
    (i <= k)%nat
    /\ start_cmd name argv JFG notify s = (Val (WEXITSTATUS w), s')
    /\ fg_job s' = Some i
    /\ job_at s' i
       = mk_job (Z.of_nat i) (k_fork (kern s) (clock s))
           (k_fork (kern s) (clock s)) JFG JDONE (WEXITSTATUS w)
           (termsig (job_at s i)) (store_cmd (Some name) (cmd (job_at s i)))
    /\ (forall m, m <> i -> job_at s' m = job_at s m)
    /\ last_job s' = last_job s /\ fdt s' = fdt s /\ laststatus s' = laststatus s.
Proof.
  intros Hext Hfork Hw Hexit Hlen Hk Hfree.
  destruct (start_cmd_foreground_run name argv notify w k s
              Hext Hfork Hw Hlen Hk Hfree)
    as (i & s' & Hik & Hrun & Hfg & Hjob & Hother & Hrest).
  unfold with_wait_status in Hjob. rewrite Hexit in Hjob. cbn in Hjob.
  exists i, s'. split; [exact Hik |]. split.
  - rewrite Hrun, Hjob. reflexivity.
  - split; [exact Hfg |]. split; [exact Hjob |]. split; [exact Hother | exact Hrest].
Qed.

Lemma start_cmd_foreground_exit_witness :
  let s := shell_init (simple_kernel 4242 768) in
  external_name "ls" /\ 0 < k_fork (kern s) (clock s) /\ WIFEXITED 768 = true
  /\ exists s',
       start_cmd "ls" ["ls"%string] JFG 0 s = (Val 3, s')
       /\ fg_job s' = Some 0%nat /\ state (job_at s' 0) = JDONE.
Proof.
  intros s.
  assert (Hext : external_name "ls") by reflexivity.
  assert (Hfork : 0 < k_fork (kern s) (clock s)) by (vm_compute; reflexivity).
  assert (Hw : forall n, k_waitpid (kern s) n (k_fork (kern s) (clock s)) WUNTRACED
                         = (k_fork (kern s) (clock s), 768))
    by (intros n; reflexivity).
  assert (Hexit : WIFEXITED 768 = true) by reflexivity.
  assert (Hlen : length (job_list s) = MAXJOBS) by reflexivity.
  assert (Hk : (0 < MAXJOBS)%nat) by (unfold MAXJOBS; lia).
  assert (Hfree : pid (job_at s 0) = 0) by reflexivity.
  destruct (start_cmd_foreground_exit "ls" ["ls"%string] 0 768 0 s
              Hext Hfork Hw Hexit Hlen Hk Hfree)
    as (i & s' & Hik & Hrun & Hfg & Hjob & _).
  assert (Hi : i = 0%nat) by lia. subst i.
  repeat (split; [assumption |]).
  exists s'. split; [exact Hrun |]. split; [exact Hfg |].
  rewrite Hjob. reflexivity.
Defined.

(** X21: a foreground command whose process is killed by a signal:
    [start_cmd] returns the wait status as [waitpid] gave it (for a plain
    kill, the number of the signal), and the job is left done with
    [termsig] the signal. *)
Theorem start_cmd_foreground_signalled (name : string) (argv : list string)
    (notify w : Z) (k : nat) (s : shell) :
  external_name name ->
  0 < k_fork (kern s) (clock s) ->
  (forall n, k_waitpid (kern s) n (k_fork (kern s) (clock s)) WUNTRACED
             = (k_fork (kern s) (clock s), w)) ->
  WIFEXITED w = false -> WIFSTOPPED w = false -> WIFSIGNALED w = true ->
  length (job_list s) = MAXJOBS ->
  (k < MAXJOBS)%nat ->
  pid (job_at s k) = 0 ->
  exists i s',
    (i <= k)%nat
    /\ start_cmd name argv JFG notify s = (Val w, s')
    /\ fg_job s' = Some i
    /\ job_at s' i
       = mk_job (Z.of_nat i) (k_fork (kern s) (clock s))
           (k_fork (kern s) (clock s)) JFG JDONE w (WTERMSIG w)
           (store_cmd (Some name) (cmd (job_at s i)))
    /\ (forall m, m <> i -> job_at s' m = job_at s m).
Proof.
  intros Hext Hfork Hw Hexit Hstop Hsig Hlen Hk Hfree.
  destruct (start_cmd_foreground_run name argv notify w k s
              Hext Hfork Hw Hlen Hk Hfree)
    as (i & s' & Hik & Hrun & Hfg & Hjob & Hother & _).
  unfold with_wait_status in Hjob. rewrite Hexit, Hstop, Hsig in Hjob. cbn in Hjob.
  exists i, s'. split; [exact Hik |]. split.
  - rewrite Hrun, Hjob. reflexivity.
  - split; [exact Hfg |]. split; [exact Hjob | exact Hother].
Qed.

Lemma start_cmd_foreground_signalled_witness :
  let s := shell_init (simple_kernel 4242 9) in
  external_name "ls" /\ 0 < k_fork (kern s) (clock s)
  /\ WIFEXITED 9 = false /\ WIFSTOPPED 9 = false /\ WIFSIGNALED 9 = true
  /\ exists s',
       start_cmd "ls" ["ls"%string] JFG 0 s = (Val 9, s')
       /\ termsig (job_at s' 0) = SIGKILL.
Proof.
  intros s.
  assert (Hext : external_name "ls") by reflexivity.
  assert (Hfork : 0 < k_fork (kern s) (clock s)) by (vm_compute; reflexivity).
  assert (Hw : forall n, k_waitpid (kern s) n (k_fork (kern s) (clock s)) WUNTRACED
                         = (k_fork (kern s) (clock s), 9))
    by (intros n; reflexivity).
  assert (H1 : WIFEXITED 9 = false) by reflexivity.
  assert (H2 : WIFSTOPPED 9 = false) by reflexivity.
  assert (H3 : WIFSIGNALED 9 = true) by reflexivity.
  assert (Hlen : length (job_list s) = MAXJOBS) by reflexivity.
  assert (Hk : (0 < MAXJOBS)%nat) by (unfold MAXJOBS; lia).
  assert (Hfree : pid (job_at s 0) = 0) by reflexivity.
  destruct (start_cmd_foreground_signalled "ls" ["ls"%string] 0 9 0 s
              Hext Hfork Hw H1 H2 H3 Hlen Hk Hfree)
    as (i & s' & Hik & Hrun & _ & Hjob & _).
  assert (Hi : i = 0%nat) by lia. subst i.
  repeat (split; [assumption |]).
  exists s'. split; [exact Hrun |]. rewrite Hjob. reflexivity.
Defined.

(** ** When [fork] fails *)

Lemma grows_ret {A} (a : A) : grows (mret a).
Proof. intros s. exists []. symmetry. apply app_nil_r. Qed.

Lemma grows_get : grows get.
Proof. intros s. exists []. symmetry. apply app_nil_r. Qed.

Lemma grows_modify (g : shell -> shell) :
  (forall s, trace (g s) = trace s) -> grows (modify g).
Proof. intros H s. exists []. simpl. rewrite H. symmetry. apply app_nil_r. Qed.

Lemma grows_emit (e : event) : grows (emit e).
Proof. intros s. now exists [e]. Qed.

Lemma grows_bind {A B} (m : M A) (k : A -> M B) :
  grows m -> (forall a, grows (k a)) -> grows (m ≫= k).
Proof.
  intros Hm Hk s. unfold mbind, M_bind.
  destruct (Hm s) as [evs Hevs]. destruct (m s) as [[a | h] s1]; simpl in *.
  - destruct (Hk a s1) as [evs' Hevs']. exists (evs ++ evs').
    now rewrite Hevs', Hevs, app_assoc.
  - now exists evs.
Qed.

Create HintDb grows.
#[local] Hint Resolve grows_ret grows_get grows_emit : grows.

Ltac grows_auto :=
  repeat first
    [ solve [auto with grows nocore]
    | apply grows_modify; intros; reflexivity
    | apply grows_bind; [| intros ?]
    | progress cbv zeta
    | match goal with
      | |- grows (if ?c then _ else _) => destruct c
      | |- grows (match ?x with _ => _ end) => destruct x
      end ].

Lemma grows_tick : grows tick.
Proof. intros s. exists []. symmetry. apply app_nil_r. Qed.
Lemma grows_fail {A} (e : errno_t) (r : A) : grows (fail e r).
Proof. unfold fail. grows_auto. Qed.
Lemma grows_print_out (t : string) : grows (print_out t).
Proof. apply grows_emit. Qed.
Lemma grows_print_err (t : string) : grows (print_err t).
Proof. apply grows_emit. Qed.
#[local] Hint Resolve grows_tick grows_fail grows_print_out grows_print_err : grows.

Lemma grows_perror (msg : string) : grows (perror msg).
Proof. unfold perror. grows_auto. Qed.
#[local] Hint Resolve grows_perror : grows.

Lemma grows_sys_tcsetpgrp (fd g : Z) : grows (sys_tcsetpgrp fd g).
Proof. unfold sys_tcsetpgrp. grows_auto. Qed.
Lemma grows_sys_sigaction (sg : Z) (h : handler_t) : grows (sys_sigaction sg h).
Proof. unfold sys_sigaction. grows_auto. Qed.
Lemma grows_sys_waitpid (p o : Z) : grows (sys_waitpid p o).
Proof. unfold sys_waitpid. grows_auto. Qed.
Lemma grows_update_job (i : nat) (g : job -> job) : grows (update_job i g).
Proof. unfold update_job. grows_auto. Qed.
#[local] Hint Resolve grows_sys_tcsetpgrp grows_sys_sigaction grows_sys_waitpid
  grows_update_job : grows.

Lemma grows_register_signals (h : handler_t) : grows (register_signals h).
Proof.
  unfold register_signals. induction SIGREGISTERED as [|sg l IH]; simpl;
    grows_auto.
Qed.
Lemma grows_set_status_job (i : nat) (w : Z) : grows (set_status_job i w).
Proof. unfold set_status_job. grows_auto. Qed.
#[local] Hint Resolve grows_register_signals grows_set_status_job : grows.

(** What has been sent stays sent. *)
Lemma sent_bind {A B} (e : event) (m : M A) (k : A -> M B) (s : shell) :
  In e (trace (m s).2) -> (forall a, grows (k a)) ->
  In e (trace ((m ≫= k) s).2).
Proof.
  intros Hin Hk. unfold mbind, M_bind.
  destruct (m s) as [[a | h] s1]; simpl in *; [| exact Hin].
  destruct (Hk a s1) as [evs ->]. apply in_or_app. now left.
Qed.

Lemma sent_recorded (e : event) (s : shell) : In e (trace (recorded e s)).
Proof. unfold recorded. simpl. apply in_or_app. right. now left. Qed.

Lemma core_job_list (s s' : shell) : core s' = core s -> job_list s' = job_list s.
Proof. intros F. now core_inj F. Qed.

Lemma core_kern (s s' : shell) : core s' = core s -> kern s' = kern s.
Proof. intros F. now core_inj F. Qed.

Lemma launch_job_continues (i : nat) (notify : Z) (s : shell) :
  quiet s ->
  (i < length (job_list s))%nat ->
  In (Kill (pid (job_at s i)) SIGCONT) (trace (launch_job i notify s).2).
Proof.
  intros Hq Hi. unfold launch_job. unfold update_job at 1.
  rewrite bind_modify, bind_get.
  set (s1 := set_job_list _ s).
  assert (J1 : job_at s1 i = set_state JSTOPPED (job_at s i))
    by (apply job_at_alter_eq; exact Hi).
  assert (Hq1 : quiet s1) by exact Hq.
  rewrite (bind_val _ _ _ _ _ (sys_setpgid_quiet _ _ s1 Hq1)), bind_get.
  set (s2 := recorded _ s1).
  assert (J2 : job_at s2 i = set_state JSTOPPED (job_at s i)) by exact J1.
  assert (Hq2 : quiet s2) by exact Hq.
  assert (Hst : forall s3, job_list s3 = job_list s2 -> quiet s3 ->
            In (Kill (pid (job_at s i)) SIGCONT)
               (trace (continue_if_stopped i s3).2)).
  { intros s3 E Hq3. rewrite (continue_if_stopped_quiet i s3 Hq3).
    rewrite (job_at_list s2 s3 i E), J2. cbn [state pid set_state snd].
    rewrite bool_decide_eq_true_2 by reflexivity. apply sent_recorded. }
  destruct (background (job_at s2 i) =? JFG).
  - unfold send_to_foreground.
    destruct (register_signals_core SIG_DFL s2) as (s3 & R3 & F3).
    rewrite (bind_val _ _ _ _ _ R3), bind_get.
    destruct (tcsetpgrp_if_core (negb (interactive s3 =? 0))
                (pid (job_at s3 i)) s3) as (s4 & R4 & F4).
    rewrite (bind_val _ _ _ _ _ R4), bind_modify.
    apply core_job_list in F3 as E3. apply core_job_list in F4 as E4.
    apply core_kern in F3 as K3. apply core_kern in F4 as K4.
    apply sent_bind.
    + apply Hst; [simpl; now rewrite E4 |].
      intros n. simpl. rewrite K4, K3. apply Hq2.
    + intros _. grows_auto.
  - apply sent_bind.
    + unfold send_to_background. apply sent_bind.
      * now apply Hst.
      * intros _. grows_auto.
    + intros _. grows_auto.
Qed.

Lemma field_alter {Y : Type} (F : job -> Y) (g : job -> job) (l : list job)
    (k i : nat) :
  (forall j, F (g j) = F j) ->
  F (default job_zero (alter g k l !! i)) = F (default job_zero (l !! i)).
Proof.
  intros H. destruct (decide (k = i)) as [-> | Hne].
  - rewrite list_lookup_alter_eq. destruct (l !! i); [apply H | reflexivity].
  - now rewrite list_lookup_alter_ne.
Qed.

Lemma launch_job_keeps_pid (i m : nat) (notify : Z) :
  keeps (fun s => pid (job_at s m)) (launch_job i notify).
Proof.
  apply keeps_launch_job; try reflexivity;
    intros; unfold job_at; simpl; now apply field_alter.
Qed.

(** X22: [start_cmd] does not test the result of [fork] for failure.
    When [fork] returns -1 (and no other call is refused), on a table with a
    free slot, a job with pid -1 is registered and launched, and the
    [SIGCONT] of the launch is sent with [kill (-1, SIGCONT)], which
    addresses every process the shell may signal. *)
Theorem start_cmd_fork_failure (name : string) (argv : list string)
    (options notify : Z) (k : nat) (s : shell) :
  external_name name ->
  quiet s ->
  k_fork (kern s) (clock s) = -1 ->
  length (job_list s) = MAXJOBS ->
  (k < MAXJOBS)%nat ->
  pid (job_at s k) = 0 ->
  let r := start_cmd name argv options notify s in
  In (Kill (-1) SIGCONT) (trace r.2)
  /\ kill_addressee (-1) = Everyone
  /\ exists i, (i <= k)%nat /\ pid (job_at r.2 i) = -1.
Proof.
  intros Hext Hq Hfork Hlen Hk Hfree r.
  set (sf := forked (ChildExec (Some name) argv) s).
  assert (Hsf : job_list sf = job_list s)
    by (unfold sf, forked; rewrite Hfork; reflexivity).
  destruct (register_job_run (-1) (-1) options (Some name) k sf)
    as (i & Hik & Hrun & Hpi & Hbelow & _ & _);
    [congruence | exact Hk | now rewrite (job_at_list s sf k Hsf) |].
  set (s1 := set_job_list _ sf) in Hrun.
  assert (Hi : (i < length (job_list sf))%nat) by (rewrite Hsf; lia).
  assert (J1 : job_at s1 i
               = registered i (-1) (-1) options (Some name) (job_at sf i))
    by (apply job_at_alter_eq; exact Hi).
  assert (Hr : r = (launch_job i notify;;
                    if options =? JFG then s0 ← get; mret (status (job_at s0 i))
                    else mret INTERNSTATUS) s1).
  { subst r. unfold start_cmd.
    rewrite (bind_val _ _ _ _ _ (internal_cmd_external name argv s Hext)).
    change (negb (-1 =? -1)) with false. cbv iota.
    rewrite (bind_val _ _ _ _ _ (sys_fork_run _ s)). rewrite Hfork.
    change (-1 =? 0) with false. cbv iota. fold sf.
    now rewrite (bind_val _ _ _ _ _ Hrun). }
  rewrite Hr. split; [| split; [reflexivity |]].
  - apply sent_bind; [| intros _; grows_auto].
    replace (Kill (-1) SIGCONT) with (Kill (pid (job_at s1 i)) SIGCONT)
      by (rewrite J1; reflexivity).
    apply launch_job_continues.
    + intros n. unfold s1, sf, forked. rewrite Hfork. apply Hq.
    + unfold s1. simpl. now rewrite length_alter.
  - exists i. split; [exact Hik |].
    assert (K : keeps (fun s => pid (job_at s i))
                  (launch_job i notify;;
                   if options =? JFG then s0 ← get; mret (status (job_at s0 i))
                   else mret INTERNSTATUS)).
    { apply keeps_bind; [apply launch_job_keeps_pid | intros _].
      destruct (options =? JFG); [apply keeps_bind; [apply keeps_get | intros ?] |];
        apply keeps_ret. }
    rewrite (K s1). now rewrite J1.
Qed.

Lemma start_cmd_fork_failure_witness :
  let s := shell_init (simple_kernel (-1) 0) in
  let r := start_cmd "ls" ["ls"%string] JFG 0 s in
  external_name "ls" /\ quiet s /\ k_fork (kern s) (clock s) = -1
  /\ In (Kill (-1) SIGCONT) (trace r.2)
  /\ pid (job_at r.2 0) = -1.
Proof.
  intros s r.
  assert (Hext : external_name "ls") by reflexivity.
  assert (Hq : quiet s) by (intros n; reflexivity).
  assert (Hfork : k_fork (kern s) (clock s) = -1) by reflexivity.
  assert (Hlen : length (job_list s) = MAXJOBS) by reflexivity.
  assert (Hk : (0 < MAXJOBS)%nat) by (unfold MAXJOBS; lia).
  assert (Hfree : pid (job_at s 0) = 0) by reflexivity.
  destruct (start_cmd_fork_failure "ls" ["ls"%string] JFG 0 0 s
              Hext Hq Hfork Hlen Hk Hfree) as (Hkill & _ & i & Hik & Hpid).
  assert (Hi : i = 0%nat) by lia. subst i.
  repeat (split; [assumption |]). exact Hpid.
Defined.

(** ** Argument lists *)

Lemma LongueurListe_prefix (done : list string) (tl : arg_list) :
  LongueurListe (map Some done ++ None :: tl) = Some (length done).
Proof.
  induction done as [|a done IH]; simpl; [reflexivity |]. now rewrite IH.
Qed.

Lemma arguments_of_prefix (done : list string) (tl : arg_list) :
  arguments_of (map Some done ++ None :: tl) = done.
Proof.
  induction done as [|a done IH]; simpl; [reflexivity |]. now rewrite IH.
Qed.

Lemma AjouterArg_room (done : list string) (tl : arg_list) (a : string) :
  AjouterArg (map Some done ++ None :: None :: tl) a
  = Some (map Some (done ++ [c_string a]) ++ None :: tl).
Proof.
  unfold AjouterArg. rewrite LongueurListe_prefix.
  rewrite decide_True by (rewrite length_app, length_map; simpl; lia).
  f_equal. rewrite map_app, <- app_assoc. simpl.
  assert (E : forall (x : option string) (l : arg_list) (pre : arg_list) y,
            <[length pre := x]> (pre ++ y :: l) = pre ++ x :: l).
  { intros x l pre y. induction pre as [|b pre IH]; simpl; [reflexivity |].
    now rewrite IH. }
  rewrite <- (length_map Some done) at 2. rewrite E.
  replace (S (length done)) with (length (map Some done ++ [Some (c_string a)]))
    by (rewrite length_app, length_map; simpl; lia).
  replace (map Some done ++ Some (c_string a) :: None :: tl)
    with ((map Some done ++ [Some (c_string a)]) ++ None :: tl)
    by (now rewrite <- app_assoc).
  rewrite E. now rewrite <- app_assoc.
Qed.

Lemma AjouterArg_full (done : list string) (a : string) :
  AjouterArg (map Some done ++ [None]) a = None.
Proof.
  unfold AjouterArg. rewrite LongueurListe_prefix.
  now rewrite decide_False by (rewrite length_app, length_map; simpl; lia).
Qed.

Lemma AjouterArgs_run (args : list string) :
  forall (done : list string) (k : nat),
    AjouterArgs (map Some done ++ replicate (S k) None) args
    = if decide (length args <= k)%nat
      then Some (map Some (done ++ map c_string args)
                 ++ replicate (S (k - length args)) None)
      else None.
Proof.
  induction args as [|a args IH]; intros done k; cbn [AjouterArgs].
  - rewrite decide_True by (simpl; lia).
    cbn [map length]. now rewrite app_nil_r, Nat.sub_0_r.
  - destruct k as [|k].
    + change (replicate 1 None) with [@None string].
      rewrite AjouterArg_full. now rewrite decide_False by (simpl; lia).
    + change (replicate (S (S k)) None)
        with (@None string :: None :: replicate k None).
      rewrite AjouterArg_room.
      change (None :: replicate k None) with (replicate (S k) (@None string)).
      rewrite IH. rewrite <- app_assoc. cbn [map app length].
      destruct (decide (length args <= k)%nat);
        [rewrite decide_True by lia | rewrite decide_False by lia];
        reflexivity.
Qed.

Lemma InitialiserListeArguments_shape (NB_ARGS : nat) :
  InitialiserListeArguments NB_ARGS = map Some [] ++ replicate (S NB_ARGS) None.
Proof.
  unfold InitialiserListeArguments. now rewrite Nat.add_1_r.
Qed.

(** X23: a list made by [InitialiserListeArguments] takes up to [NB_ARGS]
    arguments: every [AjouterArg] stays inside the array, the array keeps
    its [NB_ARGS + 1] cells, [LongueurListe] counts the arguments added and
    the array holds them in order, each up to its first NUL. *)
Theorem AjouterArgs_fits (NB_ARGS : nat) (args : list string) :
  (length args <= NB_ARGS)%nat ->
  exists l,
    AjouterArgs (InitialiserListeArguments NB_ARGS) args = Some l
    /\ length l = (NB_ARGS + 1)%nat
    /\ LongueurListe l = Some (length args)
    /\ arguments_of l = map c_string args.
Proof.
  intros Hlen. rewrite InitialiserListeArguments_shape, AjouterArgs_run.
  rewrite decide_True by exact Hlen. eexists. split; [reflexivity |].
  cbn [app]. change (replicate (S (NB_ARGS - length args)) None)
    with (@None string :: replicate (NB_ARGS - length args) None).
  split; [| split].
  - rewrite length_app, !length_map. cbn [length]. rewrite length_replicate. lia.
  - rewrite LongueurListe_prefix. now rewrite length_map.
  - apply arguments_of_prefix.
Qed.

Lemma AjouterArgs_fits_witness :
  (length ["ls"; "-l"]%string <= 2)%nat
  /\ exists l,
       AjouterArgs (InitialiserListeArguments 2) ["ls"; "-l"]%string = Some l
       /\ arguments_of l = ["ls"; "-l"]%string.
Proof.
  assert (H : (length ["ls"; "-l"]%string <= 2)%nat) by (simpl; lia).
  destruct (AjouterArgs_fits 2 ["ls"; "-l"]%string H) as (l & Hrun & _ & _ & Hargs).
  split; [exact H |]. exists l. split; [exact Hrun | exact Hargs].
Defined.

(** X24: [AjouterArg] does not check the bound: with more than [NB_ARGS]
    arguments, the call for argument [NB_ARGS + 1] writes past the end of
    the array. *)
Theorem AjouterArgs_overflow (NB_ARGS : nat) (args : list string) :
  (NB_ARGS < length args)%nat ->
  AjouterArgs (InitialiserListeArguments NB_ARGS) args = None.
Proof.
  intros Hlen. rewrite InitialiserListeArguments_shape, AjouterArgs_run.
  now rewrite decide_False by lia.
Qed.

Lemma AjouterArgs_overflow_witness :
  (2 < length ["ls"; "-l"; "-a"]%string)%nat
  /\ AjouterArgs (InitialiserListeArguments 2) ["ls"; "-l"; "-a"]%string = None.
Proof.
  assert (H : (2 < length ["ls"; "-l"; "-a"]%string)%nat) by (simpl; lia).
  split; [exact H |]. exact (AjouterArgs_overflow 2 ["ls"; "-l"; "-a"]%string H).
Defined.

(** ** The built-ins that are not [fg] or [bg] *)

Lemma internal_cmd_keeps_core (name : string) (argv : list string) :
  hash_cmd name <> CFG -> hash_cmd name <> CBG ->
  keeps core (internal_cmd name argv).
Proof.
  intros Hfg Hbg. unfold internal_cmd, EndOfFile. cbv zeta.
  apply Z.eqb_neq in Hfg, Hbg. rewrite Hfg, Hbg.
  repeat first
    [ apply keeps_ret | apply keeps_get | apply keeps_halt
    | apply keeps_print_out; reflexivity
    | apply keeps_print_err; reflexivity
    | apply keeps_echo_args; reflexivity
    | apply keeps_dipslay_help; reflexivity
    | apply keeps_sys_chdir; reflexivity
    | apply keeps_display_job; reflexivity
    | apply keeps_for_slots; intros ?
    | apply keeps_bind; [| intros ?]
    | match goal with
      | |- keeps _ (if ?c then _ else _) => destruct c
      | |- keeps _ (match ?x with _ => _ end) => destruct x
      end ].
Qed.

(** X25: the built-ins other than [fg] and [bg] ([exit], [echo], [cd],
    [help], [hash], [jobs]) and the test for an external command never touch
    the job table, [last_job], [fg_job], the descriptor table or
    [laststatus]. *)
Theorem builtins_keep_core (name : string) (argv : list string) (s : shell) :
  hash_cmd name <> CFG -> hash_cmd name <> CBG ->
  let s' := (internal_cmd name argv s).2 in
  job_list s' = job_list s /\ last_job s' = last_job s /\ fg_job s' = fg_job s
  /\ fdt s' = fdt s /\ laststatus s' = laststatus s.
Proof.
  intros Hfg Hbg s'.
  pose proof (internal_cmd_keeps_core name argv Hfg Hbg s) as F.
  fold s' in F. unfold core in F.
  injection F as ? ? ? ? ? ? ? ? ?. now repeat split.
Qed.

Lemma builtins_keep_core_witness :
  let s := shell_foreground (simple_kernel 4242 0) in
  hash_cmd "jobs" <> CFG /\ hash_cmd "jobs" <> CBG
  /\ job_list (internal_cmd "jobs" ["jobs"%string] s).2 = job_list s
  /\ fdt (internal_cmd "jobs" ["jobs"%string] s).2 = fdt s.
Proof.
  intros s.
  assert (H1 : hash_cmd "jobs" <> CFG) by (vm_compute; discriminate).
  assert (H2 : hash_cmd "jobs" <> CBG) by (vm_compute; discriminate).
  destruct (builtins_keep_core "jobs" ["jobs"%string] s H1 H2)
    as (Hj & _ & _ & Hf & _).
  repeat split; assumption.
Defined.
